(** * Automatic background-people removal: scoring, separation, inpainting
      selection and the retrying orchestrator.

    Shallow embedding of
      - [foreground-separation.ts]  (scoring engine, separator, mask generator),
      - [person-detection.ts]       (the two detection adapters),
      - [background-inpainting.ts]  (back-ends, model selector, prompt helper),
      - [auto-person-removal.ts]    (pipeline and retry wrapper).

    JavaScript numbers that carry geometry (pixels, ratios, scores) are
    modelled as real numbers: [Math.sqrt], [Math.exp], [Math.pow], [Math.min]
    and [Math.max] are [sqrt], [exp], [pow], [Rmin] and [Rmax].  This is
    exact arithmetic: nothing rounds, overflows or becomes NaN.  The scoring
    engine and the separator are given a second time on binary64 numbers
    (module [Binary64]), to evaluate the code where overflow and NaN decide
    the result.  The two counts a caller passes in are rational numbers, which
    covers every finite JavaScript number: targetForegroundCount, since
    [Array.prototype.slice] accepts and truncates a fractional or negative
    count, and maxRetries, since the loop compares the attempt with it by
    [<=] and by [===] and a fractional budget answers the two differently.
    The counts the code itself produces and the milliseconds (attempt, delay,
    processingTime, the detail counters) are integers in [Z].
    Remote calls, the clock, [console.log] of the attempt line and
    [setTimeout] are effects on an explicit world: the trace of events so
    far, answered by an environment of external services. *)

From Stdlib Require Import Reals Lra Lia ZArith List String Ascii Bool.
From Stdlib Require Import Permutation DecimalString DecimalNat Sorted.
From Stdlib Require Import QArith Qround Qminmax.
From Stdlib Require PrimFloat FloatOps FloatAxioms SpecFloat.
Import ListNotations.

(* A decimal literal of a binary64 number denotes, as in JavaScript, the
   nearest binary64 value. *)
Set Warnings "-inexact-float".

Local Open Scope R_scope.

(** ** Data model ([person-detection.ts]) *)

(** [bbox: [number, number, number, number]] is [x, y, width, height]. *)
Record BBox := mkBBox {
  bx : R;
  by_ : R;
  bw : R;
  bh : R
}.

Record PersonMask := mkPersonMask {
  id : string;
  mask : string;
  bbox : BBox;
  confidence : R;
  centerPoint : R * R;
  area : R
}.

Record DetectionResult := mkDetectionResult {
  masks : list PersonMask;
  imageWidth : R;
  imageHeight : R
}.

(** ** Foreground scoring engine ([foreground-separation.ts]) *)

Record Factors := mkFactors {
  position : R;
  size : R;
  clarity : R;
  centrality : R;
  orientation : R
}.

Record ForegroundScore := mkForegroundScore {
  personId : string;
  score : R;
  factors : Factors
}.

Module Weights.
Definition position : R := 0.30.
Definition size : R := 0.25.
Definition centrality : R := 0.20.
Definition orientation : R := 0.15.
Definition clarity : R := 0.10.
End Weights.

Definition calculatePositionScore (person : PersonMask) (imageWidth imageHeight : R) : R :=
  let '(mkBBox x y w h) := bbox person in
  let centerX := x + w / 2 in
  let centerY := y + h / 2 in
  let imageCenterX := imageWidth / 2 in
  let imageCenterY := imageHeight / 2 in
  let distance := sqrt ((centerX - imageCenterX) ^ 2 + (centerY - imageCenterY) ^ 2) in
  let maxDistance := sqrt ((imageWidth / 2) ^ 2 + (imageHeight / 2) ^ 2) in
  let normalizedDistance := distance / maxDistance in
  Rmax 0 (100 * exp (-3 * normalizedDistance)).

Definition calculateSizeScore (person : PersonMask) (imageWidth imageHeight : R) : R :=
  let '(mkBBox x y w h) := bbox person in
  let personArea := w * h in
  let imageArea := imageWidth * imageHeight in
  let areaRatio := personArea / imageArea in
  let minOptimalRatio := 0.05 in
  let maxOptimalRatio := 0.40 in
  if Rlt_dec areaRatio minOptimalRatio then
    (areaRatio / minOptimalRatio) * 60
  else if Rgt_dec areaRatio maxOptimalRatio then
    let excessRatio := (areaRatio - maxOptimalRatio) / (0.8 - maxOptimalRatio) in
    Rmax 20 (100 * (1 - excessRatio))
  else
    100.

Definition calculateCentralityScore (person : PersonMask) (imageWidth imageHeight : R) : R :=
  let '(centerX, centerY) := centerPoint person in
  let imageCenterX := imageWidth / 2 in
  let imageCenterY := imageHeight / 2 in
  let distance := sqrt ((centerX - imageCenterX) ^ 2 + (centerY - imageCenterY) ^ 2) in
  let maxDistance := sqrt ((imageWidth / 2) ^ 2 + (imageHeight / 2) ^ 2) in
  let normalizedDistance := distance / maxDistance in
  Rmax 0 (100 * exp (-2 * normalizedDistance ^ 2)).

Definition calculateOrientationScore (person : PersonMask) (imageWidth imageHeight : R) : R :=
  let '(mkBBox x y w h) := bbox person in
  let centerX := x + w / 2 in
  let centerY := y + h / 2 in
  let isInForegroundArea := if Rgt_dec centerY (imageHeight * 0.3) then true else false in
  let isInCenterHorizontal :=
    (if Rgt_dec centerX (imageWidth * 0.2) then true else false)
    && (if Rlt_dec centerX (imageWidth * 0.8) then true else false) in
  let score0 := 50 in
  let score1 := if isInForegroundArea then score0 + 30 else score0 in
  let score2 := if isInCenterHorizontal then score1 + 20 else score1 in
  Rmin 100 score2.

Definition calculateClarityScore (person : PersonMask) : R :=
  let baseScore := 70 in
  let confidenceBonus := confidence person * 30 in
  Rmin 100 (baseScore + confidenceBonus).

Definition calculateForegroundScore (person : PersonMask) (imageWidth imageHeight : R)
  : ForegroundScore :=
  let positionScore := calculatePositionScore person imageWidth imageHeight in
  let sizeScore := calculateSizeScore person imageWidth imageHeight in
  let centralityScore := calculateCentralityScore person imageWidth imageHeight in
  let orientationScore := calculateOrientationScore person imageWidth imageHeight in
  let clarityScore := calculateClarityScore person in
  let finalScore :=
    positionScore * Weights.position +
    sizeScore * Weights.size +
    centralityScore * Weights.centrality +
    orientationScore * Weights.orientation +
    clarityScore * Weights.clarity in
  {| personId := id person;
     score := Rmax 0 (Rmin 100 finalScore);
     factors := {| position := positionScore;
                   size := sizeScore;
                   clarity := clarityScore;
                   centrality := centralityScore;
                   orientation := orientationScore |} |}.

(** ** Separator and mask generator ([foreground-separation.ts]) *)

Record SeparationResult := mkSeparationResult {
  foregroundMasks : list PersonMask;
  backgroundMasks : list PersonMask;
  foregroundMask : string;
  backgroundMask : string
}.

(** [scores.sort((a, b) => b.score - a.score)]: a stable sort, descending by
    score; an element stays before the ones it ties with. *)
Fixpoint insertByScore (a : ForegroundScore) (sorted : list ForegroundScore)
  : list ForegroundScore :=
  match sorted with
  | [] => [a]
  | b :: rest =>
      if Rle_dec (score b - score a) 0 then a :: b :: rest
      else b :: insertByScore a rest
  end.

Definition sortByScoreDesc (scores : list ForegroundScore) : list ForegroundScore :=
  fold_right insertByScore [] scores.

(** [ToIntegerOrInfinity] on a finite number: the fraction is dropped, towards
    zero. *)
Definition toIntegerOrInfinity (number : Q) : Z :=
  if Qle_bool 0 number then Qfloor number else Qceiling number.

(** [Array.prototype.slice(0, end)]: [end] is first truncated to an integer;
    a negative [end] counts from the end of the array, and the result is
    empty when the bounds cross. *)
Definition slice0 {A : Type} (l : list A) (end_ : Q) : list A :=
  let len := Z.of_nat (List.length l) in
  let relativeEnd := toIntegerOrInfinity end_ in
  let final :=
    if (relativeEnd <? 0)%Z then Z.max (len + relativeEnd) 0 else Z.min relativeEnd len in
  firstn (Z.to_nat final) l.

(** [ids.includes(x)] *)
Definition includes (ids : list string) (x : string) : bool :=
  existsb (String.eqb x) ids.

Definition combineMasks (masks : list PersonMask) : string :=
  match masks with
  | [] => EmptyString
  | first :: _ => mask first
  end.

Definition separateForegroundBackground (detectionResult : DetectionResult)
    (targetForegroundCount : Q) : SeparationResult :=
  let masks := masks detectionResult in
  let imageWidth := imageWidth detectionResult in
  let imageHeight := imageHeight detectionResult in
  match masks with
  | [] => {| foregroundMasks := []; backgroundMasks := [];
             foregroundMask := EmptyString; backgroundMask := EmptyString |}
  | _ :: _ =>
      let scores := map (fun mask => calculateForegroundScore mask imageWidth imageHeight) masks in
      let scores := sortByScoreDesc scores in
      let foregroundCount :=
        Qmin targetForegroundCount (inject_Z (Z.of_nat (List.length scores))) in
      let foregroundIds := map personId (slice0 scores foregroundCount) in
      let foregroundMasks := filter (fun mask => includes foregroundIds (id mask)) masks in
      let backgroundMasks := filter (fun mask => negb (includes foregroundIds (id mask))) masks in
      {| foregroundMasks := foregroundMasks;
         backgroundMasks := backgroundMasks;
         foregroundMask := combineMasks foregroundMasks;
         backgroundMask := combineMasks backgroundMasks |}
  end.

Definition generateInpaintingMask (backgroundMasks : list PersonMask)
    (imageWidth imageHeight : R) : string :=
  match backgroundMasks with
  | [] => EmptyString
  | first :: _ => mask first
  end.

(** ** Effects: thrown values, events, the world and the external services *)

(** A thrown JavaScript value: an [Error] object with its message, or any
    other value, kept as what [String(error)] shows. *)
Inductive Thrown :=
| ErrorObj (message : string)
| Raw (shown : string).

(** [error instanceof Error ? error.message : String(error)] *)
Definition errorText (error : Thrown) : string :=
  match error with
  | ErrorObj message => message
  | Raw shown => shown
  end.

(** The Replicate models called with [replicate.run]. *)
Inductive Service := SAM2 | YOLOv8 | SAM | StabilityAI | RunwayML | FLUX.

Definition isInpaintingService (s : Service) : bool :=
  match s with
  | StabilityAI | RunwayML | FLUX => true
  | _ => false
  end.

(** Observable events, oldest first: a remote call, the attempt line the
    retry wrapper logs before each pipeline invocation, and a [setTimeout]
    wait of [delay] milliseconds. *)
Inductive Event :=
| EvRun (s : Service)
| EvAttempt (attempt : Z) (maxRetries : Q)
| EvWait (delay : Z).

Definition World := list Event.

(** What [await replicate.run(...)] does: throw, or resolve to an output;
    [Output None] is an output that is null or not an array (not an object
    for SAM). *)
Inductive Reply (A : Type) :=
| Throws (error : Thrown)
| Output (output : option A).
Arguments Throws {A} error.
Arguments Output {A} output.

(** The fields the adapters read from raw outputs; an absent field is [None]. *)
Record RawSegment := mkRawSegment {
  seg_bbox : option BBox;
  seg_mask : option string;
  seg_confidence : option R
}.

Record RawBox := mkRawBox {
  box_bbox : option BBox;
  box_confidence : option R
}.

Record SamOutput := mkSamOutput {
  sam_mask : option string
}.

(** The external collaborators.  Each answer may depend on everything that
    happened before (the world) and on the request. *)
Record Services := mkServices {
  run_sam2 : World -> string -> Reply (list RawSegment);
  run_yolo : World -> string -> Reply (list RawBox);
  run_sam : World -> string -> BBox -> Reply SamOutput;
  run_inpainting : Service -> World -> string -> string -> string -> Reply (list string);
  Date_now : World -> Z
}.

(** ** A small exception-and-state monad for [async] code *)

Inductive Outcome (A : Type) :=
| Returns (value : A)
| Throw (error : Thrown).
Arguments Returns {A} value.
Arguments Throw {A} error.

Definition M (A : Type) : Type := World -> Outcome A * World.

Definition ret {A} (a : A) : M A := fun w => (Returns a, w).

Definition throw {A} (error : Thrown) : M A := fun w => (Throw error, w).

Definition bind {A B} (m : M A) (k : A -> M B) : M B :=
  fun w =>
    match m w with
    | (Returns a, w') => k a w'
    | (Throw error, w') => (Throw error, w')
    end.

(** [try { m } catch (error) { handler }] *)
Definition try_catch {A} (m : M A) (handler : Thrown -> M A) : M A :=
  fun w =>
    match m w with
    | (Returns a, w') => (Returns a, w')
    | (Throw error, w') => handler error w'
    end.

Definition emit (e : Event) : M unit := fun w => (Returns tt, (w ++ [e])%list).

Declare Scope async_scope.
Delimit Scope async_scope with async.
Notation "x <- m ;; k" := (bind m (fun x => k))
  (at level 61, m at next level, right associativity) : async_scope.
Notation "m ;;; k" := (bind m (fun _ => k))
  (at level 61, right associativity) : async_scope.

(** [await replicate.run(...)]: the call is recorded, then it resolves or throws. *)
Definition await_run {A} (s : Service) (answer : World -> Reply A) : M (option A) :=
  fun w =>
    match answer w with
    | Throws error => (Throw error, (w ++ [EvRun s])%list)
    | Output output => (Returns output, (w ++ [EvRun s])%list)
    end.

Local Open Scope string_scope.
Local Open Scope async_scope.

Section Adapters.

Variable env : Services.

Definition now : M Z := fun w => (Returns (Date_now env w), w).

(** ** Detection adapters ([person-detection.ts]) *)

Definition defaultBBox : BBox := mkBBox 0 0 100 100.

(** [value || fallback] on an optional number: absent and 0 are falsy. *)
Definition numberOr (value : option R) (fallback : R) : R :=
  match value with
  | Some v => if Req_dec_T v 0 then fallback else v
  | None => fallback
  end.

(** [value || fallback] on an optional string: absent and empty are falsy. *)
Definition stringOr (value : option string) (fallback : string) : string :=
  match value with
  | Some v => if v =? "" then fallback else v
  | None => fallback
  end.

(** [value || fallback] on an optional array: every array is truthy. *)
Definition bboxOr (value : option BBox) (fallback : BBox) : BBox :=
  match value with
  | Some v => v
  | None => fallback
  end.

(** [`person_${index}`] *)
Definition personIdOf (index : nat) : string :=
  "person_" ++ NilEmpty.string_of_uint (Nat.to_uint index).

Fixpoint mapi_from {A B} (f : A -> nat -> B) (index : nat) (l : list A) : list B :=
  match l with
  | [] => []
  | item :: rest => f item index :: mapi_from f (S index) rest
  end.

(** [array.map((item, index) => ...)] *)
Definition mapi {A B} (f : A -> nat -> B) (l : list A) : list B := mapi_from f 0 l.

Definition segmentToMask (item : RawSegment) (index : nat) : PersonMask :=
  let bbox := bboxOr (seg_bbox item) defaultBBox in
  let centerX := (bx bbox + bw bbox / 2)%R in
  let centerY := (by_ bbox + bh bbox / 2)%R in
  let area := (bw bbox * bh bbox)%R in
  {| id := personIdOf index;
     mask := stringOr (seg_mask item) "";
     bbox := bbox;
     confidence := numberOr (seg_confidence item) 0.8;
     centerPoint := (centerX, centerY);
     area := area |}.

Definition detectPeopleInImage (imageUrl : string) : M DetectionResult :=
  try_catch
    (output <- await_run SAM2 (fun w => run_sam2 env w imageUrl) ;;
     match output with
     | None => throw (ErrorObj "SAM-2 API did not return valid output")
     | Some output =>
         let masks := mapi segmentToMask output in
         let filteredMasks :=
           filter (fun mask => if Rgt_dec (confidence mask) 0.5 then true else false) masks in
         ret {| masks := filteredMasks; imageWidth := 1024; imageHeight := 1024 |}
     end)
    (fun error => throw (ErrorObj ("Failed to detect people: " ++ errorText error))).

(** The [for] loop over [yoloOutput]: one SAM call per box, in order; a box
    whose SAM output has no (truthy) mask is skipped. *)
Fixpoint refineBoxes (imageUrl : string) (i : nat) (yoloOutput : list RawBox)
    (masks : list PersonMask) : M (list PersonMask) :=
  match yoloOutput with
  | [] => ret masks
  | detection :: rest =>
      let bbox := bboxOr (box_bbox detection) defaultBBox in
      samOutput <- await_run SAM (fun w => run_sam env w imageUrl bbox) ;;
      match samOutput with
      | Some {| sam_mask := Some m |} =>
          if m =? "" then refineBoxes imageUrl (S i) rest masks
          else
            let centerX := (bx bbox + bw bbox / 2)%R in
            let centerY := (by_ bbox + bh bbox / 2)%R in
            let area := (bw bbox * bh bbox)%R in
            refineBoxes imageUrl (S i) rest
              (masks ++ [ {| id := personIdOf i;
                             mask := m;
                             bbox := bbox;
                             confidence := numberOr (box_confidence detection) 0.8;
                             centerPoint := (centerX, centerY);
                             area := area |} ])%list
      | _ => refineBoxes imageUrl (S i) rest masks
      end
  end.

Definition detectPeopleWithYOLO (imageUrl : string) : M DetectionResult :=
  try_catch
    (yoloOutput <- await_run YOLOv8 (fun w => run_yolo env w imageUrl) ;;
     match yoloOutput with
     | None => throw (ErrorObj "YOLO API did not return valid output")
     | Some yoloOutput =>
         masks <- refineBoxes imageUrl 0 yoloOutput [] ;;
         ret {| masks := masks; imageWidth := 1024; imageHeight := 1024 |}
     end)
    (fun error => throw (ErrorObj ("Failed to detect people with YOLO + SAM: " ++ errorText error))).

End Adapters.

(** ** Inpainting back-ends and model selector ([background-inpainting.ts]) *)

Record InpaintingResult := mkInpaintingResult {
  ir_resultUrl : string;
  ir_processingTime : Z;
  ir_modelUsed : string
}.

Section Inpainting.

Variable env : Services.

(** The body the three back-end functions share: they differ in the model
    called, the name used in messages and the reported [modelUsed]. *)
Definition inpaintWith (s : Service) (label modelUsed : string)
    (imageUrl maskUrl prompt : string) : M InpaintingResult :=
  try_catch
    (startTime <- now env ;;
     output <- await_run s (fun w => run_inpainting env s w imageUrl maskUrl prompt) ;;
     match output with
     | None | Some [] =>
         throw (ErrorObj (label ++ " inpainting did not return valid output"))
     | Some (resultUrl :: _) =>
         finish <- now env ;;
         ret {| ir_resultUrl := resultUrl;
                ir_processingTime := (finish - startTime)%Z;
                ir_modelUsed := modelUsed |}
     end)
    (fun error => throw (ErrorObj ("Failed to inpaint with " ++ label ++ ": " ++ errorText error))).

Definition inpaintWithStabilityAI : string -> string -> string -> M InpaintingResult :=
  inpaintWith StabilityAI "Stability AI" "stability-ai/stable-diffusion-inpainting".

Definition inpaintWithRunwayML : string -> string -> string -> M InpaintingResult :=
  inpaintWith RunwayML "RunwayML" "runwayml/stable-diffusion-inpainting".

Definition inpaintWithFLUX : string -> string -> string -> M InpaintingResult :=
  inpaintWith FLUX "FLUX" "black-forest-labs/flux-kontext-dev".

(** The [if (preferredModel) { try { switch ... } catch { } }] block:
    [Some r] when the function returns [r] from inside it, [None] when
    control continues below it. *)
Definition tryPreferred (imageUrl maskUrl prompt : string) (preferredModel : option string)
  : M (option InpaintingResult) :=
  match preferredModel with
  | None => ret None
  | Some preferredModel =>
      if preferredModel =? "" then ret None
      else
        try_catch
          (if preferredModel =? "stability" then
             r <- inpaintWithStabilityAI imageUrl maskUrl prompt ;; ret (Some r)
           else if preferredModel =? "runwayml" then
             r <- inpaintWithRunwayML imageUrl maskUrl prompt ;; ret (Some r)
           else if preferredModel =? "flux" then
             r <- inpaintWithFLUX imageUrl maskUrl prompt ;; ret (Some r)
           else ret None)
          (fun _ => ret None)
  end.

Definition models : list (string * (string -> string -> string -> M InpaintingResult)) :=
  [ ("stability", inpaintWithStabilityAI);
    ("runwayml", inpaintWithRunwayML);
    ("flux", inpaintWithFLUX) ].

(** [for (const model of models) { try { return await model.func(...) } catch { continue } }] *)
Fixpoint tryModels (imageUrl maskUrl prompt : string)
    (models : list (string * (string -> string -> string -> M InpaintingResult)))
  : M (option InpaintingResult) :=
  match models with
  | [] => ret None
  | model :: rest =>
      attempt <- try_catch
                   (r <- snd model imageUrl maskUrl prompt ;; ret (Some r))
                   (fun _ => ret None) ;;
      match attempt with
      | Some r => ret (Some r)
      | None => tryModels imageUrl maskUrl prompt rest
      end
  end.

Definition smartInpainting (imageUrl maskUrl prompt : string)
    (preferredModel : option string) : M InpaintingResult :=
  preferred <- tryPreferred imageUrl maskUrl prompt preferredModel ;;
  match preferred with
  | Some r => ret r
  | None =>
      listed <- tryModels imageUrl maskUrl prompt models ;;
      match listed with
      | Some r => ret r
      | None => throw (ErrorObj "All inpainting models failed")
      end
  end.

End Inpainting.

(** [haystack.includes(needle)] on strings *)
Definition stringIncludes (haystack needle : string) : bool :=
  match index 0 needle haystack with
  | Some _ => true
  | None => false
  end.

Definition generateOptimizedPrompt (originalPrompt imageContext : option string) : string :=
  let basePrompt := stringOr originalPrompt "natural background, seamless, high quality" in
  let optimizedPrompt := basePrompt in
  let optimizedPrompt :=
    match imageContext with
    | Some imageContext =>
        if imageContext =? "" then optimizedPrompt
        else if stringIncludes imageContext "outdoor" || stringIncludes imageContext "nature" then
          optimizedPrompt ++ ", outdoor, natural lighting, environmental context"
        else if stringIncludes imageContext "indoor" || stringIncludes imageContext "room" then
          optimizedPrompt ++ ", indoor, architectural, room context"
        else optimizedPrompt
    | None => optimizedPrompt
    end in
  optimizedPrompt ++ ", professional photography, high resolution, detailed".

(** ** Pipeline orchestrator ([auto-person-removal.ts]) *)

Record Details := mkDetails {
  peopleDetected : Z;
  foregroundPeople : Z;
  backgroundPeople : Z;
  modelUsed : string;
  inpaintingModel : string
}.

Record PersonRemovalResult := mkPersonRemovalResult {
  success : bool;
  resultUrl : option string;
  processingTime : Z;
  details : Details;
  error : option string
}.

(** Every option is optional; [None] is an absent (undefined) field. *)
Record PersonRemovalOptions := mkPersonRemovalOptions {
  targetForegroundCount : option Q;
  preferredInpaintingModel : option string;
  customPrompt : option string;
  fallbackToYOLO : option bool;
  maxRetries : option Q
}.

(** Destructuring default: [const { field = fallback } = options]. *)
Definition orDefault {A} (value : option A) (fallback : A) : A :=
  match value with
  | Some v => v
  | None => fallback
  end.

Definition noDetails : Details :=
  {| peopleDetected := 0; foregroundPeople := 0; backgroundPeople := 0;
     modelUsed := "none"; inpaintingModel := "none" |}.

Definition validateInpaintingResult (resultUrl originalImageUrl maskUrl : string) : bool := true.

Definition lengthZ {A} (l : list A) : Z := Z.of_nat (List.length l).

Section Orchestrator.

Variable env : Services.

(** Step 1 of the pipeline: the primary detector, then the YOLO fallback
    when it is allowed. *)
Definition detectionStage (imageUrl : string) (fallbackToYOLO : bool) : M DetectionResult :=
  try_catch
    (detectPeopleInImage env imageUrl)
    (fun error =>
       if fallbackToYOLO then
         try_catch
           (detectPeopleWithYOLO env imageUrl)
           (fun yoloError =>
              throw (ErrorObj ("Both SAM-2 and YOLO detection failed: " ++ errorText error)))
       else throw error).

Definition autoRemoveBackgroundPeople (imageUrl : string) (options : PersonRemovalOptions)
  : M PersonRemovalResult :=
  startTime <- now env ;;
  let targetForegroundCount := orDefault (targetForegroundCount options) 1%Q in
  let preferredInpaintingModel := preferredInpaintingModel options in
  let customPrompt := customPrompt options in
  let fallbackToYOLO := orDefault (fallbackToYOLO options) true in
  try_catch
    (detectionResult <- detectionStage imageUrl fallbackToYOLO ;;
     match masks detectionResult with
     | [] =>
         finish <- now env ;;
         ret {| success := false;
                resultUrl := None;
                processingTime := (finish - startTime)%Z;
                details := noDetails;
                error := Some "No people detected in the image" |}
     | _ :: _ =>
         let separationResult :=
           separateForegroundBackground detectionResult targetForegroundCount in
         match backgroundMasks separationResult with
         | [] =>
             finish <- now env ;;
             ret {| success := true;
                    resultUrl := Some imageUrl;
                    processingTime := (finish - startTime)%Z;
                    details :=
                      {| peopleDetected := lengthZ (masks detectionResult);
                         foregroundPeople := lengthZ (foregroundMasks separationResult);
                         backgroundPeople := 0;
                         modelUsed := "SAM-2/YOLO";
                         inpaintingModel := "none" |};
                    error := None |}
         | _ :: _ =>
             let inpaintingMask :=
               generateInpaintingMask (backgroundMasks separationResult)
                 (imageWidth detectionResult) (imageHeight detectionResult) in
             if inpaintingMask =? "" then
               throw (ErrorObj "Failed to generate inpainting mask")
             else
               let optimizedPrompt := generateOptimizedPrompt customPrompt (Some "outdoor") in
               inpaintingResult <- smartInpainting env imageUrl inpaintingMask optimizedPrompt
                                     preferredInpaintingModel ;;
               let isValid :=
                 validateInpaintingResult (ir_resultUrl inpaintingResult) imageUrl inpaintingMask in
               if negb isValid then
                 throw (ErrorObj "Inpainting result validation failed")
               else
                 totalTime <- (finish <- now env ;; ret (finish - startTime)%Z) ;;
                 ret {| success := true;
                        resultUrl := Some (ir_resultUrl inpaintingResult);
                        processingTime := totalTime;
                        details :=
                          {| peopleDetected := lengthZ (masks detectionResult);
                             foregroundPeople := lengthZ (foregroundMasks separationResult);
                             backgroundPeople := lengthZ (backgroundMasks separationResult);
                             modelUsed := "SAM-2/YOLO";
                             inpaintingModel := ir_modelUsed inpaintingResult |};
                        error := None |}
         end
     end)
    (fun error =>
       finish <- now env ;;
       ret {| success := false;
              resultUrl := None;
              processingTime := (finish - startTime)%Z;
              details := noDetails;
              error := Some (errorText error) |}).

End Orchestrator.

(** ** Retry wrapper ([auto-person-removal.ts]) *)

(** [Math.min(1000 * Math.pow(2, attempt - 1), 5000)] *)
Definition backoffDelay (attempt : Z) : Z :=
  Z.min (1000 * 2 ^ (attempt - 1)) 5000.

(** The result built in the wrapper's [catch] branch on the last attempt. *)
Definition caughtResult (error : Thrown) : PersonRemovalResult :=
  {| success := false;
     resultUrl := None;
     processingTime := 0;
     details := noDetails;
     error := Some (errorText error) |}.

(** The result after the loop. *)
Definition maxRetriesExceeded : PersonRemovalResult :=
  {| success := false;
     resultUrl := None;
     processingTime := 0;
     details := noDetails;
     error := Some "Max retries exceeded" |}.

Section Retry.

(** The wrapper is written over the pipeline it calls, so that its [catch]
    branch is covered too; [removeWithRetry] below calls it on
    [autoRemoveBackgroundPeople]. *)
Variable pipeline : string -> PersonRemovalOptions -> M PersonRemovalResult.

(** [await new Promise(resolve => setTimeout(resolve, delay))] *)
Definition sleep (delay : Z) : M unit := emit (EvWait delay).

(** One iteration of the [for] loop: [Some r] when the function returns [r],
    [None] when the loop goes on to the next attempt. *)
Definition retryIteration (imageUrl : string) (options : PersonRemovalOptions)
    (maxRetries : Q) (attempt : Z) : M (option PersonRemovalResult) :=
  emit (EvAttempt attempt maxRetries) ;;;
  try_catch
    (result <- pipeline imageUrl options ;;
     if success result then ret (Some result)
     else if Qeq_bool (inject_Z attempt) maxRetries then ret (Some result)
     else
       let delay := backoffDelay attempt in
       sleep delay ;;; ret None)
    (fun error =>
       if Qeq_bool (inject_Z attempt) maxRetries then ret (Some (caughtResult error))
       else
         let delay := backoffDelay attempt in
         sleep delay ;;; ret None).

(** [for (let attempt = 1; attempt <= maxRetries; attempt++)], entered at
    [attempt] with [remaining] iterations before the guard fails.  The
    counter is an integer, so the guard [attempt <= maxRetries] holds up to
    the integer part of maxRetries: the wrapper enters the loop at attempt 1
    with [remaining] = floor(maxRetries) (0 when maxRetries < 1), and
    [remaining] = max(0, floor(maxRetries) - attempt + 1) throughout.  No
    iteration is left exactly when the guard fails, and the loop then falls
    through to the final [return]. *)
Fixpoint retryLoop (imageUrl : string) (options : PersonRemovalOptions)
    (maxRetries : Q) (remaining : nat) (attempt : Z) : M PersonRemovalResult :=
  match remaining with
  | O => ret maxRetriesExceeded
  | S remaining' =>
      returned <- retryIteration imageUrl options maxRetries attempt ;;
      match returned with
      | Some result => ret result
      | None => retryLoop imageUrl options maxRetries remaining' (attempt + 1)
      end
  end.

Definition autoRemoveBackgroundPeopleWithRetry (imageUrl : string)
    (options : PersonRemovalOptions) : M PersonRemovalResult :=
  let maxRetries := orDefault (maxRetries options) 2%Q in
  retryLoop imageUrl options maxRetries (Z.to_nat (Qfloor maxRetries)) 1.

End Retry.

(** The exported wrapper, on the pipeline of this module. *)
Definition removeWithRetry (env : Services) : string -> PersonRemovalOptions -> M PersonRemovalResult :=
  autoRemoveBackgroundPeopleWithRetry (autoRemoveBackgroundPeople env).

(** ** Predicates used in the statements *)

(** The bounding box lies within [0, imageWidth] x [0, imageHeight]. *)
Definition bboxWithinImage (b : BBox) (imageWidth imageHeight : R) : Prop :=
  (0 <= bx b /\ 0 <= by_ b /\ 0 <= bw b /\ 0 <= bh b /\
   bx b + bw b <= imageWidth /\ by_ b + bh b <= imageHeight)%R.

Definition inScoreRange (v : R) : Prop := (0 <= v <= 100)%R.

Definition bboxCenter (b : BBox) : R * R :=
  (bx b + bw b / 2, by_ b + bh b / 2)%R.

(** The centre of the bounding box is the centre of the image. *)
Definition centredInImage (p : PersonMask) (imageWidth imageHeight : R) : Prop :=
  bboxCenter (bbox p) = (imageWidth / 2, imageHeight / 2)%R.

(** The centre of the bounding box is one of the four corners of the image. *)
Definition atImageCorner (p : PersonMask) (imageWidth imageHeight : R) : Prop :=
  (fst (bboxCenter (bbox p)) = 0 \/ fst (bboxCenter (bbox p)) = imageWidth)%R /\
  (snd (bboxCenter (bbox p)) = 0 \/ snd (bboxCenter (bbox p)) = imageHeight)%R.

(** The bounding box covers the share [ratio] of the image area. *)
Definition coversShare (p : PersonMask) (ratio imageWidth imageHeight : R) : Prop :=
  (bw (bbox p) * bh (bbox p) = ratio * (imageWidth * imageHeight))%R.

(** The ids the separator selects, for a non-empty detection. *)
Definition foregroundIdsOf (detectionResult : DetectionResult) (targetForegroundCount : Q)
  : list string :=
  let scores :=
    sortByScoreDesc
      (map (fun mask => calculateForegroundScore mask
                          (imageWidth detectionResult) (imageHeight detectionResult))
           (masks detectionResult)) in
  map personId
    (slice0 scores (Qmin targetForegroundCount (inject_Z (Z.of_nat (List.length scores))))).

(** The computation [m] only adds remote calls to the world, all of them
    to services that satisfy [allowed]. *)
Definition onlyRuns {A} (allowed : Service -> Prop) (m : M A) : Prop :=
  forall w, exists runs,
    snd (m w) = (w ++ map EvRun runs)%list /\ Forall allowed runs.

Definition isDetectionService (s : Service) : Prop := isInpaintingService s = false.

Definition anyService (s : Service) : Prop := True.

(** The value a computation returned, if it returned. *)
Definition returned {A} (o : Outcome A) : option A :=
  match o with
  | Returns a => Some a
  | Throw _ => None
  end.

(** A reply on which an inpainting back-end fails: the call throws, or its
    output is not a non-empty array. *)
Definition replyFails (r : Reply (list string)) : Prop :=
  match r with
  | Output (Some (_ :: _)) => False
  | _ => True
  end.

Definition allBackendsFail (env : Services) : Prop :=
  forall s w imageUrl maskUrl prompt,
    replyFails (run_inpainting env s w imageUrl maskUrl prompt).

(** The service behind a model name of the selector's [switch]. *)
Definition serviceOfName (name : string) : option Service :=
  if name =? "stability" then Some StabilityAI
  else if name =? "runwayml" then Some RunwayML
  else if name =? "flux" then Some FLUX
  else None.

(** The selection policy in the words of the specification: the back-ends
    to attempt, in order -- the preferred one first when it names a
    back-end, then the whole priority list from its beginning -- and the
    result of the first attempt that succeeds; when every attempt fails, an
    error is raised. *)
Section SelectionPolicy.

Variable env : Services.

Definition lookupModel (name : string)
  : option (string * (string -> string -> string -> M InpaintingResult)) :=
  find (fun model => fst model =? name) (models env).

Definition attemptOrder (preferredModel : option string)
  : list (string * (string -> string -> string -> M InpaintingResult)) :=
  (match preferredModel with
   | Some name =>
       match lookupModel name with
       | Some model => [model]
       | None => []
       end
   | None => []
   end ++ models env)%list.

Fixpoint firstSuccess (imageUrl maskUrl prompt : string)
    (attempts : list (string * (string -> string -> string -> M InpaintingResult)))
  : M InpaintingResult :=
  match attempts with
  | [] => throw (ErrorObj "All inpainting models failed")
  | model :: rest =>
      try_catch (snd model imageUrl maskUrl prompt)
                (fun _ => firstSuccess imageUrl maskUrl prompt rest)
  end.

End SelectionPolicy.

(** The services called when every attempt fails, in order. *)
Definition attemptedServices (preferredModel : option string) : list Service :=
  (match preferredModel with
   | Some name =>
       match serviceOfName name with
       | Some s => [s]
       | None => []
       end
   | None => []
   end ++ [StabilityAI; RunwayML; FLUX])%list.

(** [model] is the back-end function that calls service [s]. *)
Definition callsService (env : Services)
    (model : string * (string -> string -> string -> M InpaintingResult))
    (s : Service) : Prop :=
  exists label modelUsed, snd model = inpaintWith env s label modelUsed.

(** Reading the trace of the retry wrapper. *)
Definition isAttempt (e : Event) : bool :=
  match e with
  | EvAttempt _ _ => true
  | _ => false
  end.

Definition isRun (e : Event) : bool :=
  match e with
  | EvRun _ => true
  | _ => false
  end.

(** The number of attempt lines in a trace. *)
Definition attemptCount (events : list Event) : nat :=
  List.length (filter isAttempt events).

(** The primary detector is SAM-2; the pipeline calls it at the start of the
    detection stage and nowhere else. *)
Definition isPrimaryDetector (s : Service) : bool :=
  match s with
  | SAM2 => true
  | _ => false
  end.

Definition notPrimaryDetector (s : Service) : Prop := isPrimaryDetector s = false.

Definition isPrimaryDetection (e : Event) : bool :=
  match e with
  | EvRun s => isPrimaryDetector s
  | _ => false
  end.

(** The number of calls of the primary detector in a trace. *)
Definition primaryDetections (events : list Event) : nat :=
  List.length (filter isPrimaryDetection events).

(** The number of events of a trace that carry a given mark. *)
Definition countEvents (mark : Event -> bool) (events : list Event) : nat :=
  List.length (filter mark events).

(** The mark tells the invocations of a computation apart from what the
    wrapper itself writes: it is on no attempt line and on no wait, and each
    run of the computation adds exactly one marked event to the world. *)
Definition marksInvocations {A} (mark : Event -> bool) (m : M A) : Prop :=
  (forall attempt maxRetries, mark (EvAttempt attempt maxRetries) = false) /\
  (forall delay, mark (EvWait delay) = false) /\
  (forall w, countEvents mark (snd (m w)) = S (countEvents mark w)).

(** The computation calls the primary detector once, before any other remote
    call, and adds nothing but remote calls to the world. *)
Definition detectsOnceFirst {A} (m : M A) : Prop :=
  forall w, exists runs,
    snd (m w) = (w ++ EvRun SAM2 :: map EvRun runs)%list /\
    Forall notPrimaryDetector runs.

(** The events of the wrapper itself: attempts and waits. *)
Definition wrapperEvents (events : list Event) : list Event :=
  filter (fun e => negb (isRun e)) events.

(** What the wrapper returns for the outcome of an attempt it ends on. *)
Definition lastAttemptResult (o : Outcome PersonRemovalResult) : PersonRemovalResult :=
  match o with
  | Returns result => result
  | Throw error => caughtResult error
  end.

(** Whether the wrapper returns after an attempt with outcome [o]. *)
Definition iterationStops (o : Outcome PersonRemovalResult) (maxRetries : Q) (attempt : Z)
  : bool :=
  match o with
  | Returns result => success result || Qeq_bool (inject_Z attempt) maxRetries
  | Throw _ => Qeq_bool (inject_Z attempt) maxRetries
  end.

(** The outcome of an attempt is not a success. *)
Definition attemptFails (o : Outcome PersonRemovalResult) : Prop :=
  match o with
  | Returns result => success result = false
  | Throw _ => True
  end.

(** The backoff schedule in the words of the specification: the delay
    before attempt [k], for [k >= 2]. *)
Definition specDelayBefore (k : Z) : Z := Z.min (1000 * 2 ^ (k - 2)) 5000.

(** [count] attempts, numbered from [first], with the specified delay
    before each attempt but the first. *)
Fixpoint attemptsSchedule (maxRetries : Q) (first : Z) (count : nat) : list Event :=
  match count with
  | O => []
  | S count' =>
      EvAttempt first maxRetries ::
      match count' with
      | O => []
      | S _ => EvWait (specDelayBefore (first + 1)) ::
               attemptsSchedule maxRetries (first + 1) count'
      end
  end.

(** A run of the wrapper in which no attempt succeeds, in the words of the
    specification: the pipeline is invoked once per attempt, attempt after
    attempt.  [worldAfterFailures failures] is the world in which the wrapper
    stands after [failures] failed attempts -- the caller's world at first;
    after one more failure, what that invocation of the pipeline left, then
    the wait.  [invocationWorld failures] is the world in which the pipeline
    is invoked next, for attempt [failures + 1]: the attempt line has just
    been logged. *)
Section FailingRun.

Variable pipeline : string -> PersonRemovalOptions -> M PersonRemovalResult.
Variables (imageUrl : string) (options : PersonRemovalOptions).
Variables (maxRetries : Q) (w : World).

Fixpoint worldAfterFailures (failures : nat) : World :=
  match failures with
  | O => w
  | S earlier =>
      let attempt := (Z.of_nat earlier + 1)%Z in
      let invoked := (worldAfterFailures earlier ++ [EvAttempt attempt maxRetries])%list in
      (snd (pipeline imageUrl options invoked) ++ [EvWait (backoffDelay attempt)])%list
  end.

Definition invocationWorld (failures : nat) : World :=
  (worldAfterFailures failures ++ [EvAttempt (Z.of_nat failures + 1) maxRetries])%list.

End FailingRun.

(** ** Progress lookup ([auto-person-removal.ts]) *)

Module Stages.

(** [stage: 'detecting' | 'separating' | 'inpainting' | 'completed'] *)
Inductive Stage := detecting | separating | inpainting | completed.

Record ProgressInfo := mkProgressInfo {
  progress : Z;
  message : string
}.

Definition getProcessingProgress (stage : Stage) : ProgressInfo :=
  match stage with
  | detecting => {| progress := 25; message := "Detecting people in image..." |}
  | separating => {| progress := 50; message := "Separating foreground and background..." |}
  | inpainting => {| progress := 75; message := "Filling background with AI..." |}
  | completed => {| progress := 100; message := "Processing completed!" |}
  end.

(** The position of a stage in the pipeline. *)
Definition stageIndex (stage : Stage) : Z :=
  match stage with
  | detecting => 0
  | separating => 1
  | inpainting => 2
  | completed => 3
  end.

End Stages.

(** ** Image generation ([openai.ts]) *)

(** An element of the output of the image model: a string, an object with a
    [url()] method (kept as what a call of the method does: it returns a
    value or throws), or anything else.  A value is [None] when it is falsy
    and not a string ([null], [undefined]), and otherwise its text, of which
    the empty one is falsy. *)
Inductive RawImage :=
| ImageString (url : string)
| ImageFile (url : Outcome (option string))
| ImageOther.

(** The callback of [output.map]: the URL of an item, or [null]; the call
    [item.url()] may throw, and what it returns is passed on as it is. *)
Definition imageUrlOf (item : RawImage) : Outcome (option string) :=
  match item with
  | ImageString url => Returns (Some url)
  | ImageFile called => called
  | ImageOther => Returns None
  end.

(** [output.map(item => ...)]: the items are visited in order, and the first
    throw ends the visit. *)
Fixpoint mapImageUrls (output : list RawImage) : Outcome (list (option string)) :=
  match output with
  | [] => Returns []
  | item :: rest =>
      match imageUrlOf item with
      | Throw error => Throw error
      | Returns url =>
          match mapImageUrls rest with
          | Throw error => Throw error
          | Returns urls => Returns (url :: urls)
          end
      end
  end.

(** [.filter(Boolean)] on strings and [null]: [null] and the empty string
    are dropped. *)
Fixpoint filterBoolean (items : list (option string)) : list string :=
  match items with
  | [] => []
  | Some url :: rest => if url =? "" then filterBoolean rest else url :: filterBoolean rest
  | None :: rest => filterBoolean rest
  end.

(** [generateImageWithReplicate(prompt, guidance = 3.5)], over the remote
    call [run] it awaits. *)
Definition generateImageWithReplicate
    (run : string -> R -> Reply (list RawImage))
    (prompt : string) (guidance : option R) : Outcome (list string) :=
  let guidance := orDefault guidance 3.5%R in
  let attempt :=
    match run prompt guidance with
    | Throws e => Throw e
    | Output (Some (item :: rest)) =>
        match mapImageUrls (item :: rest) with
        | Returns urls => Returns (filterBoolean urls)
        | Throw e => Throw e
        end
    | Output _ => Throw (ErrorObj "Replicate API did not return valid image URLs.")
    end in
  match attempt with
  | Returns urls => Returns urls
  | Throw error =>
      Throw (ErrorObj ("Failed to generate image with Replicate: " ++ errorText error))
  end.

(** ** The HTTP handler of the removal endpoint (the variant that reads the
       image from the JSON body) *)

Module Route.

Record EmailAddress := mkEmailAddress {
  emailAddress : string
}.

(** The fields of the signed-in user the handler reads. *)
Record ClerkUser := mkClerkUser {
  emailAddresses : option (list EmailAddress);
  firstName : option string;
  imageUrl : string
}.

Record UserCredits := mkUserCredits {
  left_credits : Z
}.

Record User := mkUser {
  email : string;
  nickname : string;
  avatar_url : string
}.

(** The fields of the JSON body the handler reads; [image_data], when
    present, is a string, and [file_size] a number of bytes. *)
Record RequestBody := mkRequestBody {
  image_data : option string;
  file_name : option string;
  file_size : option Z
}.

(** The payload of a successful response. *)
Record RemovalPayload := mkRemovalPayload {
  result_url : option string;
  processing_time : Z;
  payload_details : Details;
  payload_message : string
}.

(** The collaborators of the handler that are not part of this module:
    authentication, the credit and user stores, and the request body.  Each
    may throw; what they change in their own stores is outside the trace. *)
Record Gateway := mkGateway {
  currentUser : World -> Outcome (option ClerkUser);
  getUserCredits : World -> string -> Outcome (option UserCredits);
  saveUser : World -> User -> Outcome unit;
  req_json : World -> Outcome RequestBody
}.

(** [await f(...)] for a collaborator of the gateway. *)
Definition await {A} (answer : World -> Outcome A) : M A :=
  fun w => (answer w, w).

(** The options the handler passes to the wrapper. *)
Definition handlerOptions : PersonRemovalOptions :=
  {| targetForegroundCount := Some 1%Q;
     preferredInpaintingModel := None;
     customPrompt := None;
     fallbackToYOLO := Some true;
     maxRetries := Some 2%Q |}.

(** [10 * 1024 * 1024] *)
Definition maxFileSize : Z := 10 * 1024 * 1024.

Section Handler.

(** [respErr] and [respData] build the response; they come from [lib/resp]. *)
Variable Response : Type.
Variable respErr : string -> Response.
Variable respData : RemovalPayload -> Response.

Variable gateway : Gateway.
Variable env : Services.

(** The body of the [try] block, after the user's first e-mail address was
    read. *)
Definition handleRequest (user : ClerkUser) (first : EmailAddress) : M Response :=
  let user_email := emailAddress first in
  user_credits <- await (fun w => getUserCredits gateway w user_email) ;;
  match user_credits with
  | None => ret (respErr "credits not enough")
  | Some credits =>
      if (left_credits credits <? 1)%Z then ret (respErr "credits not enough")
      else
        let userInfo := {| email := user_email;
                           nickname := stringOr (firstName user) "";
                           avatar_url := imageUrl user |} in
        await (fun w => saveUser gateway w userInfo) ;;;
        body <- await (req_json gateway) ;;
        match image_data body with
        | None => ret (respErr "no image data provided")
        | Some image_data =>
            if image_data =? "" then ret (respErr "no image data provided")
            else if negb (prefix "data:image/" image_data) then
              ret (respErr "invalid image data format")
            else if match file_size body with
                    | Some file_size =>
                        negb (file_size =? 0)%Z && (file_size >? maxFileSize)%Z
                    | None => false
                    end then
              ret (respErr "file too large, maximum size is 10MB")
            else
              let imageUrl := image_data in
              result <- removeWithRetry env imageUrl handlerOptions ;;
              if negb (success result) then
                ret (respErr (stringOr (error result) "person removal failed"))
              else
                ret (respData {| result_url := resultUrl result;
                                 processing_time := processingTime result;
                                 payload_details := details result;
                                 payload_message := "Background people removed successfully" |})
        end
  end.

Definition POST : M Response :=
  user <- await (currentUser gateway) ;;
  match user with
  | None => ret (respErr "no auth")
  | Some user =>
      match emailAddresses user with
      | None | Some [] => ret (respErr "no auth")
      | Some (first :: _) =>
          try_catch
            (handleRequest user first)
            (fun error =>
               match error with
               | ErrorObj message => ret (respErr message)
               | Raw _ => ret (respErr "internal server error")
               end)
      end
  end.

End Handler.

End Route.

(** The request passes every gate of the handler in world [w]: a signed-in
    user with an e-mail address and at least one credit, whose record was
    saved, and a body whose image data is a data URL of an image within the
    size limit. *)
Definition admittedRequest (gateway : Route.Gateway) (w : World) (image_data : string)
  : Prop :=
  exists user first others credits body,
    Route.currentUser gateway w = Returns (Some user) /\
    Route.emailAddresses user = Some (first :: others) /\
    Route.getUserCredits gateway w (Route.emailAddress first) = Returns (Some credits) /\
    (1 <= Route.left_credits credits)%Z /\
    Route.saveUser gateway w
      {| Route.email := Route.emailAddress first;
         Route.nickname := stringOr (Route.firstName user) "";
         Route.avatar_url := Route.imageUrl user |} = Returns tt /\
    Route.req_json gateway w = Returns body /\
    Route.image_data body = Some image_data /\
    prefix "data:image/" image_data = true /\
    match Route.file_size body with
    | Some size => size = 0%Z \/ (size <= Route.maxFileSize)%Z
    | None => True
    end.

(** What the [catch] of the handler answers. *)
Definition caughtResponse {Response : Type} (respErr : string -> Response)
    (error : Thrown) : Response :=
  match error with
  | ErrorObj message => respErr message
  | Raw _ => respErr "internal server error"
  end.

(** The response for a result of the wrapper. *)
Definition responseFor {Response : Type} (respErr : string -> Response)
    (respData : Route.RemovalPayload -> Response) (result : PersonRemovalResult)
  : Response :=
  if success result then
    respData {| Route.result_url := resultUrl result;
                Route.processing_time := processingTime result;
                Route.payload_details := details result;
                Route.payload_message := "Background people removed successfully" |}
  else respErr (stringOr (error result) "person removal failed").

(** ** Notions used in the further properties *)

(** The weighted sum of the five factors, before the final clamp. *)
Definition weightedSum (f : Factors) : R :=
  (position f * Weights.position +
   size f * Weights.size +
   centrality f * Weights.centrality +
   orientation f * Weights.orientation +
   clarity f * Weights.clarity)%R.

(** The [modelUsed] string each inpainting back-end reports. *)
Definition modelIdOf (s : Service) : string :=
  match s with
  | StabilityAI => "stability-ai/stable-diffusion-inpainting"
  | RunwayML => "runwayml/stable-diffusion-inpainting"
  | FLUX => "black-forest-labs/flux-kontext-dev"
  | _ => ""
  end.

(** [model] is the back-end function that calls service [s] and reports
    its model id. *)
Definition reportsService (env : Services)
    (model : string * (string -> string -> string -> M InpaintingResult))
    (s : Service) : Prop :=
  exists label, snd model = inpaintWith env s label (modelIdOf s).

(** ** The scoring engine and the separator on binary64 numbers

    The definitions above compute on real numbers, which neither round nor
    overflow.  JavaScript numbers are IEEE 754 binary64 values: a square can
    overflow to Infinity, Infinity / Infinity is NaN, and NaN then passes
    through [Math.exp], [Math.max], [Math.min] and the comparator of [sort].
    This module gives the same functions on binary64 values, operation for
    operation, to evaluate the code where the two readings part. *)

Module Binary64.
Import PrimFloat.
Local Open Scope float_scope.
(** [Math.max] and [Math.min]: NaN as soon as an argument is NaN; of the two
    zeros, +0 is the larger. *)
Definition Math_max (a b : float) : float :=
  if is_nan a || is_nan b then nan
  else if a <? b then b
  else if b <? a then a
  else if get_sign a then b else a.

Definition Math_min (a b : float) : float :=
  if is_nan a || is_nan b then nan
  else if a <? b then a
  else if b <? a then b
  else if get_sign a then a else b.

(** [Math.pow(x, 2)], taken as the correctly rounded square. *)
Definition Math_pow2 (x : float) : float := x * x.

(** [Math.exp]: the language fixes its value at NaN, at the two zeros and at
    the two infinities; everywhere else the result is left to the engine
    ("implementation-approximated"), for which [approximateExp] stands. *)
Definition Math_exp (approximateExp : float -> float) (x : float) : float :=
  if is_nan x then nan
  else if is_zero x then 1
  else if x =? infinity then infinity
  else if x =? neg_infinity then 0
  else approximateExp x.

Record BBox := mkBBox {
  bx : float;
  by_ : float;
  bw : float;
  bh : float
}.

Record PersonMask := mkPersonMask {
  id : string;
  mask : string;
  bbox : BBox;
  confidence : float;
  centerPoint : float * float;
  area : float
}.

Record DetectionResult := mkDetectionResult {
  masks : list PersonMask;
  imageWidth : float;
  imageHeight : float
}.

Record Factors := mkFactors {
  position : float;
  size : float;
  clarity : float;
  centrality : float;
  orientation : float
}.

Record ForegroundScore := mkForegroundScore {
  personId : string;
  score : float;
  factors : Factors
}.

Record SeparationResult := mkSeparationResult {
  foregroundMasks : list PersonMask;
  backgroundMasks : list PersonMask;
  foregroundMask : string;
  backgroundMask : string
}.

Section Engine.

Variable approximateExp : float -> float.

Definition calculatePositionScore (person : PersonMask) (imageWidth imageHeight : float)
  : float :=
  let '(mkBBox x y w h) := bbox person in
  let centerX := x + w / 2 in
  let centerY := y + h / 2 in
  let imageCenterX := imageWidth / 2 in
  let imageCenterY := imageHeight / 2 in
  let distance :=
    sqrt (Math_pow2 (centerX - imageCenterX) + Math_pow2 (centerY - imageCenterY)) in
  let maxDistance := sqrt (Math_pow2 (imageWidth / 2) + Math_pow2 (imageHeight / 2)) in
  let normalizedDistance := distance / maxDistance in
  Math_max 0 (100 * Math_exp approximateExp (-3 * normalizedDistance)).

Definition calculateSizeScore (person : PersonMask) (imageWidth imageHeight : float)
  : float :=
  let '(mkBBox x y w h) := bbox person in
  let personArea := w * h in
  let imageArea := imageWidth * imageHeight in
  let areaRatio := personArea / imageArea in
  let minOptimalRatio := 0.05 in
  let maxOptimalRatio := 0.40 in
  if areaRatio <? minOptimalRatio then
    (areaRatio / minOptimalRatio) * 60
  else if maxOptimalRatio <? areaRatio then
    let excessRatio := (areaRatio - maxOptimalRatio) / (0.8 - maxOptimalRatio) in
    Math_max 20 (100 * (1 - excessRatio))
  else
    100.

Definition calculateCentralityScore (person : PersonMask) (imageWidth imageHeight : float)
  : float :=
  let '(centerX, centerY) := centerPoint person in
  let imageCenterX := imageWidth / 2 in
  let imageCenterY := imageHeight / 2 in
  let distance :=
    sqrt (Math_pow2 (centerX - imageCenterX) + Math_pow2 (centerY - imageCenterY)) in
  let maxDistance := sqrt (Math_pow2 (imageWidth / 2) + Math_pow2 (imageHeight / 2)) in
  let normalizedDistance := distance / maxDistance in
  Math_max 0 (100 * Math_exp approximateExp (-2 * Math_pow2 normalizedDistance)).

Definition calculateOrientationScore (person : PersonMask) (imageWidth imageHeight : float)
  : float :=
  let '(mkBBox x y w h) := bbox person in
  let centerX := x + w / 2 in
  let centerY := y + h / 2 in
  let isInForegroundArea := imageHeight * 0.3 <? centerY in
  let isInCenterHorizontal :=
    (imageWidth * 0.2 <? centerX) && (centerX <? imageWidth * 0.8) in
  let score0 := 50 in
  let score1 := if isInForegroundArea then score0 + 30 else score0 in
  let score2 := if isInCenterHorizontal then score1 + 20 else score1 in
  Math_min 100 score2.

Definition calculateClarityScore (person : PersonMask) : float :=
  let baseScore := 70 in
  let confidenceBonus := confidence person * 30 in
  Math_min 100 (baseScore + confidenceBonus).

Definition calculateForegroundScore (person : PersonMask) (imageWidth imageHeight : float)
  : ForegroundScore :=
  let positionScore := calculatePositionScore person imageWidth imageHeight in
  let sizeScore := calculateSizeScore person imageWidth imageHeight in
  let centralityScore := calculateCentralityScore person imageWidth imageHeight in
  let orientationScore := calculateOrientationScore person imageWidth imageHeight in
  let clarityScore := calculateClarityScore person in
  let finalScore :=
    positionScore * 0.30 +
    sizeScore * 0.25 +
    centralityScore * 0.20 +
    orientationScore * 0.15 +
    clarityScore * 0.10 in
  {| personId := id person;
     score := Math_max 0 (Math_min 100 finalScore);
     factors := {| position := positionScore;
                   size := sizeScore;
                   clarity := clarityScore;
                   centrality := centralityScore;
                   orientation := orientationScore |} |}.

(** The comparator [(a, b) => b.score - a.score] as [sort] reads it: a NaN
    result counts as +0, the two elements tie. *)
Definition compareScores (a b : ForegroundScore) : float :=
  let v := score b - score a in
  if is_nan v then 0 else v.

Fixpoint insertByScore (a : ForegroundScore) (sorted : list ForegroundScore)
  : list ForegroundScore :=
  match sorted with
  | [] => [a]
  | b :: rest =>
      if compareScores a b <=? 0 then a :: b :: rest
      else b :: insertByScore a rest
  end.

Definition sortByScoreDesc (scores : list ForegroundScore) : list ForegroundScore :=
  fold_right insertByScore [] scores.

Definition combineMasks (masks : list PersonMask) : string :=
  match masks with
  | [] => EmptyString
  | first :: _ => mask first
  end.

Definition separateForegroundBackground (detectionResult : DetectionResult)
    (targetForegroundCount : Q) : SeparationResult :=
  let masks := masks detectionResult in
  let imageWidth := imageWidth detectionResult in
  let imageHeight := imageHeight detectionResult in
  match masks with
  | [] => {| foregroundMasks := []; backgroundMasks := [];
             foregroundMask := EmptyString; backgroundMask := EmptyString |}
  | _ :: _ =>
      let scores := map (fun mask => calculateForegroundScore mask imageWidth imageHeight) masks in
      let scores := sortByScoreDesc scores in
      let foregroundCount :=
        Qmin targetForegroundCount (inject_Z (Z.of_nat (List.length scores))) in
      let foregroundIds := map personId (slice0 scores foregroundCount) in
      let foregroundMasks := filter (fun mask => includes foregroundIds (id mask)) masks in
      let backgroundMasks := filter (fun mask => negb (includes foregroundIds (id mask))) masks in
      {| foregroundMasks := foregroundMasks;
         backgroundMasks := backgroundMasks;
         foregroundMask := combineMasks foregroundMasks;
         backgroundMask := combineMasks backgroundMasks |}
  end.

End Engine.

(** The rational number a finite binary64 value stands for (0 for the
    infinities and NaN, which stand for none). *)
Definition valueOf (x : float) : Q :=
  match FloatOps.Prim2SF x with
  | SpecFloat.S754_finite negative m e =>
      ((if negative then -1 else 1) * inject_Z (Z.pos m) * 2 ^ e)%Q
  | _ => 0%Q
  end.



(** The premises of the statements about scores, read on the numbers the
    binary64 values stand for. *)
Definition bboxWithinImage (b : BBox) (imageWidth imageHeight : float) : Prop :=
  (0 <= valueOf (bx b) /\ 0 <= valueOf (by_ b) /\
   0 <= valueOf (bw b) /\ 0 <= valueOf (bh b) /\
   valueOf (bx b) + valueOf (bw b) <= valueOf imageWidth /\
   valueOf (by_ b) + valueOf (bh b) <= valueOf imageHeight)%Q.

Definition bboxCenter (b : BBox) : Q * Q :=
  (valueOf (bx b) + valueOf (bw b) / 2, valueOf (by_ b) + valueOf (bh b) / 2)%Q.

Definition centredInImage (p : PersonMask) (imageWidth imageHeight : float) : Prop :=
  (fst (bboxCenter (bbox p)) == valueOf imageWidth / 2 /\
   snd (bboxCenter (bbox p)) == valueOf imageHeight / 2)%Q.

Definition atImageCorner (p : PersonMask) (imageWidth imageHeight : float) : Prop :=
  (fst (bboxCenter (bbox p)) == 0 \/ fst (bboxCenter (bbox p)) == valueOf imageWidth)%Q /\
  (snd (bboxCenter (bbox p)) == 0 \/ snd (bboxCenter (bbox p)) == valueOf imageHeight)%Q.

Definition coversShare (p : PersonMask) (ratio : Q) (imageWidth imageHeight : float) : Prop :=
  (valueOf (bw (bbox p)) * valueOf (bh (bbox p))
   == ratio * (valueOf imageWidth * valueOf imageHeight))%Q.

(** Within [0, 100], as the code would test it. *)
Definition inScoreRange (v : float) : bool := (0 <=? v) && (v <=? 100).

(** The weighted sum of the reported factors, added up in the order of the
    code. *)
Definition weightedSum (f : Factors) : float :=
  position f * 0.30 +
  size f * 0.25 +
  centrality f * 0.20 +
  orientation f * 0.15 +
  clarity f * 0.10.











End Binary64.

(** ** Example inputs *)

Module Examples.

(** A person centred in a 1024 x 1024 image, covering 20% of it. *)
Definition centredPerson : PersonMask :=
  {| id := "person_0"; mask := "mask-centre";
     bbox := mkBBox 256 307.2 512 409.6;
     confidence := 0.8;
     centerPoint := (512, 512)%R;
     area := 209715.2 |}.

(** A person centred on the top-left corner of the image, covering 2% of
    its area, with the given mask reference. *)
Definition cornerPerson (maskRef : string) : PersonMask :=
  {| id := "person_1"; mask := maskRef;
     bbox := mkBBox (-51.2) (-102.4) 102.4 204.8;
     confidence := 0.8;
     centerPoint := (0, 0)%R;
     area := 20971.52 |}.

Definition scenarioB (maskRef : string) : DetectionResult :=
  {| masks := [centredPerson; cornerPerson maskRef];
     imageWidth := 1024; imageHeight := 1024 |}.





(** A person well inside a 1024 x 1024 image. *)
Definition insidePerson : PersonMask :=
  {| id := "person_0"; mask := "mask-0";
     bbox := mkBBox 100 100 200 300;
     confidence := 0.8;
     centerPoint := (200, 250)%R;
     area := 60000 |}.

Definition noOptions : PersonRemovalOptions :=
  {| targetForegroundCount := None; preferredInpaintingModel := None;
     customPrompt := None; fallbackToYOLO := None; maxRetries := None |}.

Definition withMaxRetries (n : Q) : PersonRemovalOptions :=
  {| targetForegroundCount := None; preferredInpaintingModel := None;
     customPrompt := None; fallbackToYOLO := None; maxRetries := Some n |}.

(** Every remote call throws; the clock counts the events so far. *)
Definition offlineServices : Services :=
  {| run_sam2 := fun _ _ => Throws (Raw "offline");
     run_yolo := fun _ _ => Throws (Raw "offline");
     run_sam := fun _ _ _ => Throws (Raw "offline");
     run_inpainting := fun _ _ _ _ _ => Throws (Raw "offline");
     Date_now := fun w => lengthZ w |}.

Definition centredBox : BBox := mkBBox 256 307.2 512 409.6.

(** The primary detector finds one person. *)
Definition primaryServices : Services :=
  {| run_sam2 := fun _ _ =>
       Output (Some [ {| seg_bbox := Some centredBox;
                         seg_mask := Some "mask-0";
                         seg_confidence := Some 0.8%R |} ]);
     run_yolo := fun _ _ => Throws (Raw "offline");
     run_sam := fun _ _ _ => Throws (Raw "offline");
     run_inpainting := fun _ _ _ _ _ => Throws (Raw "offline");
     Date_now := fun w => lengthZ w |}.

(** The primary detector throws; the fallback chain finds one box and
    refines it to a mask. *)
Definition fallbackServices : Services :=
  {| run_sam2 := fun _ _ => Throws (ErrorObj "SAM-2 unavailable");
     run_yolo := fun _ _ =>
       Output (Some [ {| box_bbox := Some centredBox; box_confidence := Some 0.8%R |} ]);
     run_sam := fun _ _ _ => Output (Some {| sam_mask := Some "mask-0" |});
     run_inpainting := fun _ _ _ _ _ => Throws (Raw "offline");
     Date_now := fun w => lengthZ w |}.

(** The person both example detections produce. *)
Definition detectedPerson : PersonMask :=
  {| id := "person_0"; mask := "mask-0";
     bbox := centredBox;
     confidence := 0.8;
     centerPoint := (256 + 512 / 2, 307.2 + 409.6 / 2)%R;
     area := (512 * 409.6)%R |}.

Definition detectedOne : DetectionResult :=
  {| masks := [detectedPerson]; imageWidth := 1024; imageHeight := 1024 |}.

End Examples.

(** The result of a failed pipeline attempt that took [elapsed]
    milliseconds. *)
Definition failedResult (elapsed : Z) (message : string) : PersonRemovalResult :=
  {| success := false;
     resultUrl := None;
     processingTime := elapsed;
     details := noDetails;
     error := Some message |}.

(** The three pieces of an optimized prompt. *)
Definition defaultPrompt : string := "natural background, seamless, high quality".
Definition outdoorSuffix : string := ", outdoor, natural lighting, environmental context".
Definition indoorSuffix : string := ", indoor, architectural, room context".
Definition qualitySuffix : string := ", professional photography, high resolution, detailed".

(** The context suffix the prompt helper inserts. *)
Definition contextSuffixOf (imageContext : option string) : string :=
  match imageContext with
  | Some context =>
      if stringIncludes context "outdoor" || stringIncludes context "nature"
      then outdoorSuffix
      else if stringIncludes context "indoor" || stringIncludes context "room"
      then indoorSuffix
      else ""
  | None => ""
  end.

(** ** Example inputs for the further properties *)

Module MoreExamples.

(** A raw segment reported with confidence 0. *)
Definition zeroConfidenceSegment : RawSegment :=
  {| seg_bbox := Some Examples.centredBox;
     seg_mask := Some "mask-0";
     seg_confidence := Some 0%R |}.

(** The primary detector reports one segment, with confidence 0. *)
Definition zeroConfidenceServices : Services :=
  {| run_sam2 := fun _ _ => Output (Some [zeroConfidenceSegment]);
     run_yolo := fun _ _ => Throws (Raw "offline");
     run_sam := fun _ _ _ => Throws (Raw "offline");
     run_inpainting := fun _ _ _ _ _ => Throws (Raw "offline");
     Date_now := fun w => lengthZ w |}.

(** The box detector finds one box, and the refinement call throws. *)
Definition refinementThrowsServices : Services :=
  {| run_sam2 := fun _ _ => Throws (ErrorObj "SAM-2 unavailable");
     run_yolo := fun _ _ =>
       Output (Some [ {| box_bbox := Some Examples.centredBox;
                         box_confidence := Some 0.8%R |} ]);
     run_sam := fun _ _ _ => Throws (ErrorObj "SAM unavailable");
     run_inpainting := fun _ _ _ _ _ => Throws (Raw "offline");
     Date_now := fun w => lengthZ w |}.

(** Detection finds nobody. *)
Definition nobodyServices : Services :=
  {| run_sam2 := fun _ _ => Output (Some []);
     run_yolo := fun _ _ => Throws (Raw "offline");
     run_sam := fun _ _ _ => Throws (Raw "offline");
     run_inpainting := fun _ _ _ _ _ => Throws (Raw "offline");
     Date_now := fun w => lengthZ w |}.

(** The primary detector finds one person, and the first inpainting
    back-end fills the image. *)
Definition inpaintingServices : Services :=
  {| run_sam2 := fun _ _ =>
       Output (Some [ {| seg_bbox := Some Examples.centredBox;
                         seg_mask := Some "mask-0";
                         seg_confidence := Some 0.8%R |} ]);
     run_yolo := fun _ _ => Throws (Raw "offline");
     run_sam := fun _ _ _ => Throws (Raw "offline");
     run_inpainting := fun s _ _ _ _ =>
       match s with
       | RunwayML => Output (Some ["https://result/filled.png"])
       | _ => Throws (Raw "offline")
       end;
     Date_now := fun w => lengthZ w |}.

(** The primary detector reports one segment that has no mask. *)
Definition masklessServices : Services :=
  {| run_sam2 := fun _ _ =>
       Output (Some [ {| seg_bbox := Some Examples.centredBox;
                         seg_mask := None;
                         seg_confidence := Some 0.8%R |} ]);
     run_yolo := fun _ _ => Throws (Raw "offline");
     run_sam := fun _ _ _ => Throws (Raw "offline");
     run_inpainting := fun _ _ _ _ _ => Throws (Raw "offline");
     Date_now := fun w => lengthZ w |}.

(** The person built from that segment. *)
Definition masklessPerson : PersonMask :=
  {| id := "person_0"; mask := "";
     bbox := Examples.centredBox;
     confidence := 0.8;
     centerPoint := (256 + 512 / 2, 307.2 + 409.6 / 2)%R;
     area := (512 * 409.6)%R |}.

Definition masklessOne : DetectionResult :=
  {| masks := [masklessPerson]; imageWidth := 1024; imageHeight := 1024 |}.

Definition keepNobody : PersonRemovalOptions :=
  {| targetForegroundCount := Some 0%Q; preferredInpaintingModel := None;
     customPrompt := None; fallbackToYOLO := None; maxRetries := None |}.

Definition noFallback : PersonRemovalOptions :=
  {| targetForegroundCount := None; preferredInpaintingModel := None;
     customPrompt := None; fallbackToYOLO := Some false; maxRetries := None |}.


Definition member : Route.ClerkUser :=
  {| Route.emailAddresses := Some [ {| Route.emailAddress := "ann@example.org" |} ];
     Route.firstName := Some "Ann";
     Route.imageUrl := "https://img/ann.png" |}.

(** A signed-in user with three credits posts a small PNG as a data URL. *)
Definition memberPosting : Route.Gateway :=
  {| Route.currentUser := fun _ => Returns (Some member);
     Route.getUserCredits := fun _ _ => Returns (Some {| Route.left_credits := 3 |});
     Route.saveUser := fun _ _ => Returns tt;
     Route.req_json := fun _ =>
       Returns {| Route.image_data := Some "data:image/png;base64,AAAA";
                  Route.file_name := Some "a.png";
                  Route.file_size := Some 1024%Z |} |}.

(** Responses as a sum: an error message or a payload. *)
Definition SimpleResponse : Type := (string + Route.RemovalPayload)%type.

End MoreExamples.

(** * Properties *)

(** ** Scoring engine *)

Lemma exp_nonpos_bounds (x : R) : (x <= 0 -> 0 < exp x <= 1)%R.
Proof.
  intros Hx. split; [apply exp_pos|].
  destruct (Rle_lt_or_eq_dec x 0 Hx) as [Hlt|Heq].
  - left. rewrite <- exp_0. now apply exp_increasing.
  - subst. rewrite exp_0. lra.
Qed.

Lemma decayed_in_range (x : R) :
  (x <= 0)%R -> inScoreRange (Rmax 0 (100 * exp x)).
Proof.
  intros Hx. destruct (exp_nonpos_bounds x Hx) as [Hpos Hle].
  unfold inScoreRange. split.
  - apply Rmax_l.
  - apply Rmax_lub; lra.
Qed.

Lemma maxDistance_pos (imageWidth imageHeight : R) :
  (0 < imageWidth -> 0 < imageHeight ->
   0 < sqrt ((imageWidth / 2) ^ 2 + (imageHeight / 2) ^ 2))%R.
Proof.
  intros HW HH. apply sqrt_lt_R0. nra.
Qed.

Lemma normalized_nonneg (d m : R) : (0 <= d -> 0 < m -> 0 <= d / m)%R.
Proof.
  intros Hd Hm. unfold Rdiv. apply Rmult_le_pos; [exact Hd|].
  left. now apply Rinv_0_lt_compat.
Qed.

Lemma positionScore_in_range (person : PersonMask) (imageWidth imageHeight : R) :
  (0 < imageWidth)%R -> (0 < imageHeight)%R ->
  inScoreRange (calculatePositionScore person imageWidth imageHeight).
Proof.
  intros HW HH. unfold calculatePositionScore. destruct (bbox person) as [x y w h].
  cbv zeta. apply decayed_in_range.
  pose proof (maxDistance_pos _ _ HW HH) as Hm.
  pose proof (normalized_nonneg _ _ (sqrt_pos
    ((x + w / 2 - imageWidth / 2) ^ 2 + (y + h / 2 - imageHeight / 2) ^ 2)) Hm).
  lra.
Qed.

Lemma centralityScore_in_range (person : PersonMask) (imageWidth imageHeight : R) :
  inScoreRange (calculateCentralityScore person imageWidth imageHeight).
Proof.
  unfold calculateCentralityScore. destruct (centerPoint person) as [cx cy].
  cbv zeta. apply decayed_in_range.
  match goal with |- (-2 * ?n ^ 2 <= 0)%R => pose proof (pow2_ge_0 n) end.
  lra.
Qed.

Lemma sizeScore_in_range (person : PersonMask) (imageWidth imageHeight : R) :
  (0 <= bw (bbox person))%R -> (0 <= bh (bbox person))%R ->
  (0 < imageWidth)%R -> (0 < imageHeight)%R ->
  inScoreRange (calculateSizeScore person imageWidth imageHeight).
Proof.
  intros Hw Hh HW HH. unfold calculateSizeScore.
  destruct (bbox person) as [x y w h]. simpl in Hw, Hh. cbv zeta.
  assert (Hr : (0 <= w * h / (imageWidth * imageHeight))%R).
  { apply normalized_nonneg; nra. }
  unfold inScoreRange.
  destruct (Rlt_dec _ _) as [Hsmall|Hsmall].
  - lra.
  - destruct (Rgt_dec _ _) as [Hbig|Hbig].
    + split.
      * eapply Rle_trans; [|apply Rmax_l]. lra.
      * apply Rmax_lub; lra.
    + lra.
Qed.

Lemma orientationScore_in_range (person : PersonMask) (imageWidth imageHeight : R) :
  inScoreRange (calculateOrientationScore person imageWidth imageHeight).
Proof.
  unfold calculateOrientationScore. destruct (bbox person) as [x y w h]. cbv zeta.
  unfold inScoreRange, Rmin.
  destruct (Rgt_dec _ _); destruct (Rgt_dec _ _); destruct (Rlt_dec _ _); simpl;
    destruct (Rle_dec _ _); lra.
Qed.

Lemma clarityScore_in_range (person : PersonMask) :
  (0 <= confidence person <= 1)%R ->
  inScoreRange (calculateClarityScore person).
Proof.
  intros Hc. unfold calculateClarityScore, inScoreRange, Rmin. cbv zeta.
  destruct (Rle_dec _ _); lra.
Qed.



(** ** Separator *)

Lemma insertByScore_perm (a : ForegroundScore) (l : list ForegroundScore) :
  Permutation (insertByScore a l) (a :: l).
Proof.
  induction l as [|b rest IH]; simpl.
  - apply Permutation_refl.
  - destruct (Rle_dec _ _).
    + apply Permutation_refl.
    + eapply Permutation_trans; [apply perm_skip, IH | apply perm_swap].
Qed.

Lemma sortByScoreDesc_perm (l : list ForegroundScore) :
  Permutation (sortByScoreDesc l) l.
Proof.
  induction l as [|a rest IH]; simpl.
  - apply perm_nil.
  - eapply Permutation_trans; [apply insertByScore_perm | apply perm_skip, IH].
Qed.

Lemma includes_In (ids : list string) (x : string) :
  includes ids x = true <-> In x ids.
Proof.
  unfold includes. rewrite existsb_exists. split.
  - intros (y & Hy & Heq). apply String.eqb_eq in Heq. now subst.
  - intros H. exists x. split; [exact H | apply String.eqb_refl].
Qed.

Lemma filter_split_perm {A} (f : A -> bool) (l : list A) :
  Permutation (filter f l ++ filter (fun x => negb (f x)) l) l.
Proof.
  induction l as [|a rest IH]; simpl.
  - apply perm_nil.
  - destruct (f a); simpl.
    + now apply perm_skip.
    + apply Permutation_sym. eapply Permutation_trans;
        [apply perm_skip, Permutation_sym, IH | apply Permutation_middle].
Qed.

Lemma filter_split_disjoint {A} (f : A -> bool) (l : list A) (x : A) :
  In x (filter f l) -> In x (filter (fun x => negb (f x)) l) -> False.
Proof.
  intros H1 H2. apply filter_In in H1. apply filter_In in H2.
  destruct H1 as [_ H1]. destruct H2 as [_ H2]. rewrite H1 in H2. discriminate.
Qed.

Lemma NoDup_map_filter {A B} (g : A -> B) (f : A -> bool) (l : list A) :
  NoDup (map g l) -> NoDup (map g (filter f l)).
Proof.
  induction l as [|a rest IH]; simpl; intros H.
  - constructor.
  - inversion H as [|? ? Hnotin Hrest]; subst. destruct (f a); simpl.
    + constructor; [|now apply IH].
      intros Hin. apply Hnotin. apply in_map_iff in Hin.
      destruct Hin as (y & Hy & Hin). apply filter_In in Hin.
      apply in_map_iff. exists y. tauto.
    + now apply IH.
Qed.

Lemma NoDup_firstn {A} (n : nat) (l : list A) : NoDup l -> NoDup (firstn n l).
Proof.
  intros H. rewrite <- (firstn_skipn n l) in H.
  now apply NoDup_app_remove_r in H.
Qed.

Lemma incl_firstn {A} (n : nat) (l : list A) : incl (firstn n l) l.
Proof.
  intros x Hx. rewrite <- (firstn_skipn n l). apply in_or_app. now left.
Qed.

(** Keeping the masks whose id is in a duplicate-free selection of the
    masks' ids keeps as many masks as ids selected. *)
Lemma selected_count (masks : list PersonMask) (selected : list string) :
  NoDup (map id masks) -> NoDup selected -> incl selected (map id masks) ->
  List.length (filter (fun mask => includes selected (id mask)) masks)
  = List.length selected.
Proof.
  intros Hids Hsel Hincl.
  rewrite <- (length_map id (filter _ masks)).
  apply Permutation_length, NoDup_Permutation.
  - now apply NoDup_map_filter.
  - exact Hsel.
  - intros x. split.
    + intros Hin. apply in_map_iff in Hin. destruct Hin as (m & Hm & Hin).
      apply filter_In in Hin. destruct Hin as [_ Hin].
      apply includes_In in Hin. now subst.
    + intros Hin. pose proof (Hincl x Hin) as Hx. apply in_map_iff in Hx.
      destruct Hx as (m & Hm & Hmin). apply in_map_iff. exists m. split; [exact Hm|].
      apply filter_In. split; [exact Hmin|]. apply includes_In. now subst.
Qed.

Lemma separate_unfold (detectionResult : DetectionResult) (targetForegroundCount : Q) :
  masks detectionResult <> [] ->
  separateForegroundBackground detectionResult targetForegroundCount =
  let foregroundIds := foregroundIdsOf detectionResult targetForegroundCount in
  let fg := filter (fun mask => includes foregroundIds (id mask)) (masks detectionResult) in
  let bg := filter (fun mask => negb (includes foregroundIds (id mask))) (masks detectionResult) in
  {| foregroundMasks := fg; backgroundMasks := bg;
     foregroundMask := combineMasks fg; backgroundMask := combineMasks bg |}.
Proof.
  intros Hne. unfold separateForegroundBackground, foregroundIdsOf.
  destruct (masks detectionResult) as [|m rest]; [congruence | reflexivity].
Qed.

Lemma sorted_ids_perm (detectionResult : DetectionResult) :
  Permutation
    (map personId
       (sortByScoreDesc
          (map (fun mask => calculateForegroundScore mask
                              (imageWidth detectionResult) (imageHeight detectionResult))
               (masks detectionResult))))
    (map id (masks detectionResult)).
Proof.
  eapply Permutation_trans; [apply Permutation_map, sortByScoreDesc_perm|].
  rewrite map_map. simpl. apply Permutation_refl.
Qed.

Lemma sorted_length (detectionResult : DetectionResult) :
  List.length
    (sortByScoreDesc
       (map (fun mask => calculateForegroundScore mask
                           (imageWidth detectionResult) (imageHeight detectionResult))
            (masks detectionResult)))
  = List.length (masks detectionResult).
Proof.
  rewrite (Permutation_length (sortByScoreDesc_perm _)). apply length_map.
Qed.

Lemma foregroundIds_NoDup (detectionResult : DetectionResult) (targetForegroundCount : Q) :
  NoDup (map id (masks detectionResult)) ->
  NoDup (foregroundIdsOf detectionResult targetForegroundCount).
Proof.
  intros Hids. unfold foregroundIdsOf, slice0. cbv zeta.
  rewrite <- firstn_map. apply NoDup_firstn.
  eapply Permutation_NoDup; [apply Permutation_sym, sorted_ids_perm | exact Hids].
Qed.

Lemma foregroundIds_incl (detectionResult : DetectionResult) (targetForegroundCount : Q) :
  incl (foregroundIdsOf detectionResult targetForegroundCount)
       (map id (masks detectionResult)).
Proof.
  unfold foregroundIdsOf, slice0. cbv zeta. rewrite <- firstn_map.
  intros x Hx. apply incl_firstn in Hx.
  eapply Permutation_in; [apply sorted_ids_perm | exact Hx].
Qed.

(** Truncation does not depend on how the number is written, and leaves an
    integer as it is. *)
Lemma toIntegerOrInfinity_comp (x y : Q) :
  (x == y)%Q -> toIntegerOrInfinity x = toIntegerOrInfinity y.
Proof.
  intros H. unfold toIntegerOrInfinity.
  rewrite (Qleb_comp 0%Q 0%Q (Qeq_refl 0%Q) x y H), (Qfloor_comp x y H), (Qceiling_comp x y H).
  reflexivity.
Qed.

Lemma toIntegerOrInfinity_integer (z : Z) : toIntegerOrInfinity (inject_Z z) = z.
Proof.
  unfold toIntegerOrInfinity. rewrite Qfloor_Z, Qceiling_Z.
  now destruct (Qle_bool 0 (inject_Z z)).
Qed.

(** Where [slice] ends when [Math.min] received an integer count. *)
Lemma sliceEnd_integer (targetForegroundCount : Q) (count n : Z) :
  (targetForegroundCount == inject_Z count)%Q ->
  toIntegerOrInfinity (Qmin targetForegroundCount (inject_Z n)) = Z.min count n.
Proof.
  intros Hcount. destruct (Z.le_ge_cases count n) as [Hle | Hge].
  - rewrite (toIntegerOrInfinity_comp _ (inject_Z count)).
    + rewrite toIntegerOrInfinity_integer. lia.
    + rewrite Q.min_l; [exact Hcount |]. rewrite Hcount. now rewrite <- Zle_Qle.
  - rewrite (toIntegerOrInfinity_comp _ (inject_Z n)).
    + rewrite toIntegerOrInfinity_integer. lia.
    + apply Q.min_r. rewrite Hcount. rewrite <- Zle_Qle. lia.
Qed.

(** How many ids [slice] selects, for any target count (negative or
    fractional too). *)
Lemma foregroundIds_length (detectionResult : DetectionResult) (targetForegroundCount : Q) :
  let n := lengthZ (masks detectionResult) in
  let relativeEnd := toIntegerOrInfinity (Qmin targetForegroundCount (inject_Z n)) in
  List.length (foregroundIdsOf detectionResult targetForegroundCount)
  = Z.to_nat (if (relativeEnd <? 0)%Z then Z.max (n + relativeEnd) 0
              else Z.min relativeEnd n).
Proof.
  unfold foregroundIdsOf, slice0, lengthZ. cbv zeta.
  rewrite length_map, length_firstn, !sorted_length.
  set (n := List.length (masks detectionResult)).
  destruct (Z.ltb_spec
              (toIntegerOrInfinity (Qmin targetForegroundCount (inject_Z (Z.of_nat n)))) 0);
    lia.
Qed.

(** The foreground size, for masks with pairwise-distinct ids. *)
Lemma foreground_length (detectionResult : DetectionResult) (targetForegroundCount : Q) :
  masks detectionResult <> [] ->
  NoDup (map id (masks detectionResult)) ->
  let n := lengthZ (masks detectionResult) in
  let relativeEnd := toIntegerOrInfinity (Qmin targetForegroundCount (inject_Z n)) in
  lengthZ (foregroundMasks (separateForegroundBackground detectionResult targetForegroundCount))
  = (if (relativeEnd <? 0)%Z then Z.max (n + relativeEnd) 0
     else Z.min relativeEnd n).
Proof.
  intros Hne Hids n relativeEnd.
  rewrite separate_unfold by exact Hne. cbv zeta. simpl. unfold lengthZ.
  rewrite selected_count;
    [ | exact Hids | now apply foregroundIds_NoDup | apply foregroundIds_incl ].
  rewrite foregroundIds_length. fold n. fold relativeEnd.
  apply Z2Nat.id. unfold n, lengthZ.
  destruct (Z.ltb_spec relativeEnd 0); lia.
Qed.




Lemma separate_empty (detectionResult : DetectionResult) (targetForegroundCount : Q) :
  masks detectionResult = [] ->
  separateForegroundBackground detectionResult targetForegroundCount
  = {| foregroundMasks := []; backgroundMasks := [];
       foregroundMask := ""; backgroundMask := "" |}.
Proof.
  intros H. unfold separateForegroundBackground. now rewrite H.
Qed.

Lemma filter_none {A} (l : list A) : filter (fun _ => false) l = [].
Proof. induction l; simpl; auto. Qed.

Lemma filter_all {A} (l : list A) : filter (fun _ => true) l = l.
Proof. induction l; simpl; congruence. Qed.

Lemma foregroundIds_zero (detectionResult : DetectionResult) (targetForegroundCount : Q) :
  (targetForegroundCount == 0)%Q ->
  foregroundIdsOf detectionResult targetForegroundCount = [].
Proof.
  intros Hzero. unfold foregroundIdsOf, slice0. cbv zeta.
  rewrite (sliceEnd_integer targetForegroundCount 0 _ Hzero).
  replace (Z.min 0 _) with 0%Z by lia. simpl.
  replace (Z.to_nat (Z.min 0 _)) with O by lia. reflexivity.
Qed.

(** A single detected person is kept whenever at least one person is to be
    kept: nothing is left to remove. *)
Lemma separate_single (detectionResult : DetectionResult) (person : PersonMask)
    (targetForegroundCount : Q) :
  masks detectionResult = [person] ->
  (1 <= targetForegroundCount)%Q ->
  foregroundMasks (separateForegroundBackground detectionResult targetForegroundCount) = [person]
  /\ backgroundMasks (separateForegroundBackground detectionResult targetForegroundCount) = [].
Proof.
  intros Hm Htfc.
  rewrite separate_unfold by (rewrite Hm; discriminate).
  unfold foregroundIdsOf, slice0. cbv zeta. rewrite Hm. simpl.
  rewrite (toIntegerOrInfinity_comp _ (inject_Z 1)) by (apply Q.min_r; exact Htfc).
  rewrite toIntegerOrInfinity_integer. simpl.
  unfold includes. simpl. rewrite String.eqb_refl. simpl. split; reflexivity.
Qed.

(** C2 (amended). For masks with pairwise-distinct ids and every
    targetForegroundCount, [separateForegroundBackground] returns foreground
    and background masks that are disjoint and together are the input masks;
    for every targetForegroundCount that is a non-negative integer the
    foreground holds exactly min(targetForegroundCount, number of masks)
    masks; targetForegroundCount = 0 gives an empty foreground and the whole
    input as background; an empty input gives empty partitions and empty
    merged mask strings. *)
Theorem separate_partition (detectionResult : DetectionResult) (targetForegroundCount : Q) :
  NoDup (map id (masks detectionResult)) ->
  let r := separateForegroundBackground detectionResult targetForegroundCount in
  (forall m, In m (foregroundMasks r) -> In m (backgroundMasks r) -> False) /\
  Permutation (foregroundMasks r ++ backgroundMasks r) (masks detectionResult) /\
  (forall m, In m (masks detectionResult) <->
             In m (foregroundMasks r) \/ In m (backgroundMasks r)) /\
  (forall count : Z,
     (0 <= count)%Z -> (targetForegroundCount == inject_Z count)%Q ->
     lengthZ (foregroundMasks r) = Z.min count (lengthZ (masks detectionResult))) /\
  ((targetForegroundCount == 0)%Q ->
   foregroundMasks r = [] /\ backgroundMasks r = masks detectionResult) /\
  (masks detectionResult = [] ->
   foregroundMasks r = [] /\ backgroundMasks r = [] /\
   foregroundMask r = "" /\ backgroundMask r = "").
Proof.
  intros Hids r.
  destruct (masks detectionResult) as [|m0 rest] eqn:Hm.
  - subst r. rewrite separate_empty by exact Hm. simpl.
    repeat split; auto; try tauto.
    intros count Hpos _. unfold lengthZ; simpl; lia.
  - assert (Hne : masks detectionResult <> []) by (rewrite Hm; discriminate).
    assert (Hperm : Permutation (foregroundMasks r ++ backgroundMasks r) (m0 :: rest)).
    { subst r. rewrite separate_unfold by exact Hne. cbv zeta. simpl.
      rewrite <- Hm. apply filter_split_perm. }
    split; [|split; [exact Hperm|split; [|split; [|split]]]].
    + subst r. rewrite separate_unfold by exact Hne. cbv zeta. simpl.
      intros m. apply filter_split_disjoint.
    + intros m. rewrite <- in_app_iff. split; intros Hin.
      * eapply Permutation_in; [apply Permutation_sym, Hperm | exact Hin].
      * eapply Permutation_in; [apply Hperm | exact Hin].
    + intros count Hpos Hcount. subst r. rewrite <- Hm in Hids.
      rewrite foreground_length by assumption. cbv zeta.
      rewrite (sliceEnd_integer targetForegroundCount count _ Hcount).
      rewrite <- Hm.
      destruct (Z.ltb_spec (Z.min count (lengthZ (masks detectionResult))) 0);
        unfold lengthZ in *; lia.
    + intros Hzero. subst r. rewrite separate_unfold by exact Hne. cbv zeta. simpl.
      rewrite foregroundIds_zero by exact Hzero. unfold includes. simpl.
      rewrite filter_none, filter_all. now rewrite Hm.
    + discriminate.
Qed.

Lemma separate_partition_witness :
  lengthZ (foregroundMasks (separateForegroundBackground (Examples.scenarioB "m") 1)) = 1%Z.
Proof.
  assert (Hids : NoDup (map id (masks (Examples.scenarioB "m")))).
  { simpl. repeat constructor; simpl; intuition discriminate. }
  pose proof (separate_partition (Examples.scenarioB "m") 1 Hids) as (_ & _ & _ & Hlen & _).
  rewrite (Hlen 1%Z) by (reflexivity || lia). reflexivity.
Defined.

(** C2, the claim as stated fails for a targetForegroundCount that is
    negative or not an integer.  With two masks and targetForegroundCount =
    -1, [slice(0, -1)] keeps one score, so one mask is foreground, while
    min(-1, 2) = -1; with targetForegroundCount = 1.5, [slice(0, 1.5)] keeps
    one score as well, while min(1.5, 2) = 1.5. *)
Lemma separate_count_counterexample :
  NoDup (map id (masks (Examples.scenarioB "m"))) /\
  lengthZ (foregroundMasks (separateForegroundBackground (Examples.scenarioB "m") (-1))) = 1%Z /\
  ~ (inject_Z 1 == Qmin (-1) (inject_Z (lengthZ (masks (Examples.scenarioB "m")))))%Q /\
  lengthZ (foregroundMasks (separateForegroundBackground (Examples.scenarioB "m") (3 # 2))) = 1%Z /\
  ~ (inject_Z 1 == Qmin (3 # 2) (inject_Z (lengthZ (masks (Examples.scenarioB "m")))))%Q.
Proof.
  assert (Hids : NoDup (map id (masks (Examples.scenarioB "m")))).
  { simpl. repeat constructor; simpl; intuition discriminate. }
  split; [exact Hids |].
  split; [rewrite foreground_length; [reflexivity | discriminate | exact Hids] |].
  split; [intros H; vm_compute in H; discriminate |].
  split; [rewrite foreground_length; [reflexivity | discriminate | exact Hids] |].
  intros H; vm_compute in H; discriminate.
Qed.

(** ** Scenario B: a centred person against a small one *)

Lemma sqrt_zero_sum : sqrt (0 ^ 2 + 0 ^ 2) = 0%R.
Proof.
  replace (0 ^ 2 + 0 ^ 2)%R with 0%R by ring. apply sqrt_0.
Qed.

Lemma centre_distance_zero (cx cy imageWidth imageHeight : R) :
  cx = (imageWidth / 2)%R -> cy = (imageHeight / 2)%R ->
  (sqrt ((cx - imageWidth / 2) ^ 2 + (cy - imageHeight / 2) ^ 2)
   / sqrt ((imageWidth / 2) ^ 2 + (imageHeight / 2) ^ 2) = 0)%R.
Proof.
  intros -> ->.
  replace (imageWidth / 2 - imageWidth / 2)%R with 0%R by ring.
  replace (imageHeight / 2 - imageHeight / 2)%R with 0%R by ring.
  rewrite sqrt_zero_sum. unfold Rdiv. ring.
Qed.

Lemma Rmax_0_100 : Rmax 0 100 = 100%R.
Proof. apply Rmax_right. lra. Qed.

Section ScenarioB.

Variables (c k : PersonMask) (imageWidth imageHeight : R).
Hypothesis width_pos : (0 < imageWidth)%R.
Hypothesis height_pos : (0 < imageHeight)%R.
Hypothesis c_confidence : (0 <= confidence c)%R.
Hypothesis c_centred : centredInImage c imageWidth imageHeight.
Hypothesis c_share : coversShare c 0.2 imageWidth imageHeight.
Hypothesis k_corner : atImageCorner k imageWidth imageHeight.
Hypothesis k_share : coversShare k 0.02 imageWidth imageHeight.

Lemma centred_bbox_center :
  (bx (bbox c) + bw (bbox c) / 2 = imageWidth / 2)%R /\
  (by_ (bbox c) + bh (bbox c) / 2 = imageHeight / 2)%R.
Proof.
  unfold centredInImage, bboxCenter in c_centred.
  injection c_centred as Hx Hy. now split.
Qed.

Lemma centred_position : calculatePositionScore c imageWidth imageHeight = 100%R.
Proof.
  destruct centred_bbox_center as [Hx Hy].
  unfold calculatePositionScore. destruct (bbox c) as [x y w h]. simpl in Hx, Hy.
  cbv zeta. rewrite centre_distance_zero by assumption.
  replace (-3 * 0)%R with 0%R by ring. rewrite exp_0, Rmult_1_r. apply Rmax_0_100.
Qed.

Lemma share_ratio (p : PersonMask) (ratio : R) :
  coversShare p ratio imageWidth imageHeight ->
  (bw (bbox p) * bh (bbox p) / (imageWidth * imageHeight) = ratio)%R.
Proof.
  unfold coversShare. intros ->. field. split; lra.
Qed.

Lemma centred_size : calculateSizeScore c imageWidth imageHeight = 100%R.
Proof.
  pose proof (share_ratio c _ c_share) as Hr.
  unfold calculateSizeScore. destruct (bbox c) as [x y w h]. simpl in Hr. cbv zeta.
  rewrite Hr. destruct (Rlt_dec _ _); [lra|]. destruct (Rgt_dec _ _); [lra|]. reflexivity.
Qed.

Lemma centred_orientation : calculateOrientationScore c imageWidth imageHeight = 100%R.
Proof.
  destruct centred_bbox_center as [Hx Hy].
  unfold calculateOrientationScore. destruct (bbox c) as [x y w h]. simpl in Hx, Hy.
  cbv zeta. rewrite Hx, Hy.
  destruct (Rgt_dec _ _); [|lra]. destruct (Rgt_dec _ _); [|lra].
  destruct (Rlt_dec _ _); [|lra]. simpl. unfold Rmin. destruct (Rle_dec _ _); lra.
Qed.

(** Position, size and orientation are at 100, the clarity factor is at
    least 70 and the centrality factor is not negative. *)
Lemma centred_score : (77 <= score (calculateForegroundScore c imageWidth imageHeight))%R.
Proof.
  pose proof (centralityScore_in_range c imageWidth imageHeight) as [Hcentral _].
  assert (Hlow : (70 <= calculateClarityScore c)%R).
  { unfold calculateClarityScore, Rmin. cbv zeta. destruct (Rle_dec _ _); lra. }
  unfold calculateForegroundScore. cbv zeta. simpl.
  rewrite centred_position, centred_size, centred_orientation.
  unfold Weights.position, Weights.size, Weights.centrality, Weights.orientation,
    Weights.clarity.
  eapply Rle_trans; [|apply Rmax_r]. apply Rmin_glb; lra.
Qed.

Lemma small_size : calculateSizeScore k imageWidth imageHeight = 24%R.
Proof.
  pose proof (share_ratio k _ k_share) as Hr.
  unfold calculateSizeScore. destruct (bbox k) as [x y w h]. simpl in Hr. cbv zeta.
  rewrite Hr. destruct (Rlt_dec _ _); [|lra]. lra.
Qed.

(** A corner is as far from the image centre as a point can be counted:
    the normalised distance is 1 and the position factor 100 * exp(-3). *)
Lemma corner_position : (calculatePositionScore k imageWidth imageHeight <= 25)%R.
Proof.
  destruct k_corner as [Hx Hy]. unfold bboxCenter in Hx, Hy. cbn [fst snd] in Hx, Hy.
  pose proof (maxDistance_pos imageWidth imageHeight width_pos height_pos) as Hmax.
  unfold calculatePositionScore. destruct (bbox k) as [x y w h]. simpl in Hx, Hy.
  cbv zeta.
  replace ((x + w / 2 - imageWidth / 2) ^ 2 + (y + h / 2 - imageHeight / 2) ^ 2)%R
    with ((imageWidth / 2) ^ 2 + (imageHeight / 2) ^ 2)%R
    by (destruct Hx as [-> | ->]; destruct Hy as [-> | ->]; field).
  replace (sqrt ((imageWidth / 2) ^ 2 + (imageHeight / 2) ^ 2)
           / sqrt ((imageWidth / 2) ^ 2 + (imageHeight / 2) ^ 2))%R
    with 1%R by (field; lra).
  replace (-3 * 1)%R with (Ropp 3) by lra.
  assert (Hexp : (exp (Ropp 3) < / 4)%R).
  { rewrite exp_Ropp. apply Rinv_lt_contravar.
    - apply Rmult_lt_0_compat; [lra | apply exp_pos].
    - pose proof (exp_ineq1 3 ltac:(lra)). lra. }
  apply Rmax_lub; lra.
Qed.

Lemma small_score : (score (calculateForegroundScore k imageWidth imageHeight) <= 58.5)%R.
Proof.
  pose proof corner_position as Hp.
  pose proof (centralityScore_in_range k imageWidth imageHeight) as [_ Hc].
  pose proof (orientationScore_in_range k imageWidth imageHeight) as [_ Ho].
  assert (Hcl : (calculateClarityScore k <= 100)%R) by apply Rmin_l.
  unfold calculateForegroundScore. cbv zeta. simpl. rewrite small_size.
  unfold Weights.position, Weights.size, Weights.centrality, Weights.orientation,
    Weights.clarity.
  apply Rmax_lub; [lra|]. eapply Rle_trans; [apply Rmin_r|]. lra.
Qed.

Lemma centred_beats_small :
  (score (calculateForegroundScore k imageWidth imageHeight)
   < score (calculateForegroundScore c imageWidth imageHeight))%R.
Proof.
  pose proof centred_score. pose proof small_score. lra.
Qed.

End ScenarioB.

Lemma sort_pair (a b : ForegroundScore) :
  (score b < score a)%R ->
  sortByScoreDesc [a; b] = [a; b] /\ sortByScoreDesc [b; a] = [a; b].
Proof.
  intros Hlt. unfold sortByScoreDesc. simpl.
  destruct (Rle_dec (score b - score a) 0); [|lra].
  destruct (Rle_dec (score a - score b) 0); [lra|]. split; reflexivity.
Qed.

(** With two masks of distinct ids and one to keep, the higher score is the
    foreground and the other one the background, in either detection order. *)
Lemma separate_pair (detectionResult : DetectionResult) (c k : PersonMask) :
  (masks detectionResult = [c; k] \/ masks detectionResult = [k; c]) ->
  id c <> id k ->
  (score (calculateForegroundScore k (imageWidth detectionResult) (imageHeight detectionResult))
   < score (calculateForegroundScore c (imageWidth detectionResult)
              (imageHeight detectionResult)))%R ->
  foregroundMasks (separateForegroundBackground detectionResult 1) = [c] /\
  backgroundMasks (separateForegroundBackground detectionResult 1) = [k].
Proof.
  intros Hm Hid Hlt.
  destruct (sort_pair _ _ Hlt) as [Hck Hkc].
  assert (Hck' : (id c =? id k) = false) by now apply String.eqb_neq.
  assert (Hkc' : (id k =? id c) = false) by (apply String.eqb_neq; congruence).
  rewrite separate_unfold by (destruct Hm as [-> | ->]; discriminate).
  unfold foregroundIdsOf, slice0. cbv zeta.
  destruct Hm as [-> | ->]; cbn [map]; [rewrite Hck | rewrite Hkc]; simpl;
    unfold includes; simpl; rewrite !String.eqb_refl, ?Hck', ?Hkc'; simpl;
    split; reflexivity.
Qed.

Lemma scenarioB_partition (detectionResult : DetectionResult) (c k : PersonMask) :
  (0 < imageWidth detectionResult)%R -> (0 < imageHeight detectionResult)%R ->
  (masks detectionResult = [c; k] \/ masks detectionResult = [k; c]) ->
  id c <> id k ->
  (0 <= confidence c)%R ->
  centredInImage c (imageWidth detectionResult) (imageHeight detectionResult) ->
  coversShare c 0.2 (imageWidth detectionResult) (imageHeight detectionResult) ->
  atImageCorner k (imageWidth detectionResult) (imageHeight detectionResult) ->
  coversShare k 0.02 (imageWidth detectionResult) (imageHeight detectionResult) ->
  foregroundMasks (separateForegroundBackground detectionResult 1) = [c] /\
  backgroundMasks (separateForegroundBackground detectionResult 1) = [k].
Proof.
  intros HW HH Hm Hid Hconf Hcentred Hc Hcorner Hk.
  apply separate_pair; [exact Hm | exact Hid |].
  now apply centred_beats_small.
Qed.

Lemma examples_scenarioB_premises (maskRef : string) :
  id Examples.centredPerson <> id (Examples.cornerPerson maskRef) /\
  (0 <= confidence Examples.centredPerson)%R /\
  centredInImage Examples.centredPerson 1024 1024 /\
  coversShare Examples.centredPerson 0.2 1024 1024 /\
  atImageCorner (Examples.cornerPerson maskRef) 1024 1024 /\
  coversShare (Examples.cornerPerson maskRef) 0.02 1024 1024.
Proof.
  unfold centredInImage, atImageCorner, coversShare, bboxCenter. simpl.
  repeat split; try discriminate; try lra; try (f_equal; lra); left; lra.
Qed.






(** ** Effects: which events a computation adds *)

Section OnlyRuns.

Context {allowed : Service -> Prop}.

Lemma onlyRuns_ret {A} (a : A) : onlyRuns allowed (ret a).
Proof. intros w. exists []. simpl. rewrite app_nil_r. auto. Qed.

Lemma onlyRuns_throw {A} (e : Thrown) : onlyRuns allowed (@throw A e).
Proof. intros w. exists []. simpl. rewrite app_nil_r. auto. Qed.

Lemma onlyRuns_now (env : Services) : onlyRuns allowed (now env).
Proof. intros w. exists []. simpl. rewrite app_nil_r. auto. Qed.

Lemma onlyRuns_bind {A B} (m : M A) (k : A -> M B) :
  onlyRuns allowed m -> (forall a, onlyRuns allowed (k a)) ->
  onlyRuns allowed (bind m k).
Proof.
  intros Hm Hk w. unfold bind. destruct (Hm w) as (r1 & E1 & F1).
  destruct (m w) as [[a|e] w1]; simpl in E1; subst w1.
  - destruct (Hk a (w ++ map EvRun r1)%list) as (r2 & E2 & F2).
    exists (r1 ++ r2)%list. rewrite E2, map_app, app_assoc. split; [reflexivity|].
    apply Forall_app. now split.
  - exists r1. now split.
Qed.

Lemma onlyRuns_try_catch {A} (m : M A) (handler : Thrown -> M A) :
  onlyRuns allowed m -> (forall e, onlyRuns allowed (handler e)) ->
  onlyRuns allowed (try_catch m handler).
Proof.
  intros Hm Hh w. unfold try_catch. destruct (Hm w) as (r1 & E1 & F1).
  destruct (m w) as [[a|e] w1]; simpl in E1; subst w1.
  - exists r1. now split.
  - destruct (Hh e (w ++ map EvRun r1)%list) as (r2 & E2 & F2).
    exists (r1 ++ r2)%list. rewrite E2, map_app, app_assoc. split; [reflexivity|].
    apply Forall_app. now split.
Qed.

Lemma onlyRuns_await_run {A} (s : Service) (answer : World -> Reply A) :
  allowed s -> onlyRuns allowed (await_run s answer).
Proof.
  intros Hs w. exists [s]. unfold await_run.
  destruct (answer w); simpl; split; auto.
Qed.

End OnlyRuns.

Lemma onlyRuns_weaken {A} (P Q : Service -> Prop) (m : M A) :
  (forall s, P s -> Q s) -> onlyRuns P m -> onlyRuns Q m.
Proof.
  intros HPQ Hm w. destruct (Hm w) as (runs & E & F). exists runs. split; [exact E|].
  eapply Forall_impl; eauto.
Qed.

Ltac runs_step :=
  first [ apply onlyRuns_ret | apply onlyRuns_throw | apply onlyRuns_now
        | apply onlyRuns_bind; [|intros ?]
        | apply onlyRuns_try_catch; [|intros ?]
        | apply onlyRuns_await_run; reflexivity ].

Section DetectionRuns.

Variable env : Services.

Lemma detectPeopleInImage_runs (imageUrl : string) :
  onlyRuns isDetectionService (detectPeopleInImage env imageUrl).
Proof.
  unfold detectPeopleInImage. repeat runs_step.
  destruct a; runs_step.
Qed.

Lemma refineBoxes_runs (imageUrl : string) (yoloOutput : list RawBox) :
  forall i masks, onlyRuns isDetectionService (refineBoxes env imageUrl i yoloOutput masks).
Proof.
  induction yoloOutput as [|detection rest IH]; intros i masks; simpl.
  - runs_step.
  - repeat runs_step. destruct a as [[[m|]]|]; try apply IH.
    destruct (m =? ""); apply IH.
Qed.

Lemma detectPeopleWithYOLO_runs (imageUrl : string) :
  onlyRuns isDetectionService (detectPeopleWithYOLO env imageUrl).
Proof.
  unfold detectPeopleWithYOLO. repeat runs_step.
  destruct a; [|runs_step]. runs_step; [apply refineBoxes_runs | runs_step].
Qed.

Lemma detectionStage_runs (imageUrl : string) (fallbackToYOLO : bool) :
  onlyRuns isDetectionService (detectionStage env imageUrl fallbackToYOLO).
Proof.
  unfold detectionStage. runs_step; [apply detectPeopleInImage_runs|].
  destruct fallbackToYOLO; [|runs_step].
  runs_step; [apply detectPeopleWithYOLO_runs | runs_step].
Qed.

End DetectionRuns.

Section PipelineRuns.

Variable env : Services.

Lemma inpaintWith_runs (s : Service) (label modelUsed imageUrl maskUrl prompt : string) :
  onlyRuns anyService (inpaintWith env s label modelUsed imageUrl maskUrl prompt).
Proof.
  unfold inpaintWith. runs_step; [|runs_step]. runs_step; [runs_step|].
  runs_step; [apply onlyRuns_await_run; exact I|].
  destruct a0 as [[|resultUrl rest]|]; repeat runs_step.
Qed.

Lemma tryPreferred_runs (imageUrl maskUrl prompt : string) (preferredModel : option string) :
  onlyRuns anyService (tryPreferred env imageUrl maskUrl prompt preferredModel).
Proof.
  unfold tryPreferred. destruct preferredModel as [name|]; [|runs_step].
  destruct (name =? ""); [runs_step|].
  runs_step; [|runs_step].
  repeat match goal with
         | |- onlyRuns _ (if ?b then _ else _) => destruct b
         end;
    try (runs_step; [apply inpaintWith_runs | runs_step]); runs_step.
Qed.

Lemma tryModels_runs (imageUrl maskUrl prompt : string)
    (ms : list (string * (string -> string -> string -> M InpaintingResult))) :
  Forall (fun model => forall i m p, onlyRuns anyService (snd model i m p)) ms ->
  onlyRuns anyService (tryModels imageUrl maskUrl prompt ms).
Proof.
  induction 1 as [|model rest Hmodel Hrest IH]; simpl.
  - runs_step.
  - runs_step.
    + runs_step; [|runs_step]. runs_step; [apply Hmodel | runs_step].
    + destruct a; [runs_step | exact IH].
Qed.

Lemma smartInpainting_runs (imageUrl maskUrl prompt : string) (preferredModel : option string) :
  onlyRuns anyService (smartInpainting env imageUrl maskUrl prompt preferredModel).
Proof.
  unfold smartInpainting. runs_step; [apply tryPreferred_runs|].
  destruct a; [runs_step|]. runs_step.
  - apply tryModels_runs. unfold models.
    repeat constructor; intros; apply inpaintWith_runs.
  - destruct a; runs_step.
Qed.

(** The pipeline only adds remote calls to the world. *)
Lemma autoRemoveBackgroundPeople_runs (imageUrl : string) (options : PersonRemovalOptions) :
  onlyRuns anyService (autoRemoveBackgroundPeople env imageUrl options).
Proof.
  unfold autoRemoveBackgroundPeople. runs_step; [runs_step|].
  cbv zeta. runs_step; [|repeat runs_step].
  runs_step.
  - eapply onlyRuns_weaken; [|apply detectionStage_runs]. intros; exact I.
  - destruct (masks a0); [repeat runs_step|].
    destruct (backgroundMasks _); [repeat runs_step|].
    destruct (_ =? ""); [runs_step|].
    runs_step; [apply smartInpainting_runs|].
    simpl. repeat runs_step.
Qed.

End PipelineRuns.

(** ** The pipeline *)

Section PipelineProperties.

Variable env : Services.

(** The result of the short circuit: detection found people and the
    separator left none to remove. *)
Lemma pipeline_no_background (imageUrl : string) (options : PersonRemovalOptions)
    (w w1 : World) (detectionResult : DetectionResult) :
  detectionStage env imageUrl (orDefault (fallbackToYOLO options) true) w
  = (Returns detectionResult, w1) ->
  masks detectionResult <> [] ->
  backgroundMasks
    (separateForegroundBackground detectionResult
       (orDefault (targetForegroundCount options) 1%Q)) = [] ->
  autoRemoveBackgroundPeople env imageUrl options w
  = (Returns {| success := true;
                resultUrl := Some imageUrl;
                processingTime := (Date_now env w1 - Date_now env w)%Z;
                details :=
                  {| peopleDetected := lengthZ (masks detectionResult);
                     foregroundPeople :=
                       lengthZ (foregroundMasks
                                  (separateForegroundBackground detectionResult
                                     (orDefault (targetForegroundCount options) 1%Q)));
                     backgroundPeople := 0;
                     modelUsed := "SAM-2/YOLO";
                     inpaintingModel := "none" |};
                error := None |}, w1).
Proof.
  intros Hdet Hne Hbg.
  unfold autoRemoveBackgroundPeople, bind, try_catch, now. cbv zeta.
  rewrite Hdet. destruct (masks detectionResult) as [|m rest] eqn:Hm; [congruence|].
  rewrite Hbg. reflexivity.
Qed.

(** C1. When detection succeeds with at least one mask and the separator
    leaves no background person -- in particular when exactly one person is
    detected and targetForegroundCount >= 1 -- [autoRemoveBackgroundPeople]
    returns a result with success = true, resultUrl = the input imageUrl and
    details.inpaintingModel = "none", and the invocation calls no inpainting
    back-end: its only remote calls are those of the detection stage. *)
Theorem pipeline_short_circuit (imageUrl : string) (options : PersonRemovalOptions)
    (w w1 : World) (detectionResult : DetectionResult) :
  detectionStage env imageUrl (orDefault (fallbackToYOLO options) true) w
  = (Returns detectionResult, w1) ->
  masks detectionResult <> [] ->
  (backgroundMasks
     (separateForegroundBackground detectionResult
        (orDefault (targetForegroundCount options) 1%Q)) = []
   \/ ((exists person, masks detectionResult = [person])
       /\ (1 <= orDefault (targetForegroundCount options) 1)%Q)) ->
  exists result,
    autoRemoveBackgroundPeople env imageUrl options w = (Returns result, w1) /\
    success result = true /\
    resultUrl result = Some imageUrl /\
    inpaintingModel (details result) = "none" /\
    exists runs, w1 = (w ++ map EvRun runs)%list /\
                 Forall (fun s => isInpaintingService s = false) runs.
Proof.
  intros Hdet Hne Hbg.
  assert (Hbg' : backgroundMasks
                   (separateForegroundBackground detectionResult
                      (orDefault (targetForegroundCount options) 1%Q)) = []).
  { destruct Hbg as [H|[[person Hp] Htfc]]; [exact H|].
    now apply (separate_single detectionResult person). }
  rewrite (pipeline_no_background imageUrl options w w1 detectionResult Hdet Hne Hbg').
  eexists. split; [reflexivity|]. simpl. repeat split.
  destruct (detectionStage_runs env imageUrl
              (orDefault (fallbackToYOLO options) true) w) as (runs & E & F).
  rewrite Hdet in E. simpl in E. exists runs. now split.
Qed.

End PipelineProperties.

(** ** Inpainting model selector *)

Section SelectorProperties.

Variable env : Services.

(** A back-end makes exactly one remote call, to its own model. *)
Lemma inpaintWith_world (s : Service) (label modelUsed imageUrl maskUrl prompt : string)
    (w : World) :
  snd (inpaintWith env s label modelUsed imageUrl maskUrl prompt w) = (w ++ [EvRun s])%list.
Proof.
  unfold inpaintWith, try_catch, bind, now, await_run, throw, ret.
  destruct (run_inpainting env s w imageUrl maskUrl prompt) as [e|[[|u rest]|]]; reflexivity.
Qed.

Lemma inpaintWith_fails (s : Service) (label modelUsed imageUrl maskUrl prompt : string)
    (w : World) :
  replyFails (run_inpainting env s w imageUrl maskUrl prompt) ->
  exists e, inpaintWith env s label modelUsed imageUrl maskUrl prompt w
            = (Throw e, (w ++ [EvRun s])%list).
Proof.
  unfold inpaintWith, try_catch, bind, now, await_run, throw, ret, replyFails.
  destruct (run_inpainting env s w imageUrl maskUrl prompt) as [e|[[|u rest]|]];
    intros H; try contradiction; eexists; reflexivity.
Qed.

Lemma tryModels_firstSuccess (imageUrl maskUrl prompt : string)
    (ms : list (string * (string -> string -> string -> M InpaintingResult))) (w : World) :
  bind (tryModels imageUrl maskUrl prompt ms)
       (fun listed => match listed with
                      | Some r => ret r
                      | None => throw (ErrorObj "All inpainting models failed")
                      end) w
  = firstSuccess imageUrl maskUrl prompt ms w.
Proof.
  revert w. induction ms as [|model rest IH]; intros w; simpl.
  - reflexivity.
  - unfold bind, try_catch in *. unfold ret at 1 2.
    destruct (snd model imageUrl maskUrl prompt w) as [[r|e] w1]; simpl.
    + reflexivity.
    + apply IH.
Qed.

Lemma smartInpainting_split (imageUrl maskUrl prompt : string)
    (preferredModel : option string) (w : World) :
  smartInpainting env imageUrl maskUrl prompt preferredModel w
  = match tryPreferred env imageUrl maskUrl prompt preferredModel w with
    | (Returns (Some r), w1) => (Returns r, w1)
    | (Returns None, w1) => firstSuccess imageUrl maskUrl prompt (models env) w1
    | (Throw e, w1) => (Throw e, w1)
    end.
Proof.
  unfold smartInpainting. unfold bind at 1.
  destruct (tryPreferred env imageUrl maskUrl prompt preferredModel w) as [[[r|]|e] w1].
  - reflexivity.
  - apply tryModels_firstSuccess.
  - reflexivity.
Qed.

(** What the preferred-model block does for a name of the [switch]. *)
Lemma tryPreferred_known (imageUrl maskUrl prompt name : string)
    (func : string -> string -> string -> M InpaintingResult) (w : World) :
  lookupModel env name = Some (name, func) ->
  tryPreferred env imageUrl maskUrl prompt (Some name) w
  = match func imageUrl maskUrl prompt w with
    | (Returns r, w1) => (Returns (Some r), w1)
    | (Throw _, w1) => (Returns None, w1)
    end.
Proof.
  unfold lookupModel, models. cbn [find fst].
  unfold tryPreferred.
  destruct ("stability" =? name) eqn:H1.
  { apply String.eqb_eq in H1. subst name. intros [= <-]. cbn [String.eqb Ascii.eqb Bool.eqb].
    unfold try_catch, bind, ret.
    destruct (inpaintWithStabilityAI env imageUrl maskUrl prompt w) as [[r|e] w1]; reflexivity. }
  destruct ("runwayml" =? name) eqn:H2.
  { apply String.eqb_eq in H2. subst name. intros [= <-]. cbn [String.eqb Ascii.eqb Bool.eqb].
    unfold try_catch, bind, ret.
    destruct (inpaintWithRunwayML env imageUrl maskUrl prompt w) as [[r|e] w1]; reflexivity. }
  destruct ("flux" =? name) eqn:H3.
  { apply String.eqb_eq in H3. subst name. intros [= <-]. cbn [String.eqb Ascii.eqb Bool.eqb].
    unfold try_catch, bind, ret.
    destruct (inpaintWithFLUX env imageUrl maskUrl prompt w) as [[r|e] w1]; reflexivity. }
  discriminate.
Qed.

(** For any other name, and for an absent or empty one, the block does nothing. *)
Lemma tryPreferred_unknown (imageUrl maskUrl prompt : string)
    (preferredModel : option string) (w : World) :
  match preferredModel with
  | Some name => lookupModel env name = None
  | None => True
  end ->
  tryPreferred env imageUrl maskUrl prompt preferredModel w = (Returns None, w).
Proof.
  destruct preferredModel as [name|]; [|reflexivity].
  unfold lookupModel, models. cbn [find fst].
  destruct ("stability" =? name) eqn:H1; [discriminate|].
  destruct ("runwayml" =? name) eqn:H2; [discriminate|].
  destruct ("flux" =? name) eqn:H3; [discriminate|].
  intros _. unfold tryPreferred.
  rewrite (String.eqb_sym name "stability"), H1.
  rewrite (String.eqb_sym name "runwayml"), H2.
  rewrite (String.eqb_sym name "flux"), H3.
  destruct (name =? ""); reflexivity.
Qed.

Lemma lookupModel_name (name : string)
    (model : string * (string -> string -> string -> M InpaintingResult)) :
  lookupModel env name = Some model -> fst model = name.
Proof.
  unfold lookupModel. intros H. apply find_some in H. destruct H as [_ H].
  now apply String.eqb_eq in H.
Qed.

Lemma smartInpainting_refines (imageUrl maskUrl prompt : string)
    (preferredModel : option string) (w : World) :
  smartInpainting env imageUrl maskUrl prompt preferredModel w
  = firstSuccess imageUrl maskUrl prompt (attemptOrder env preferredModel) w.
Proof.
  rewrite smartInpainting_split. unfold attemptOrder.
  destruct preferredModel as [name|].
  - destruct (lookupModel env name) as [[name' func]|] eqn:Hlook.
    + pose proof (lookupModel_name _ _ Hlook) as Hname. simpl in Hname. subst name'.
      rewrite (tryPreferred_known _ _ _ _ _ _ Hlook). cbn [app firstSuccess snd].
      unfold try_catch.
      destruct (func imageUrl maskUrl prompt w) as [[r|e] w1]; reflexivity.
    + rewrite tryPreferred_unknown by exact Hlook. reflexivity.
  - rewrite tryPreferred_unknown by exact I. reflexivity.
Qed.

Lemma lookupModel_of_service (name : string) (s : Service) :
  serviceOfName name = Some s ->
  exists func, lookupModel env name = Some (name, func)
               /\ callsService env (name, func) s.
Proof.
  unfold serviceOfName.
  destruct (name =? "stability") eqn:H1.
  { apply String.eqb_eq in H1. subst name. intros [= <-].
    eexists. split; [reflexivity|]. eexists; eexists; reflexivity. }
  destruct (name =? "runwayml") eqn:H2.
  { apply String.eqb_eq in H2. subst name. intros [= <-].
    eexists. split; [reflexivity|]. eexists; eexists; reflexivity. }
  destruct (name =? "flux") eqn:H3.
  { apply String.eqb_eq in H3. subst name. intros [= <-].
    eexists. split; [reflexivity|]. eexists; eexists; reflexivity. }
  discriminate.
Qed.

Lemma models_services :
  Forall2 (callsService env) (models env) [StabilityAI; RunwayML; FLUX].
Proof.
  unfold models. repeat constructor; eexists; eexists; reflexivity.
Qed.

Lemma attemptOrder_services (preferredModel : option string) :
  Forall2 (callsService env) (attemptOrder env preferredModel)
          (attemptedServices preferredModel).
Proof.
  unfold attemptOrder, attemptedServices.
  apply Forall2_app; [|apply models_services].
  destruct preferredModel as [name|]; [|constructor].
  unfold lookupModel, serviceOfName, models. cbn [find fst].
  rewrite (String.eqb_sym name "stability"), (String.eqb_sym name "runwayml"),
    (String.eqb_sym name "flux").
  destruct ("stability" =? name);
    [repeat constructor; eexists; eexists; reflexivity|].
  destruct ("runwayml" =? name);
    [repeat constructor; eexists; eexists; reflexivity|].
  destruct ("flux" =? name);
    [repeat constructor; eexists; eexists; reflexivity|].
  constructor.
Qed.

(** The first service attempted is called first, whatever happens next. *)
Lemma firstSuccess_first_call (imageUrl maskUrl prompt : string)
    (model : string * (string -> string -> string -> M InpaintingResult))
    (rest : list (string * (string -> string -> string -> M InpaintingResult)))
    (s : Service) (w : World) :
  callsService env model s ->
  Forall (fun model => forall i m p, onlyRuns anyService (snd model i m p)) rest ->
  exists later,
    snd (firstSuccess imageUrl maskUrl prompt (model :: rest) w)
    = (w ++ EvRun s :: later)%list.
Proof.
  intros (label & modelUsed & Hcalls) Hrest. cbn [firstSuccess]. rewrite Hcalls.
  unfold try_catch.
  pose proof (inpaintWith_world s label modelUsed imageUrl maskUrl prompt w) as Hw.
  destruct (inpaintWith env s label modelUsed imageUrl maskUrl prompt w) as [[r|e] w1];
    simpl in Hw; subst w1.
  - exists []. reflexivity.
  - assert (Hruns : onlyRuns anyService (firstSuccess imageUrl maskUrl prompt rest)).
    { clear -Hrest. induction Hrest as [|m ms Hm Hms IH]; simpl.
      - runs_step.
      - runs_step; [apply Hm | exact IH]. }
    destruct (Hruns (w ++ [EvRun s])%list) as (runs & E & _).
    exists (map EvRun runs). rewrite E, <- app_assoc. reflexivity.
Qed.

Lemma firstSuccess_all_fail (imageUrl maskUrl prompt : string)
    (attempts : list (string * (string -> string -> string -> M InpaintingResult)))
    (services : list Service) :
  allBackendsFail env ->
  Forall2 (callsService env) attempts services ->
  forall w,
    firstSuccess imageUrl maskUrl prompt attempts w
    = (Throw (ErrorObj "All inpainting models failed"), (w ++ map EvRun services)%list).
Proof.
  intros Hfail Hcalls. induction Hcalls as [|model s rest ss Hmodel Hrest IH]; intros w.
  - simpl. unfold throw. now rewrite app_nil_r.
  - destruct Hmodel as (label & modelUsed & Hcalls). cbn [firstSuccess]. rewrite Hcalls.
    unfold try_catch.
    destruct (inpaintWith_fails s label modelUsed imageUrl maskUrl prompt w
                (Hfail s w imageUrl maskUrl prompt)) as [e ->].
    rewrite IH. simpl. now rewrite <- app_assoc.
Qed.

(** C7. [smartInpainting] attempts the back-ends in the order "preferred
    model (when it names a back-end), then stability, runwayml, flux" and
    returns the first success.  So a preferred back-end is called first; when
    it fails, the list is attempted from its beginning (stability first), the
    preferred model included; and when every attempt fails the function
    throws the error "All inpainting models failed" after calling the
    preferred back-end and then the three listed ones. *)
Theorem smartInpainting_order (imageUrl maskUrl prompt : string)
    (preferredModel : option string) (w : World) :
  smartInpainting env imageUrl maskUrl prompt preferredModel w
  = firstSuccess imageUrl maskUrl prompt (attemptOrder env preferredModel) w /\
  map fst (models env) = ["stability"; "runwayml"; "flux"] /\
  (forall name s,
     preferredModel = Some name -> serviceOfName name = Some s ->
     (exists later,
        snd (smartInpainting env imageUrl maskUrl prompt preferredModel w)
        = (w ++ EvRun s :: later)%list) /\
     (replyFails (run_inpainting env s w imageUrl maskUrl prompt) ->
      smartInpainting env imageUrl maskUrl prompt preferredModel w
      = firstSuccess imageUrl maskUrl prompt (models env) (w ++ [EvRun s])%list /\
      exists later,
        snd (smartInpainting env imageUrl maskUrl prompt preferredModel w)
        = (w ++ EvRun s :: EvRun StabilityAI :: later)%list)) /\
  (allBackendsFail env ->
   smartInpainting env imageUrl maskUrl prompt preferredModel w
   = (Throw (ErrorObj "All inpainting models failed"),
      (w ++ map EvRun (attemptedServices preferredModel))%list)).
Proof.
  pose proof (smartInpainting_refines imageUrl maskUrl prompt preferredModel w) as Href.
  assert (Hlisted : Forall (fun model => forall i m p, onlyRuns anyService (snd model i m p))
                           (models env)).
  { unfold models. repeat constructor; intros; apply inpaintWith_runs. }
  split; [exact Href|]. split; [reflexivity|]. split.
  - intros name s -> Hs.
    destruct (lookupModel_of_service name s Hs) as (func & Hlook & Hmodel).
    assert (Horder : attemptOrder env (Some name) = (name, func) :: models env).
    { unfold attemptOrder. now rewrite Hlook. }
    rewrite Horder in Href. set (model := (name, func)) in *.
    rewrite Href. split.
    + apply firstSuccess_first_call; assumption.
    + intros Hfails. destruct Hmodel as (label & modelUsed & Hcalls).
      assert (Hstep : firstSuccess imageUrl maskUrl prompt (model :: models env) w
                      = firstSuccess imageUrl maskUrl prompt (models env) (w ++ [EvRun s])%list).
      { cbn [firstSuccess]. rewrite Hcalls. unfold try_catch.
        destruct (inpaintWith_fails s label modelUsed imageUrl maskUrl prompt w Hfails)
          as [e ->]. reflexivity. }
      rewrite Hstep. split; [reflexivity|].
      destruct (firstSuccess_first_call imageUrl maskUrl prompt
                  ("stability", inpaintWithStabilityAI env)
                  [("runwayml", inpaintWithRunwayML env); ("flux", inpaintWithFLUX env)]
                  StabilityAI (w ++ [EvRun s])%list) as (later & Hlater).
      * eexists; eexists; reflexivity.
      * inversion Hlisted; assumption.
      * exists later. unfold models. rewrite Hlater, <- app_assoc. reflexivity.
  - intros Hfail. rewrite Href.
    apply firstSuccess_all_fail; [exact Hfail | apply attemptOrder_services].
Qed.

End SelectorProperties.

(** ** Faults raised inside the pipeline *)

Section Faults.

Variable env : Services.

Lemma prefixed_nonempty (c : ascii) (prefix rest : string) :
  (String c prefix ++ rest)%string <> "".
Proof. simpl. discriminate. Qed.

Lemma detectPeopleInImage_throws (imageUrl : string) (w w' : World) (e : Thrown) :
  detectPeopleInImage env imageUrl w = (Throw e, w') ->
  exists cause, e = ErrorObj ("Failed to detect people: " ++ cause).
Proof.
  unfold detectPeopleInImage, try_catch.
  destruct (bind _ _ w) as [[d|e0] w0]; [discriminate|].
  unfold throw. intros [= <- _]. eexists; reflexivity.
Qed.

Lemma detectPeopleWithYOLO_throws (imageUrl : string) (w w' : World) (e : Thrown) :
  detectPeopleWithYOLO env imageUrl w = (Throw e, w') ->
  exists cause, e = ErrorObj ("Failed to detect people with YOLO + SAM: " ++ cause).
Proof.
  unfold detectPeopleWithYOLO, try_catch.
  destruct (bind _ _ w) as [[d|e0] w0]; [discriminate|].
  unfold throw. intros [= <- _]. eexists; reflexivity.
Qed.

Lemma detectionStage_throws (imageUrl : string) (fallbackToYOLO : bool)
    (w w' : World) (e : Thrown) :
  detectionStage env imageUrl fallbackToYOLO w = (Throw e, w') ->
  errorText e <> "".
Proof.
  unfold detectionStage. unfold try_catch at 1.
  destruct (detectPeopleInImage env imageUrl w) as [[d|e0] w0] eqn:Hprimary;
    [discriminate|].
  destruct (detectPeopleInImage_throws _ _ _ _ Hprimary) as [cause ->].
  destruct fallbackToYOLO.
  - unfold try_catch.
    destruct (detectPeopleWithYOLO env imageUrl w0) as [[d|e1] w1]; [discriminate|].
    unfold throw. intros [= <- _]. simpl. discriminate.
  - unfold throw. intros [= <- _]. simpl. discriminate.
Qed.

Lemma firstSuccess_throws (imageUrl maskUrl prompt : string)
    (attempts : list (string * (string -> string -> string -> M InpaintingResult))) :
  forall (w w' : World) (e : Thrown),
    firstSuccess imageUrl maskUrl prompt attempts w = (Throw e, w') ->
    e = ErrorObj "All inpainting models failed".
Proof.
  induction attempts as [|model rest IH]; intros w w' e; simpl.
  - unfold throw. now intros [= <- _].
  - unfold try_catch.
    destruct (snd model imageUrl maskUrl prompt w) as [[r|e0] w0]; [discriminate|].
    apply IH.
Qed.

Lemma smartInpainting_throws (imageUrl maskUrl prompt : string)
    (preferredModel : option string) (w w' : World) (e : Thrown) :
  smartInpainting env imageUrl maskUrl prompt preferredModel w = (Throw e, w') ->
  e = ErrorObj "All inpainting models failed".
Proof.
  rewrite smartInpainting_refines. apply firstSuccess_throws.
Qed.

(** The shape of every result of the pipeline after a successful detection
    of at least one person. *)
Lemma pipeline_after_detection (imageUrl : string) (options : PersonRemovalOptions)
    (w w1 : World) (detectionResult : DetectionResult) :
  detectionStage env imageUrl (orDefault (fallbackToYOLO options) true) w
  = (Returns detectionResult, w1) ->
  masks detectionResult <> [] ->
  exists result w',
    autoRemoveBackgroundPeople env imageUrl options w = (Returns result, w') /\
    ((success result = true /\
      peopleDetected (details result) = lengthZ (masks detectionResult) /\
      modelUsed (details result) = "SAM-2/YOLO")
     \/
     (success result = false /\ details result = noDetails /\
      exists message, error result = Some message /\ message <> "")).
Proof.
  intros Hdet Hne.
  unfold autoRemoveBackgroundPeople. unfold bind at 1. unfold now at 1. cbv zeta.
  unfold try_catch at 1. unfold bind at 1. rewrite Hdet.
  destruct (masks detectionResult) as [|m rest] eqn:Hm; [congruence|].
  destruct (backgroundMasks _) as [|b bs] eqn:Hbg.
  - unfold bind, now, ret. eexists; eexists. split; [reflexivity|]. left. simpl. auto.
  - destruct (_ =? "") eqn:Hmask.
    + unfold throw, bind, now, ret. eexists; eexists. split; [reflexivity|]. right. simpl.
      repeat split. eexists. split; [reflexivity | discriminate].
    + unfold bind at 1.
      destruct (smartInpainting env imageUrl _ _ _ w1) as [[r|e] w2] eqn:Hsmart.
      * simpl. unfold bind, now, ret. eexists; eexists. split; [reflexivity|]. left. simpl. auto.
      * apply smartInpainting_throws in Hsmart. subst e.
        unfold bind, now, ret. eexists; eexists. split; [reflexivity|]. right. simpl.
        repeat split. eexists. split; [reflexivity | discriminate].
Qed.

(** C8. [autoRemoveBackgroundPeople] returns a result on every input and in
    every world -- no fault of a stage escapes it -- and a result with
    success = false carries an error string that is not empty. *)
Theorem pipeline_always_returns (imageUrl : string) (options : PersonRemovalOptions)
    (w : World) :
  exists result w',
    autoRemoveBackgroundPeople env imageUrl options w = (Returns result, w') /\
    (success result = false ->
     exists message, error result = Some message /\ message <> "").
Proof.
  destruct (detectionStage env imageUrl (orDefault (fallbackToYOLO options) true) w)
    as [[detectionResult|e] w1] eqn:Hdet.
  - destruct (masks detectionResult) as [|m rest] eqn:Hm.
    + unfold autoRemoveBackgroundPeople. unfold bind at 1. unfold now at 1. cbv zeta.
      unfold try_catch at 1. unfold bind at 1. rewrite Hdet, Hm.
      unfold bind, now, ret. eexists; eexists. split; [reflexivity|]. simpl.
      intros _. eexists. split; [reflexivity | discriminate].
    + destruct (pipeline_after_detection imageUrl options w w1 detectionResult Hdet)
        as (result & w' & Hrun & Hshape); [rewrite Hm; discriminate|].
      exists result, w'. split; [exact Hrun|].
      destruct Hshape as [(Hs & _)|(_ & _ & Hmsg)]; [congruence | intros _; exact Hmsg].
  - pose proof (detectionStage_throws _ _ _ _ _ Hdet) as Htext.
    unfold autoRemoveBackgroundPeople. unfold bind at 1. unfold now at 1. cbv zeta.
    unfold try_catch at 1. unfold bind at 1. rewrite Hdet.
    unfold bind, now, ret. eexists; eexists. split; [reflexivity|]. simpl.
    intros _. eexists. split; [reflexivity | exact Htext].
Qed.

End Faults.

(** ** Runs of the example services *)

Lemma numberOr_same (v : R) : numberOr (Some v) v = v.
Proof. unfold numberOr. destruct (Req_dec_T v 0); reflexivity. Qed.

Lemma primary_segment_person :
  segmentToMask {| seg_bbox := Some Examples.centredBox;
                   seg_mask := Some "mask-0";
                   seg_confidence := Some 0.8%R |} 0
  = Examples.detectedPerson.
Proof.
  unfold segmentToMask. cbn [seg_confidence]. rewrite numberOr_same. reflexivity.
Qed.

Lemma detectedPerson_confident :
  (if Rgt_dec (confidence Examples.detectedPerson) 0.5 then true else false) = true.
Proof.
  cbn [confidence Examples.detectedPerson]. destruct (Rgt_dec 0.8 0.5); [reflexivity | lra].
Qed.

Lemma primary_detects_one (imageUrl : string) (w : World) :
  detectPeopleInImage Examples.primaryServices imageUrl w
  = (Returns Examples.detectedOne, (w ++ [EvRun SAM2])%list).
Proof.
  unfold detectPeopleInImage, try_catch, bind, await_run, ret.
  cbn [run_sam2 Examples.primaryServices].
  unfold mapi. cbn [mapi_from]. rewrite primary_segment_person.
  cbn [filter]. rewrite detectedPerson_confident. reflexivity.
Qed.

Lemma fallback_primary_throws (imageUrl : string) (w : World) :
  detectPeopleInImage Examples.fallbackServices imageUrl w
  = (Throw (ErrorObj "Failed to detect people: SAM-2 unavailable"), (w ++ [EvRun SAM2])%list).
Proof. reflexivity. Qed.

Lemma fallback_detects_one (imageUrl : string) (w : World) :
  detectPeopleWithYOLO Examples.fallbackServices imageUrl w
  = (Returns Examples.detectedOne, ((w ++ [EvRun YOLOv8]) ++ [EvRun SAM])%list).
Proof.
  unfold detectPeopleWithYOLO, try_catch, bind, await_run, ret.
  cbn [run_yolo Examples.fallbackServices refineBoxes].
  unfold bind, await_run, ret.
  cbn [run_sam Examples.fallbackServices String.eqb box_confidence box_bbox bboxOr app].
  rewrite numberOr_same. reflexivity.
Qed.

Lemma offline_detection_throws (imageUrl : string) (fallbackToYOLO : bool) (w : World) :
  exists e w', detectionStage Examples.offlineServices imageUrl fallbackToYOLO w
               = (Throw e, w').
Proof.
  destruct fallbackToYOLO; eexists; eexists; reflexivity.
Qed.

Lemma offline_backends_fail : allBackendsFail Examples.offlineServices.
Proof. intros s w imageUrl maskUrl prompt. exact I. Qed.

Lemma pipeline_short_circuit_witness :
  exists result,
    autoRemoveBackgroundPeople Examples.primaryServices "img" Examples.noOptions []
    = (Returns result, [EvRun SAM2]) /\
    success result = true /\ resultUrl result = Some "img".
Proof.
  assert (Hdet : detectionStage Examples.primaryServices "img"
                   (orDefault (fallbackToYOLO Examples.noOptions) true) []
                 = (Returns Examples.detectedOne, [EvRun SAM2])).
  { unfold detectionStage, try_catch. now rewrite primary_detects_one. }
  assert (Hne : masks Examples.detectedOne <> []) by discriminate.
  assert (Hone : (exists person, masks Examples.detectedOne = [person])
                 /\ (1 <= orDefault (targetForegroundCount Examples.noOptions) 1)%Q).
  { split; [eexists; reflexivity | unfold Qle; simpl; lia]. }
  destruct (pipeline_short_circuit Examples.primaryServices "img" Examples.noOptions
              [] [EvRun SAM2] Examples.detectedOne Hdet Hne (or_intror Hone))
    as (result & Hrun & Hs & Hurl & _).
  exists result. auto.
Defined.

Lemma smartInpainting_order_witness :
  smartInpainting Examples.offlineServices "img" "mask" "prompt" (Some "flux") []
  = (Throw (ErrorObj "All inpainting models failed"),
     map EvRun [FLUX; StabilityAI; RunwayML; FLUX]).
Proof.
  destruct (smartInpainting_order Examples.offlineServices "img" "mask" "prompt"
              (Some "flux") []) as (_ & _ & _ & Hall).
  exact (Hall offline_backends_fail).
Defined.

Lemma pipeline_always_returns_witness :
  exists result w' message,
    autoRemoveBackgroundPeople Examples.offlineServices "img" Examples.noOptions []
    = (Returns result, w') /\
    success result = false /\ error result = Some message /\ message <> "".
Proof.
  destruct (pipeline_always_returns Examples.offlineServices "img" Examples.noOptions [])
    as (result & w' & Hrun & Herr).
  assert (Hfail : success result = false).
  { vm_compute in Hrun. injection Hrun as <- _. reflexivity. }
  destruct (Herr Hfail) as (message & Hm & Hne).
  exists result, w', message. auto.
Defined.

(** ** The fallback detection path *)

Section FallbackPath.

Variable env : Services.

(** Every successful result carries the same detection label. *)
Lemma success_label (imageUrl : string) (options : PersonRemovalOptions)
    (w w' : World) (result : PersonRemovalResult) :
  autoRemoveBackgroundPeople env imageUrl options w = (Returns result, w') ->
  success result = true ->
  modelUsed (details result) = "SAM-2/YOLO".
Proof.
  intros Hrun Hs.
  destruct (detectionStage env imageUrl (orDefault (fallbackToYOLO options) true) w)
    as [[detectionResult|e] w1] eqn:Hdet.
  - destruct (masks detectionResult) as [|m rest] eqn:Hm.
    + revert Hrun. unfold autoRemoveBackgroundPeople. unfold bind at 1. unfold now at 1.
      cbv zeta. unfold try_catch at 1. unfold bind at 1. rewrite Hdet, Hm.
      unfold bind, now, ret. intros [= <- _]. discriminate Hs.
    + destruct (pipeline_after_detection env imageUrl options w w1 detectionResult Hdet)
        as (result' & w'' & Hrun' & Hshape); [rewrite Hm; discriminate|].
      rewrite Hrun in Hrun'. injection Hrun' as <- <-.
      destruct Hshape as [(_ & _ & Hlabel)|(Hf & _)]; [exact Hlabel | congruence].
  - revert Hrun. unfold autoRemoveBackgroundPeople. unfold bind at 1. unfold now at 1.
    cbv zeta. unfold try_catch at 1. unfold bind at 1. rewrite Hdet.
    unfold bind, now, ret. intros [= <- _]. discriminate Hs.
Qed.

Lemma detectionStage_fallback (imageUrl : string) (w w1 : World) (e : Thrown) :
  detectPeopleInImage env imageUrl w = (Throw e, w1) ->
  detectionStage env imageUrl true w
  = try_catch (detectPeopleWithYOLO env imageUrl)
      (fun _ => throw (ErrorObj ("Both SAM-2 and YOLO detection failed: " ++ errorText e))) w1.
Proof.
  intros Hprimary. unfold detectionStage. unfold try_catch at 1. now rewrite Hprimary.
Qed.

(** C9 (amended). When the primary detector throws, fallbackToYOLO is true
    and the fallback chain returns exactly one mask, the pipeline returns a
    result; when that result is a success -- as it is whenever
    targetForegroundCount >= 1 -- it has details.peopleDetected = 1 and
    details.modelUsed = "SAM-2/YOLO".  That label is the one every successful
    result carries, on the primary path too: it does not tell the paths
    apart. *)
Theorem fallback_path_result (imageUrl : string) (options : PersonRemovalOptions)
    (w w1 w2 : World) (e : Thrown) (detectionResult : DetectionResult)
    (person : PersonMask) :
  detectPeopleInImage env imageUrl w = (Throw e, w1) ->
  orDefault (fallbackToYOLO options) true = true ->
  detectPeopleWithYOLO env imageUrl w1 = (Returns detectionResult, w2) ->
  masks detectionResult = [person] ->
  exists result w',
    autoRemoveBackgroundPeople env imageUrl options w = (Returns result, w') /\
    (success result = true ->
     peopleDetected (details result) = 1%Z /\
     modelUsed (details result) = "SAM-2/YOLO") /\
    ((1 <= orDefault (targetForegroundCount options) 1)%Q ->
     success result = true /\ w' = w2) /\
    (forall imageUrl0 options0 w0 w0' result0,
       autoRemoveBackgroundPeople env imageUrl0 options0 w0 = (Returns result0, w0') ->
       success result0 = true ->
       modelUsed (details result0) = "SAM-2/YOLO").
Proof.
  intros Hprimary Hfb Hyolo Hone.
  assert (Hdet : detectionStage env imageUrl (orDefault (fallbackToYOLO options) true) w
                 = (Returns detectionResult, w2)).
  { rewrite Hfb, (detectionStage_fallback _ _ _ _ Hprimary).
    unfold try_catch. now rewrite Hyolo. }
  assert (Hne : masks detectionResult <> []) by (rewrite Hone; discriminate).
  destruct (pipeline_after_detection env imageUrl options w w2 detectionResult Hdet Hne)
    as (result & w' & Hrun & Hshape).
  exists result, w'. split; [exact Hrun|]. split; [|split].
  - intros Hs. destruct Hshape as [(_ & Hcount & Hlabel)|(Hf & _)]; [|congruence].
    rewrite Hcount, Hone. split; [reflexivity | exact Hlabel].
  - intros Htfc.
    destruct (separate_single detectionResult person _ Hone Htfc) as [_ Hbg].
    rewrite (pipeline_no_background env imageUrl options w w2 detectionResult Hdet Hne Hbg)
      in Hrun.
    injection Hrun as <- <-. split; reflexivity.
  - intros imageUrl0 options0 w0 w0' result0. apply success_label.
Qed.

End FallbackPath.

Lemma fallback_path_result_witness :
  exists result,
    autoRemoveBackgroundPeople Examples.fallbackServices "img" Examples.noOptions []
    = (Returns result, [EvRun SAM2; EvRun YOLOv8; EvRun SAM]) /\
    peopleDetected (details result) = 1%Z /\
    modelUsed (details result) = "SAM-2/YOLO".
Proof.
  destruct (fallback_path_result Examples.fallbackServices "img" Examples.noOptions
              [] [EvRun SAM2] [EvRun SAM2; EvRun YOLOv8; EvRun SAM]
              (ErrorObj "Failed to detect people: SAM-2 unavailable")
              Examples.detectedOne Examples.detectedPerson
              (fallback_primary_throws "img" []) eq_refl
              (fallback_detects_one "img" [EvRun SAM2]) eq_refl)
    as (result & w' & Hrun & Hshape & Hshort & _).
  assert (Htfc : (1 <= orDefault (targetForegroundCount Examples.noOptions) 1)%Q)
    by (unfold Qle; simpl; lia).
  destruct (Hshort Htfc) as [Hs ->]. destruct (Hshape Hs) as [Hcount Hlabel].
  exists result. auto.
Defined.

(** C9, the claim as stated fails: the result of the fallback path and the
    result of the primary path, each detecting one person, carry the same
    details.modelUsed, "SAM-2/YOLO"; the value does not reflect which path
    ran. *)
Lemma fallback_label_counterexample :
  snd (autoRemoveBackgroundPeople Examples.primaryServices "img" Examples.noOptions [])
  = [EvRun SAM2] /\
  snd (autoRemoveBackgroundPeople Examples.fallbackServices "img" Examples.noOptions [])
  = [EvRun SAM2; EvRun YOLOv8; EvRun SAM] /\
  option_map (fun r => (success r, peopleDetected (details r), modelUsed (details r)))
    (returned (fst (autoRemoveBackgroundPeople Examples.primaryServices "img"
                      Examples.noOptions [])))
  = Some (true, 1%Z, "SAM-2/YOLO") /\
  option_map (fun r => (success r, peopleDetected (details r), modelUsed (details r)))
    (returned (fst (autoRemoveBackgroundPeople Examples.fallbackServices "img"
                      Examples.noOptions [])))
  = Some (true, 1%Z, "SAM-2/YOLO").
Proof.
  assert (Hne : masks Examples.detectedOne <> []) by discriminate.
  assert (Hbg : backgroundMasks
                  (separateForegroundBackground Examples.detectedOne
                     (orDefault (targetForegroundCount Examples.noOptions) 1%Q)) = []).
  { apply (separate_single Examples.detectedOne Examples.detectedPerson);
      [reflexivity | unfold Qle; simpl; lia]. }
  assert (Hprimary : detectionStage Examples.primaryServices "img"
                       (orDefault (fallbackToYOLO Examples.noOptions) true) []
                     = (Returns Examples.detectedOne, [EvRun SAM2])).
  { unfold detectionStage, try_catch. now rewrite primary_detects_one. }
  assert (Hfallback : detectionStage Examples.fallbackServices "img"
                        (orDefault (fallbackToYOLO Examples.noOptions) true) []
                      = (Returns Examples.detectedOne,
                         [EvRun SAM2; EvRun YOLOv8; EvRun SAM])).
  { cbn [orDefault fallbackToYOLO Examples.noOptions].
    rewrite (detectionStage_fallback _ _ _ _ _ (fallback_primary_throws "img" [])).
    unfold try_catch. now rewrite fallback_detects_one. }
  rewrite (pipeline_no_background _ _ _ _ _ _ Hprimary Hne Hbg).
  rewrite (pipeline_no_background _ _ _ _ _ _ Hfallback Hne Hbg).
  repeat split.
Qed.

(** ** The retry wrapper *)

Lemma wrapperEvents_app (a b : list Event) :
  wrapperEvents (a ++ b) = (wrapperEvents a ++ wrapperEvents b)%list.
Proof. apply filter_app. Qed.

Lemma wrapperEvents_runs (runs : list Service) : wrapperEvents (map EvRun runs) = [].
Proof. induction runs; simpl; auto. Qed.

Lemma attemptCount_app (a b : list Event) :
  attemptCount (a ++ b) = (attemptCount a + attemptCount b)%nat.
Proof. unfold attemptCount. now rewrite filter_app, length_app. Qed.

Lemma attemptCount_runs (runs : list Service) : attemptCount (map EvRun runs) = O.
Proof. unfold attemptCount. induction runs; simpl; auto. Qed.

Lemma backoff_is_specified (attempt : Z) :
  backoffDelay attempt = specDelayBefore (attempt + 1).
Proof.
  unfold backoffDelay, specDelayBefore. now replace (attempt + 1 - 2)%Z with (attempt - 1)%Z by lia.
Qed.

(** The loop counter and the number of iterations left: when they agree
    with the guard [attempt <= maxRetries], they still do after an iteration,
    and no iteration is left exactly when the guard fails. *)
Lemma retry_guard (maxRetries : Q) (attempt : Z) (remaining : nat) :
  Z.of_nat remaining = Z.max 0 (Qfloor maxRetries - attempt + 1) ->
  match remaining with
  | O => (maxRetries < inject_Z attempt)%Q
  | S remaining' =>
      (inject_Z attempt <= maxRetries)%Q /\
      Z.of_nat remaining' = Z.max 0 (Qfloor maxRetries - (attempt + 1) + 1)
  end.
Proof.
  intros Hinv. destruct remaining as [|remaining'].
  - apply Qlt_le_trans with (inject_Z (Qfloor maxRetries + 1)); [apply Qlt_floor |].
    rewrite <- Zle_Qle. lia.
  - split; [|lia].
    apply Qle_trans with (inject_Z (Qfloor maxRetries)); [|apply Qfloor_le].
    rewrite <- Zle_Qle. lia.
Qed.

(** [attempt === maxRetries] for the integer [attempt]. *)
Lemma lastAttempt_integer (attempt : Z) (maxRetries : Q) :
  Qeq_bool (inject_Z attempt) maxRetries = true ->
  (maxRetries == inject_Z (Qfloor maxRetries))%Q /\ Qfloor maxRetries = attempt.
Proof.
  intros H. apply Qeq_bool_iff in H.
  assert (Hfloor : Qfloor maxRetries = attempt)
    by (rewrite <- (Qfloor_comp _ _ H); apply Qfloor_Z).
  split; [|exact Hfloor]. rewrite Hfloor. now symmetry.
Qed.

Lemma lastAttempt_of_integer (attempt N : Z) (maxRetries : Q) :
  (maxRetries == inject_Z N)%Q ->
  Qeq_bool (inject_Z attempt) maxRetries = (attempt =? N)%Z.
Proof.
  intros HN. destruct (Z.eqb_spec attempt N) as [-> | Hne].
  - apply Qeq_bool_iff. now symmetry.
  - apply not_true_is_false. intros H. apply Qeq_bool_iff in H.
    rewrite HN in H. apply Hne. apply inject_Z_injective. exact H.
Qed.

Lemma attemptsSchedule_head (maxRetries : Q) (first : Z) (count : nat) :
  exists rest, attemptsSchedule maxRetries first (S count)
               = EvAttempt first maxRetries :: rest.
Proof. simpl. eexists; reflexivity. Qed.

(** In a schedule, an attempt after the first one comes right after the
    wait specified for it. *)
Lemma attemptsSchedule_wait_before (maxRetries : Q) (count : nat) :
  forall first k,
    (first < k)%Z ->
    In (EvAttempt k maxRetries) (attemptsSchedule maxRetries first count) ->
    (k < first + Z.of_nat count)%Z /\
    exists before after,
      attemptsSchedule maxRetries first count
      = (before ++ EvWait (specDelayBefore k) :: EvAttempt k maxRetries :: after)%list.
Proof.
  induction count as [|count IH]; intros first k Hlt Hin; [contradiction|].
  cbn [attemptsSchedule] in *. destruct Hin as [Heq|Hin]; [injection Heq; lia|].
  destruct count as [|count']; [contradiction|].
  destruct Hin as [Heq|Hin]; [discriminate|].
  destruct (Z.eq_dec k (first + 1)) as [->|Hne].
  - split; [lia|].
    destruct (attemptsSchedule_head maxRetries (first + 1) count') as [rest Hrest].
    exists [EvAttempt first maxRetries], rest. rewrite Hrest. reflexivity.
  - destruct (IH (first + 1)%Z k ltac:(lia) Hin) as (Hk & before & after & Hsched).
    split; [lia|].
    exists (EvAttempt first maxRetries :: EvWait (specDelayBefore (first + 1)) :: before),
      after.
    rewrite Hsched. reflexivity.
Qed.

Lemma attemptsSchedule_attempts (maxRetries : Q) (count : nat) :
  forall first e, In e (attemptsSchedule maxRetries first (S count)) ->
                  e = EvAttempt first maxRetries \/
                  In e (EvWait (specDelayBefore (first + 1))
                        :: attemptsSchedule maxRetries (first + 1) count).
Proof.
  intros first e Hin. cbn [attemptsSchedule] in Hin. destruct Hin as [<- | Hin]; [now left|].
  destruct count; [contradiction | now right].
Qed.

Section RetryProperties.

Variable pipeline : string -> PersonRemovalOptions -> M PersonRemovalResult.
Variables (imageUrl : string) (options : PersonRemovalOptions).

(** One iteration: the attempt line, the pipeline, and then either the
    return or the wait. *)
Lemma retryIteration_run (maxRetries : Q) (attempt : Z) (w : World) :
  retryIteration pipeline imageUrl options maxRetries attempt w
  = let run := pipeline imageUrl options (w ++ [EvAttempt attempt maxRetries])%list in
    if iterationStops (fst run) maxRetries attempt
    then (Returns (Some (lastAttemptResult (fst run))), snd run)
    else (Returns None, (snd run ++ [EvWait (backoffDelay attempt)])%list).
Proof.
  unfold retryIteration, bind, emit, try_catch, sleep, emit, ret. cbv zeta.
  destruct (pipeline imageUrl options (w ++ [EvAttempt attempt maxRetries])%list)
    as [[result|e] w1]; simpl.
  - destruct (success result); simpl; [reflexivity|].
    destruct (Qeq_bool (inject_Z attempt) maxRetries); reflexivity.
  - destruct (Qeq_bool (inject_Z attempt) maxRetries); reflexivity.
Qed.

Lemma retryLoop_step (maxRetries : Q) (remaining : nat) (attempt : Z) (w : World) :
  retryLoop pipeline imageUrl options maxRetries (S remaining) attempt w
  = match retryIteration pipeline imageUrl options maxRetries attempt w with
    | (Returns (Some result), w1) => (Returns result, w1)
    | (Returns None, w1) =>
        retryLoop pipeline imageUrl options maxRetries remaining (attempt + 1) w1
    | (Throw e, w1) => (Throw e, w1)
    end.
Proof.
  cbn [retryLoop]. unfold bind at 1.
  destruct (retryIteration pipeline imageUrl options maxRetries attempt w)
    as [[[result|]|e] w1]; reflexivity.
Qed.

(** An iteration that goes on is not the last one the guard admits, unless
    maxRetries is not an integer. *)
Lemma iteration_goes_on (o : Outcome PersonRemovalResult) (maxRetries : Q) (attempt : Z)
    (remaining' : nat) :
  iterationStops o maxRetries attempt = false ->
  Z.of_nat (S remaining') = Z.max 0 (Qfloor maxRetries - attempt + 1) ->
  remaining' = O -> ~ (maxRetries == inject_Z (Qfloor maxRetries))%Q.
Proof.
  intros Hstop Hinv -> Hint.
  assert (Hlast : Qeq_bool (inject_Z attempt) maxRetries = true).
  { apply Qeq_bool_iff. rewrite Hint. replace attempt with (Qfloor maxRetries) by lia.
    reflexivity. }
  destruct o as [result|e]; simpl in Hstop; rewrite Hlast in Hstop;
    [rewrite orb_true_r in Hstop|]; discriminate.
Qed.

(** C10. With maxRetries <= 0 the wrapper never invokes the pipeline -- the
    world is unchanged, whatever the pipeline is -- and returns success =
    false, error "Max retries exceeded", processingTime 0, all detail counts
    0 and modelUsed and inpaintingModel "none". *)
Theorem retry_without_budget (w : World) :
  (orDefault (maxRetries options) 2 <= 0)%Q ->
  exists result,
    autoRemoveBackgroundPeopleWithRetry pipeline imageUrl options w = (Returns result, w) /\
    success result = false /\
    error result = Some "Max retries exceeded" /\
    resultUrl result = None /\
    processingTime result = 0%Z /\
    peopleDetected (details result) = 0%Z /\
    foregroundPeople (details result) = 0%Z /\
    backgroundPeople (details result) = 0%Z /\
    modelUsed (details result) = "none" /\
    inpaintingModel (details result) = "none".
Proof.
  intros Hbudget. unfold autoRemoveBackgroundPeopleWithRetry. cbv zeta.
  assert (Hfloor : (Qfloor (orDefault (maxRetries options) 2%Q) <= 0)%Z).
  { rewrite <- (Qfloor_Z 0). now apply Qfloor_resp_le. }
  replace (Z.to_nat (Qfloor (orDefault (maxRetries options) 2%Q))) with O by lia.
  exists maxRetriesExceeded. repeat split.
Qed.

Hypothesis pipeline_quiet : forall i o, onlyRuns anyService (pipeline i o).

(** The attempts and waits of the loop: a schedule, followed by one more
    wait when the loop ran out of attempts right after waiting, which
    happens only for a maxRetries that is not an integer. *)
Lemma retryLoop_schedule (maxRetries : Q) (remaining : nat) :
  forall (attempt : Z) (w : World),
    Z.of_nat remaining = Z.max 0 (Qfloor maxRetries - attempt + 1) ->
    exists events count trailing,
      snd (retryLoop pipeline imageUrl options maxRetries remaining attempt w)
      = (w ++ events)%list /\
      wrapperEvents events
      = (attemptsSchedule maxRetries attempt count ++ trailing)%list /\
      (count <= remaining)%nat /\
      (remaining <> O -> count <> O) /\
      (trailing = [] \/
       (trailing = [EvWait (specDelayBefore (attempt + Z.of_nat count))] /\
        count <> O /\
        ~ (maxRetries == inject_Z (Qfloor maxRetries))%Q)).
Proof.
  induction remaining as [|remaining' IH]; intros attempt w Hinv.
  - exists [], O, []. simpl. rewrite app_nil_r. repeat split; auto.
  - pose proof (retry_guard _ _ _ Hinv) as [Hle Hinv'].
    cbn [retryLoop]. unfold bind at 1. rewrite retryIteration_run. cbv zeta.
    destruct (pipeline_quiet imageUrl options (w ++ [EvAttempt attempt maxRetries])%list)
      as (runs & Eruns & _).
    destruct (pipeline imageUrl options (w ++ [EvAttempt attempt maxRetries])%list)
      as [o w1] eqn:Hrun. simpl in Eruns. subst w1. cbn [fst snd].
    destruct (iterationStops o maxRetries attempt) eqn:Hstop.
    + exists (EvAttempt attempt maxRetries :: map EvRun runs), 1%nat, [].
      unfold ret. cbn [snd]. rewrite <- app_assoc. split; [reflexivity|].
      split; [|split; [lia | split; [discriminate | now left]]].
      change (EvAttempt attempt maxRetries :: map EvRun runs)
        with ([EvAttempt attempt maxRetries] ++ map EvRun runs)%list.
      now rewrite wrapperEvents_app, wrapperEvents_runs.
    + destruct (IH (attempt + 1)%Z
                  (((w ++ [EvAttempt attempt maxRetries]) ++ map EvRun runs)
                     ++ [EvWait (backoffDelay attempt)])%list Hinv')
        as (events & count & trailing & Eloop & Hsched & Hcount & Hpos & Htrail).
      destruct remaining' as [|remaining''].
      * (* the loop ends after this wait *)
        assert (count = O) by lia. subst count.
        assert (Hnone : trailing = [])
          by (destruct Htrail as [-> | (_ & Hcount0 & _)]; [reflexivity | congruence]).
        subst trailing.
        exists (EvAttempt attempt maxRetries :: map EvRun runs
                ++ EvWait (backoffDelay attempt) :: events)%list, 1%nat,
          [EvWait (specDelayBefore (attempt + 1))].
        rewrite Eloop. split; [|split; [|split; [lia | split; [discriminate|]]]].
        -- rewrite <- !app_assoc. reflexivity.
        -- change (EvAttempt attempt maxRetries
                   :: map EvRun runs ++ EvWait (backoffDelay attempt) :: events)%list
             with ([EvAttempt attempt maxRetries]
                   ++ map EvRun runs ++ [EvWait (backoffDelay attempt)] ++ events)%list.
           rewrite !wrapperEvents_app, wrapperEvents_runs, Hsched, backoff_is_specified.
           reflexivity.
        -- right. split; [reflexivity|]. split; [discriminate|].
           now apply (iteration_goes_on o maxRetries attempt O Hstop Hinv).
      * assert (Hr : S remaining'' <> O) by lia.
        specialize (Hpos Hr). destruct count as [|count']; [congruence|].
        exists (EvAttempt attempt maxRetries :: map EvRun runs
                ++ EvWait (backoffDelay attempt) :: events)%list, (S (S count')), trailing.
        rewrite Eloop. split; [|split; [|split; [lia | split; [discriminate|]]]].
        -- rewrite <- !app_assoc. reflexivity.
        -- change (EvAttempt attempt maxRetries
                   :: map EvRun runs ++ EvWait (backoffDelay attempt) :: events)%list
             with ([EvAttempt attempt maxRetries]
                   ++ map EvRun runs ++ [EvWait (backoffDelay attempt)] ++ events)%list.
           rewrite !wrapperEvents_app, wrapperEvents_runs, Hsched, backoff_is_specified.
           reflexivity.
        -- replace (attempt + Z.of_nat (S (S count')))%Z
             with (attempt + 1 + Z.of_nat (S count'))%Z by lia.
           destruct Htrail as [-> | (-> & _ & Hfrac)]; [now left | right].
           split; [reflexivity|]. split; [discriminate | exact Hfrac].
Qed.

(** C6. In every run of the wrapper, the attempts and waits form the
    schedule "attempt 1, wait, attempt 2, wait, ..., attempt m" with m <=
    maxRetries, and the wait right before attempt k (2 <= k <= maxRetries)
    is min(1000 * 2^(k-2), 5000) milliseconds, an integer.  The schedule is
    all there is when maxRetries is an integer; for a maxRetries that is not
    one, one more wait can follow the last attempt. *)
Theorem retry_backoff_schedule (w : World) :
  let N := orDefault (maxRetries options) 2%Q in
  exists events count,
    snd (autoRemoveBackgroundPeopleWithRetry pipeline imageUrl options w)
    = (w ++ events)%list /\
    (count <= Z.to_nat (Qfloor N))%nat /\
    (exists trailing,
       wrapperEvents events = (attemptsSchedule N 1 count ++ trailing)%list /\
       (trailing = [] \/ trailing = [EvWait (specDelayBefore (1 + Z.of_nat count))]) /\
       ((N == inject_Z (Qfloor N))%Q -> trailing = [])) /\
    forall k,
      (2 <= k)%Z -> In (EvAttempt k N) events ->
      (inject_Z k <= N)%Q /\
      exists before after,
        wrapperEvents events
        = (before ++ EvWait (Z.min (1000 * 2 ^ (k - 2)) 5000)
                  :: EvAttempt k N :: after)%list.
Proof.
  intros N. unfold autoRemoveBackgroundPeopleWithRetry. cbv zeta. fold N.
  destruct (retryLoop_schedule N (Z.to_nat (Qfloor N)) 1%Z w ltac:(lia))
    as (events & count & trailing & Eloop & Hsched & Hcount & _ & Htrail).
  exists events, count. split; [exact Eloop|]. split; [exact Hcount|]. split.
  - exists trailing. split; [exact Hsched|]. split.
    + destruct Htrail as [-> | [-> _]]; [now left | now right].
    + intros Hint. destruct Htrail as [-> | (_ & _ & Hfrac)]; [reflexivity | contradiction].
  - intros k Hk Hin.
    assert (Hin' : In (EvAttempt k N) (attemptsSchedule N 1 count)).
    { assert (Hw : In (EvAttempt k N) (wrapperEvents events))
        by (apply filter_In; split; [exact Hin | reflexivity]).
      rewrite Hsched in Hw. apply in_app_or in Hw. destruct Hw as [Hw | Hw]; [exact Hw|].
      destruct Htrail as [-> | [-> _]]; [contradiction|].
      destruct Hw as [Hw | []]. discriminate. }
    destruct (attemptsSchedule_wait_before N count 1%Z k ltac:(lia) Hin')
      as (Hbound & before & after & Hshape).
    split.
    + apply Qle_trans with (inject_Z (Qfloor N)); [|apply Qfloor_le].
      rewrite <- Zle_Qle. lia.
    + exists before, (after ++ trailing)%list. rewrite Hsched, Hshape.
      rewrite <- app_assoc. reflexivity.
Qed.

(** When no attempt succeeds and maxRetries is the integer N, the loop walks
    through the invocations one by one and returns what the last of them
    produced. *)
Lemma retryLoop_all_fail (maxRetries : Q) (N : Z) (w : World) :
  (maxRetries == inject_Z N)%Q ->
  forall (remaining' failures : nat),
    (Z.of_nat failures + Z.of_nat (S remaining') = N)%Z ->
    (forall k, (failures <= k <= failures + remaining')%nat ->
       attemptFails
         (fst (pipeline imageUrl options
                 (invocationWorld pipeline imageUrl options maxRetries w k)))) ->
    retryLoop pipeline imageUrl options maxRetries (S remaining') (Z.of_nat failures + 1)
      (worldAfterFailures pipeline imageUrl options maxRetries w failures)
    = (Returns (lastAttemptResult
                  (fst (pipeline imageUrl options
                          (invocationWorld pipeline imageUrl options maxRetries w
                             (failures + remaining'))))),
       snd (pipeline imageUrl options
              (invocationWorld pipeline imageUrl options maxRetries w
                 (failures + remaining')))).
Proof.
  intros HN. induction remaining' as [|remaining'' IH]; intros failures Hbudget Hfail.
  - assert (Hlast : Qeq_bool (inject_Z (Z.of_nat failures + 1)) maxRetries = true)
      by (rewrite (lastAttempt_of_integer _ N _ HN); apply Z.eqb_eq; lia).
    rewrite Nat.add_0_r, retryLoop_step, retryIteration_run. cbv zeta.
    fold (invocationWorld pipeline imageUrl options maxRetries w failures).
    destruct (pipeline imageUrl options
                (invocationWorld pipeline imageUrl options maxRetries w failures))
      as [[result|e] w1]; cbn [fst snd iterationStops]; rewrite Hlast.
    + rewrite orb_true_r. reflexivity.
    + reflexivity.
  - assert (Hne : Qeq_bool (inject_Z (Z.of_nat failures + 1)) maxRetries = false)
      by (rewrite (lastAttempt_of_integer _ N _ HN); apply Z.eqb_neq; lia).
    rewrite retryLoop_step, retryIteration_run. cbv zeta.
    pose proof (Hfail failures ltac:(lia)) as Hf.
    unfold invocationWorld at 1 in Hf.
    assert (Hstop : iterationStops
                      (fst (pipeline imageUrl options
                              (worldAfterFailures pipeline imageUrl options maxRetries w
                                 failures
                               ++ [EvAttempt (Z.of_nat failures + 1) maxRetries])%list))
                      maxRetries (Z.of_nat failures + 1) = false).
    { destruct (fst (pipeline imageUrl options _)) as [result|e];
        simpl in *; [rewrite Hf|]; rewrite Hne; reflexivity. }
    rewrite Hstop.
    change (snd (pipeline imageUrl options
                   (worldAfterFailures pipeline imageUrl options maxRetries w failures
                    ++ [EvAttempt (Z.of_nat failures + 1) maxRetries])%list)
            ++ [EvWait (backoffDelay (Z.of_nat failures + 1))])%list
      with (worldAfterFailures pipeline imageUrl options maxRetries w (S failures)).
    replace (Z.of_nat failures + 1 + 1)%Z with (Z.of_nat (S failures) + 1)%Z by lia.
    rewrite (IH (S failures)).
    + replace (S failures + remaining'')%nat with (failures + S remaining'')%nat by lia.
      reflexivity.
    + lia.
    + intros k Hk. apply Hfail. lia.
Qed.

Lemma wrapper_all_fail (N : Z) (w : World) :
  (orDefault (maxRetries options) 2 == inject_Z N)%Q ->
  (1 <= N)%Z ->
  (forall k, (k < Z.to_nat N)%nat ->
     attemptFails
       (fst (pipeline imageUrl options
               (invocationWorld pipeline imageUrl options
                  (orDefault (maxRetries options) 2%Q) w k)))) ->
  autoRemoveBackgroundPeopleWithRetry pipeline imageUrl options w
  = (Returns (lastAttemptResult
                (fst (pipeline imageUrl options
                        (invocationWorld pipeline imageUrl options
                           (orDefault (maxRetries options) 2%Q) w (Z.to_nat N - 1))))),
     snd (pipeline imageUrl options
            (invocationWorld pipeline imageUrl options
               (orDefault (maxRetries options) 2%Q) w (Z.to_nat N - 1)))).
Proof.
  intros HN Hpos Hfail. unfold autoRemoveBackgroundPeopleWithRetry. cbv zeta.
  rewrite (Qfloor_comp _ _ HN), Qfloor_Z.
  destruct (Z.to_nat N) as [|remaining'] eqn:Hrem; [lia|].
  replace (S remaining' - 1)%nat with (0 + remaining')%nat by lia.
  apply (retryLoop_all_fail _ N w HN remaining' 0%nat); [lia |].
  intros k Hk. apply Hfail. lia.
Qed.

Lemma countEvents_app (mark : Event -> bool) (a b : list Event) :
  countEvents mark (a ++ b) = (countEvents mark a + countEvents mark b)%nat.
Proof. unfold countEvents. now rewrite filter_app, length_app. Qed.

Lemma worldAfterFailures_count (mark : Event -> bool) (maxRetries : Q) (w : World)
    (failures : nat) :
  marksInvocations mark (pipeline imageUrl options) ->
  countEvents mark (worldAfterFailures pipeline imageUrl options maxRetries w failures)
  = (countEvents mark w + failures)%nat.
Proof.
  intros (Hattempt & Hwait & Hrun).
  induction failures as [|earlier IH]; cbn [worldAfterFailures]; [lia|].
  cbv zeta. rewrite countEvents_app, Hrun, countEvents_app, IH.
  unfold countEvents at 2 3. cbn [filter]. rewrite Hattempt, Hwait. simpl. lia.
Qed.

Lemma invocationWorld_count (mark : Event -> bool) (maxRetries : Q) (w : World)
    (failures : nat) :
  marksInvocations mark (pipeline imageUrl options) ->
  countEvents mark
    (snd (pipeline imageUrl options
            (invocationWorld pipeline imageUrl options maxRetries w failures)))
  = (countEvents mark w + S failures)%nat.
Proof.
  intros Hmark. pose proof Hmark as (Hattempt & _ & Hrun).
  rewrite Hrun. unfold invocationWorld.
  rewrite countEvents_app, (worldAfterFailures_count _ _ _ _ Hmark).
  unfold countEvents at 2. cbn [filter]. rewrite Hattempt. simpl. lia.
Qed.

(** C3 (amended). For maxRetries an integer N >= 1, when every invocation of
    the pipeline ends without success (a result with success = false, or a
    throw), the wrapper invokes the pipeline exactly N times -- in the worlds
    [invocationWorld 0], ..., [invocationWorld (N - 1)], each invocation
    starting where the one before it and the wait left off -- and returns
    what the N-th invocation produced, its result or the result built from
    the error caught on it, in the world that invocation left: nothing runs
    after it.  Counted on the trace: whatever event marks one invocation of
    the pipeline, the wrapper adds exactly N of them. *)
Theorem retry_all_fail (N : Z) (w : World) :
  (orDefault (maxRetries options) 2 == inject_Z N)%Q ->
  (1 <= N)%Z ->
  (forall k, (k < Z.to_nat N)%nat ->
     attemptFails
       (fst (pipeline imageUrl options
               (invocationWorld pipeline imageUrl options
                  (orDefault (maxRetries options) 2%Q) w k)))) ->
  let last :=
    pipeline imageUrl options
      (invocationWorld pipeline imageUrl options
         (orDefault (maxRetries options) 2%Q) w (Z.to_nat N - 1)) in
  autoRemoveBackgroundPeopleWithRetry pipeline imageUrl options w
  = (Returns (lastAttemptResult (fst last)), snd last) /\
  success (lastAttemptResult (fst last)) = false /\
  forall mark : Event -> bool,
    marksInvocations mark (pipeline imageUrl options) ->
    Z.of_nat
      (countEvents mark
         (snd (autoRemoveBackgroundPeopleWithRetry pipeline imageUrl options w)))
    = (Z.of_nat (countEvents mark w) + N)%Z.
Proof.
  intros HN Hpos Hfail last. subst last. split; [|split].
  - now apply wrapper_all_fail.
  - pose proof (Hfail (Z.to_nat N - 1)%nat ltac:(lia)) as Hf.
    destruct (fst (pipeline imageUrl options _)); [exact Hf | reflexivity].
  - intros mark Hmark. rewrite (wrapper_all_fail N w HN Hpos Hfail). cbn [snd].
    rewrite (invocationWorld_count _ _ _ _ Hmark). lia.
Qed.

End RetryProperties.

(** ** The wrapper on the pipeline of this module *)

Lemma offline_pipeline_fails (imageUrl : string) (options : PersonRemovalOptions) (w : World) :
  attemptFails (fst (autoRemoveBackgroundPeople Examples.offlineServices imageUrl options w)).
Proof.
  destruct (orDefault (fallbackToYOLO options) true) eqn:Hfb;
    unfold autoRemoveBackgroundPeople; rewrite Hfb; reflexivity.
Qed.

Lemma retry_without_budget_witness :
  exists result,
    removeWithRetry Examples.offlineServices "img" (Examples.withMaxRetries 0) []
    = (Returns result, []) /\
    error result = Some "Max retries exceeded".
Proof.
  assert (Hbudget : (orDefault (maxRetries (Examples.withMaxRetries 0)) 2 <= 0)%Q)
    by (unfold Qle; simpl; lia).
  destruct (retry_without_budget
              (autoRemoveBackgroundPeople Examples.offlineServices)
              "img" (Examples.withMaxRetries 0) [] Hbudget)
    as (result & Hrun & _ & Herr & _).
  exists result. split; [exact Hrun | exact Herr].
Defined.

Lemma offline_pipeline_marked (imageUrl : string) (options : PersonRemovalOptions) :
  marksInvocations isPrimaryDetection
    (autoRemoveBackgroundPeople Examples.offlineServices imageUrl options).
Proof.
  split; [reflexivity|]. split; [reflexivity|]. intros w.
  destruct (orDefault (fallbackToYOLO options) true) eqn:Hfb;
    unfold autoRemoveBackgroundPeople; rewrite Hfb; cbn; unfold countEvents;
    rewrite !filter_app, !length_app; simpl; lia.
Qed.

Lemma retry_all_fail_witness :
  exists result,
    removeWithRetry Examples.offlineServices "img" (Examples.withMaxRetries 3) []
    = (Returns result,
       [EvAttempt 1 3; EvRun SAM2; EvRun YOLOv8; EvWait 1000;
        EvAttempt 2 3; EvRun SAM2; EvRun YOLOv8; EvWait 2000;
        EvAttempt 3 3; EvRun SAM2; EvRun YOLOv8]) /\
    success result = false /\
    Z.of_nat
      (countEvents isPrimaryDetection
         (snd (removeWithRetry Examples.offlineServices "img"
                 (Examples.withMaxRetries 3) [])))
    = 3%Z.
Proof.
  assert (Hpos : (1 <= 3)%Z) by lia.
  destruct (retry_all_fail
              (autoRemoveBackgroundPeople Examples.offlineServices)
              "img" (Examples.withMaxRetries 3) 3%Z [] (Qeq_refl 3) Hpos
              (fun k _ => offline_pipeline_fails "img" (Examples.withMaxRetries 3) _))
    as (Hrun & Hs & Hcount).
  unfold removeWithRetry. rewrite Hrun.
  eexists. split; [reflexivity|]. split; [exact Hs|].
  rewrite <- Hrun.
  exact (Hcount isPrimaryDetection
           (offline_pipeline_marked "img" (Examples.withMaxRetries 3))).
Defined.

(** C3, as first stated, fails for a budget that is not an integer.  With
    maxRetries 5/2 and services that are offline every invocation fails; the
    loop runs while attempt <= 5/2, so the pipeline is invoked twice, not
    5/2 times; after each failure attempt === maxRetries is false, so the
    wrapper waits (1000 ms, then 2000 ms) instead of returning; the loop
    ends and the wrapper returns "Max retries exceeded", which is not what
    the second, last invocation produced. *)
Lemma retry_fractional_budget_counterexample :
  (1 <= orDefault (maxRetries (Examples.withMaxRetries (5 # 2))) 2)%Q /\
  (forall w,
     attemptFails
       (fst (autoRemoveBackgroundPeople Examples.offlineServices "img"
               (Examples.withMaxRetries (5 # 2)) w))) /\
  removeWithRetry Examples.offlineServices "img" (Examples.withMaxRetries (5 # 2)) []
  = (Returns maxRetriesExceeded,
     [EvAttempt 1 (5 # 2); EvRun SAM2; EvRun YOLOv8; EvWait 1000;
      EvAttempt 2 (5 # 2); EvRun SAM2; EvRun YOLOv8; EvWait 2000]) /\
  marksInvocations isPrimaryDetection
    (autoRemoveBackgroundPeople Examples.offlineServices "img"
       (Examples.withMaxRetries (5 # 2))) /\
  countEvents isPrimaryDetection
    (snd (removeWithRetry Examples.offlineServices "img"
            (Examples.withMaxRetries (5 # 2)) [])) = 2%nat /\
  ~ (inject_Z 2 == orDefault (maxRetries (Examples.withMaxRetries (5 # 2))) 2)%Q /\
  error (lastAttemptResult
           (fst (autoRemoveBackgroundPeople Examples.offlineServices "img"
                   (Examples.withMaxRetries (5 # 2))
                   [EvAttempt 1 (5 # 2); EvRun SAM2; EvRun YOLOv8; EvWait 1000;
                    EvAttempt 2 (5 # 2)])))
  = Some "Both SAM-2 and YOLO detection failed: Failed to detect people: offline" /\
  error maxRetriesExceeded = Some "Max retries exceeded".
Proof.
  split; [unfold Qle; simpl; lia|].
  split; [intros w; apply offline_pipeline_fails|].
  split; [vm_compute; reflexivity|].
  split; [apply offline_pipeline_marked|].
  split; [vm_compute; reflexivity|].
  split; [intros Heq; vm_compute in Heq; discriminate Heq|].
  split; vm_compute; reflexivity.
Qed.

Lemma retry_backoff_schedule_witness :
  exists before after,
    wrapperEvents
      (snd (removeWithRetry Examples.offlineServices "img" (Examples.withMaxRetries 3) []))
    = (before ++ EvWait 2000 :: EvAttempt 3 3 :: after)%list.
Proof.
  destruct (retry_backoff_schedule
              (autoRemoveBackgroundPeople Examples.offlineServices)
              "img" (Examples.withMaxRetries 3)
              (autoRemoveBackgroundPeople_runs Examples.offlineServices) [])
    as (events & count & Hev & _ & _ & Hk).
  cbn [app] in Hev. unfold removeWithRetry. rewrite Hev.
  assert (Hin : In (EvAttempt 3 (orDefault (maxRetries (Examples.withMaxRetries 3)) 2%Q))
                   events).
  { rewrite <- Hev. vm_compute. tauto. }
  assert (Htwo : (2 <= 3)%Z) by lia.
  destruct (Hk 3%Z Htwo Hin) as (_ & before & after & Hshape).
  exists before, after. exact Hshape.
Defined.

(** * Further properties *)

(** ** Scoring engine: the shape of each factor *)

Lemma weights_sum_to_one :
  (Weights.position + Weights.size + Weights.centrality + Weights.orientation
   + Weights.clarity = 1)%R.
Proof.
  unfold Weights.position, Weights.size, Weights.centrality, Weights.orientation,
    Weights.clarity. lra.
Qed.

Lemma weightedSum_in_range (f : Factors) :
  inScoreRange (position f) -> inScoreRange (size f) -> inScoreRange (clarity f) ->
  inScoreRange (centrality f) -> inScoreRange (orientation f) ->
  inScoreRange (weightedSum f).
Proof.
  unfold inScoreRange, weightedSum, Weights.position, Weights.size, Weights.centrality,
    Weights.orientation, Weights.clarity. intros. lra.
Qed.

Lemma score_is_clamped_sum (person : PersonMask) (imageWidth imageHeight : R) :
  score (calculateForegroundScore person imageWidth imageHeight)
  = Rmax 0 (Rmin 100
              (weightedSum (factors (calculateForegroundScore person imageWidth
                                       imageHeight)))).
Proof. reflexivity. Qed.

(** X1. For a person with confidence in [0,1] and a bounding box within an
    image of positive size, the final clamp changes nothing: the score is
    exactly the weighted sum 0.30 position + 0.25 size + 0.20 centrality +
    0.15 orientation + 0.10 clarity of the reported factors. *)
Theorem score_is_weighted_sum (person : PersonMask) (imageWidth imageHeight : R) :
  (0 <= confidence person <= 1)%R ->
  bboxWithinImage (bbox person) imageWidth imageHeight ->
  (0 < imageWidth)%R -> (0 < imageHeight)%R ->
  let s := calculateForegroundScore person imageWidth imageHeight in
  score s = (0.30 * position (factors s) + 0.25 * size (factors s)
             + 0.20 * centrality (factors s) + 0.15 * orientation (factors s)
             + 0.10 * clarity (factors s))%R.
Proof.
  intros Hc (Hx & Hy & Hw & Hh & Hxw & Hyh) HW HH s.
  assert (Hsum : inScoreRange (weightedSum (factors s))).
  { subst s. apply weightedSum_in_range; cbn [factors calculateForegroundScore position
      size clarity centrality orientation].
    - now apply positionScore_in_range.
    - now apply sizeScore_in_range.
    - now apply clarityScore_in_range.
    - apply centralityScore_in_range.
    - apply orientationScore_in_range. }
  subst s. rewrite score_is_clamped_sum.
  destruct Hsum as [Hlo Hhi].
  rewrite Rmin_right by exact Hhi. rewrite Rmax_right by exact Hlo.
  unfold weightedSum, Weights.position, Weights.size, Weights.centrality,
    Weights.orientation, Weights.clarity. ring.
Qed.

Lemma score_is_weighted_sum_witness :
  score (calculateForegroundScore Examples.insidePerson 1024 1024)
  = (0.30 * position (factors (calculateForegroundScore Examples.insidePerson 1024 1024))
     + 0.25 * size (factors (calculateForegroundScore Examples.insidePerson 1024 1024))
     + 0.20 * centrality (factors (calculateForegroundScore Examples.insidePerson 1024 1024))
     + 0.15 * orientation (factors (calculateForegroundScore Examples.insidePerson 1024 1024))
     + 0.10 * clarity (factors (calculateForegroundScore Examples.insidePerson 1024 1024)))%R.
Proof.
  assert (Hc : (0 <= confidence Examples.insidePerson <= 1)%R) by (simpl; lra).
  assert (Hb : bboxWithinImage (bbox Examples.insidePerson) 1024 1024)
    by (unfold bboxWithinImage; simpl; lra).
  assert (HW : (0 < 1024)%R) by lra.
  exact (score_is_weighted_sum Examples.insidePerson 1024 1024 Hc Hb HW HW).
Defined.

Ltac float_discriminate H :=
  match type of H with
  | ?a = ?b =>
      apply (f_equal (fun x => PrimFloat.eqb x b)) in H; vm_compute in H; discriminate H
  end.

Section OrientationBinary64.

Import PrimFloat.
Local Open Scope float_scope.

(** X4. On binary64 numbers, for all inputs whatever (NaN and the infinities
    included), the orientation factor only takes the values 50, 70, 80 and
    100: 50, plus 30 when the test [centerY > imageHeight * 0.3] succeeds,
    plus 20 when both [centerX > imageWidth * 0.2] and [centerX < imageWidth
    * 0.8] succeed, as the code computes these numbers and tests; the cap at
    100 is reached exactly when all tests succeed, and 50 is returned
    exactly when the first test and the pair of the other two fail. *)
Theorem orientation_values_binary64 (person : Binary64.PersonMask)
    (imageWidth imageHeight : float) :
  let centerX := Binary64.bx (Binary64.bbox person) + Binary64.bw (Binary64.bbox person) / 2 in
  let centerY := Binary64.by_ (Binary64.bbox person) + Binary64.bh (Binary64.bbox person) / 2 in
  let isInForegroundArea := imageHeight * 0.3 <? centerY in
  let isInCenterHorizontal :=
    (imageWidth * 0.2 <? centerX) && (centerX <? imageWidth * 0.8) in
  let o := Binary64.calculateOrientationScore person imageWidth imageHeight in
  (o = 50 \/ o = 70 \/ o = 80 \/ o = 100) /\
  (o = 100 <-> isInForegroundArea = true /\ isInCenterHorizontal = true) /\
  (o = 50 <-> isInForegroundArea = false /\ isInCenterHorizontal = false).
Proof.
  unfold Binary64.calculateOrientationScore. destruct (Binary64.bbox person) as [x y w h].
  cbn [Binary64.bx Binary64.by_ Binary64.bw Binary64.bh]. cbv zeta.
  destruct (imageHeight * 0.3 <? y + h / 2);
    destruct ((imageWidth * 0.2 <? x + w / 2) && (x + w / 2 <? imageWidth * 0.8));
    [ change (Binary64.Math_min 100 (50 + 30 + 20)) with 100
    | change (Binary64.Math_min 100 (50 + 30)) with 80
    | change (Binary64.Math_min 100 (50 + 20)) with 70
    | change (Binary64.Math_min 100 50) with 50 ];
    (split; [tauto |]); split; split;
    try (intros [? ?]; discriminate); try (intros _; split; reflexivity);
    try reflexivity; try (intros H; float_discriminate H).
Qed.

End OrientationBinary64.

(** Order on binary64 numbers, from the specification of the comparisons. *)
Lemma SFcompare_antisym (a b : SpecFloat.spec_float) (c : comparison) :
  SpecFloat.SFcompare a b = Some c -> SpecFloat.SFcompare b a = Some (CompOpp c).
Proof.
  destruct a as [s1|s1| |s1 m1 e1], b as [s2|s2| |s2 m2 e2]; cbn [SpecFloat.SFcompare];
    try discriminate; intros [= <-];
    try (destruct s1; reflexivity); try (destruct s2; reflexivity);
    try (destruct s1, s2; reflexivity).
  destruct s1, s2; try reflexivity;
    rewrite (Z.compare_antisym e1 e2); destruct (e1 ?= e2)%Z; cbn [CompOpp]; try reflexivity;
    change PosDef.Pos.compare_cont with Pos.compare_cont;
    rewrite (Pos.compare_cont_antisym m1 m2 Eq); reflexivity.
Qed.

Lemma float_not_nan (x : PrimFloat.float) :
  PrimFloat.is_nan x = false -> FloatOps.Prim2SF x <> SpecFloat.S754_nan.
Proof.
  unfold PrimFloat.is_nan. rewrite FloatAxioms.eqb_spec. intros H Hnan. rewrite Hnan in H.
  discriminate.
Qed.

Lemma float_lt_le (x y : PrimFloat.float) :
  PrimFloat.ltb x y = true -> PrimFloat.leb x y = true.
Proof.
  rewrite FloatAxioms.ltb_spec, FloatAxioms.leb_spec. unfold SpecFloat.SFltb, SpecFloat.SFleb.
  destruct (SpecFloat.SFcompare _ _) as [[| |]|]; congruence.
Qed.

Lemma float_not_lt_le (x y : PrimFloat.float) :
  PrimFloat.is_nan x = false -> PrimFloat.is_nan y = false ->
  PrimFloat.ltb y x = false -> PrimFloat.leb x y = true.
Proof.
  intros Hx Hy. apply float_not_nan in Hx, Hy.
  rewrite FloatAxioms.ltb_spec, FloatAxioms.leb_spec. unfold SpecFloat.SFltb, SpecFloat.SFleb.
  destruct (SpecFloat.SFcompare (FloatOps.Prim2SF y) (FloatOps.Prim2SF x)) as [c|] eqn:Hc.
  - rewrite (SFcompare_antisym _ _ _ Hc). destruct c; cbn [CompOpp]; congruence.
  - exfalso. destruct (FloatOps.Prim2SF y) as [s1|s1| |s1 m1 e1];
      destruct (FloatOps.Prim2SF x) as [s2|s2| |s2 m2 e2]; cbn [SpecFloat.SFcompare] in Hc;
      congruence.
Qed.

Section ClampBinary64.

Import PrimFloat.
Local Open Scope float_scope.

(** [Math.max(0, Math.min(100, x))] on binary64 numbers. *)
Lemma clamp_binary64 (x : float) :
  let r := Binary64.Math_max 0 (Binary64.Math_min 100 x) in
  (is_nan x = true -> is_nan r = true) /\
  (is_nan x = false -> Binary64.inScoreRange r = true).
Proof.
  cbv zeta. unfold Binary64.Math_min.
  change (is_nan 100) with false. cbn [orb].
  change (get_sign 100) with false. cbv iota.
  destruct (is_nan x) eqn:Hnan.
  - split; [reflexivity | discriminate].
  - split; [discriminate | intros _].
    destruct (100 <? x) eqn:Hbig; [reflexivity|].
    assert (Hle : (x <=? 100) = true) by (apply float_not_lt_le; auto).
    assert (Hm : (if x <? 100 then x else x) = x) by (destruct (x <? 100); reflexivity).
    rewrite Hm. unfold Binary64.Math_max.
    change (is_nan 0) with false. rewrite Hnan. cbn [orb].
    change (get_sign 0) with false. cbv iota.
    destruct (0 <? x) eqn:Hpos.
    + unfold Binary64.inScoreRange. rewrite (float_lt_le _ _ Hpos), Hle. reflexivity.
    + destruct (x <? 0); reflexivity.
Qed.

(** X31. On binary64 numbers, for every person, every image size and every
    engine's [Math.exp] (NaN and the infinities included among the inputs):
    the final score is the clamp of the weighted sum of the reported
    factors; it is NaN when that sum is NaN, and otherwise it lies within
    [0, 100]. *)
Theorem score_clamp_binary64 (approximateExp : float -> float)
    (person : Binary64.PersonMask) (imageWidth imageHeight : float) :
  let s := Binary64.calculateForegroundScore approximateExp person imageWidth imageHeight in
  let finalScore := Binary64.weightedSum (Binary64.factors s) in
  Binary64.score s = Binary64.Math_max 0 (Binary64.Math_min 100 finalScore) /\
  (is_nan finalScore = true -> is_nan (Binary64.score s) = true) /\
  (is_nan finalScore = false -> Binary64.inScoreRange (Binary64.score s) = true).
Proof.
  intros s finalScore. split; [reflexivity|].
  change (Binary64.score s) with (Binary64.Math_max 0 (Binary64.Math_min 100 finalScore)).
  apply clamp_binary64.
Qed.

End ClampBinary64.

(** X5. The clarity factor is 70 + 30 x confidence up to confidence 1 and
    100 from there on, so it never decreases when the confidence grows. *)
Theorem clarityScore_profile (p q : PersonMask) :
  ((confidence p <= 1)%R -> calculateClarityScore p = (70 + confidence p * 30)%R) /\
  ((1 <= confidence p)%R -> calculateClarityScore p = 100%R) /\
  ((confidence p <= confidence q)%R ->
   (calculateClarityScore p <= calculateClarityScore q)%R).
Proof.
  unfold calculateClarityScore, Rmin. cbv zeta.
  destruct (Rle_dec 100 (70 + confidence p * 30));
    destruct (Rle_dec 100 (70 + confidence q * 30)); repeat split; intros; lra.
Qed.

Lemma clarityScore_profile_witness :
  calculateClarityScore Examples.insidePerson = (70 + 0.8 * 30)%R.
Proof.
  destruct (clarityScore_profile Examples.insidePerson Examples.insidePerson) as (H & _).
  apply H. simpl. lra.
Defined.

(** ** Separator: who is kept *)

Lemma same_id_same_mask (l : list PersonMask) (a b : PersonMask) :
  NoDup (map id l) -> In a l -> In b l -> id a = id b -> a = b.
Proof.
  induction l as [|m rest IH]; intros Hnd Ha Hb Hid; [contradiction|].
  inversion Hnd as [|? ? Hnotin Hrest]; subst.
  destruct Ha as [<-|Ha]; destruct Hb as [<-|Hb].
  - reflexivity.
  - exfalso. apply Hnotin. rewrite Hid. now apply in_map.
  - exfalso. apply Hnotin. rewrite <- Hid. now apply in_map.
  - now apply IH.
Qed.

Lemma filter_keeps_all {A} (f : A -> bool) (l : list A) :
  (forall x, In x l -> f x = true) ->
  filter f l = l /\ filter (fun x => negb (f x)) l = [].
Proof.
  induction l as [|a rest IH]; intros Hall; [split; reflexivity|].
  simpl. rewrite (Hall a (or_introl eq_refl)). simpl.
  destruct IH as [IH1 IH2]; [intros x Hx; apply Hall; now right|].
  rewrite IH1, IH2. split; reflexivity.
Qed.

(** X7. When targetForegroundCount is at least the number of detected
    people, everybody is kept: the foreground is the whole input, in
    detection order, and the background is empty (whatever the ids are). *)
Theorem separate_keeps_everyone (detectionResult : DetectionResult)
    (targetForegroundCount : Q) :
  (inject_Z (lengthZ (masks detectionResult)) <= targetForegroundCount)%Q ->
  foregroundMasks (separateForegroundBackground detectionResult targetForegroundCount)
  = masks detectionResult /\
  backgroundMasks (separateForegroundBackground detectionResult targetForegroundCount) = [].
Proof.
  intros Hcount.
  destruct (masks detectionResult) as [|m0 rest0] eqn:Hm.
  { rewrite separate_empty by exact Hm. split; reflexivity. }
  assert (Hne : masks detectionResult <> []) by (rewrite Hm; discriminate).
  rewrite <- Hm in *. clear Hm m0 rest0.
  rewrite separate_unfold by exact Hne. cbv zeta. cbn [foregroundMasks backgroundMasks].
  apply filter_keeps_all. intros x Hx. apply includes_In.
  unfold foregroundIdsOf, slice0. cbv zeta. rewrite sorted_length.
  unfold lengthZ in Hcount.
  rewrite (toIntegerOrInfinity_comp _
             (inject_Z (Z.of_nat (List.length (masks detectionResult)))))
    by (apply Q.min_r; exact Hcount).
  rewrite toIntegerOrInfinity_integer.
  destruct (Z.ltb_spec (Z.of_nat (List.length (masks detectionResult))) 0); [lia|].
  rewrite Z.min_id, Nat2Z.id, <- sorted_length, firstn_all.
  eapply Permutation_in; [apply Permutation_sym, sorted_ids_perm | now apply in_map].
Qed.

Lemma separate_keeps_everyone_witness :
  backgroundMasks (separateForegroundBackground (Examples.scenarioB "m") 5) = [].
Proof.
  apply (separate_keeps_everyone (Examples.scenarioB "m") 5).
  unfold lengthZ, Qle. simpl. lia.
Defined.

Lemma first_rejected_after_kept {A} (f : A -> bool) (l : list A) (first : A)
    (others : list A) :
  filter (fun x => negb (f x)) l = first :: others ->
  exists before after,
    l = (before ++ first :: after)%list /\
    Forall (fun m => In m (filter f l)) before.
Proof.
  induction l as [|m rest IH]; cbn [filter]; [discriminate|].
  destruct (f m) eqn:Hsel; cbn [negb].
  - intros Hbg. destruct (IH Hbg) as (before & after & -> & Hall).
    exists (m :: before), after. split; [reflexivity|]. constructor.
    + now left.
    + eapply Forall_impl; [|exact Hall]. intros x Hx. now right.
  - intros [= <- _]. exists [], rest. split; [reflexivity | constructor].
Qed.

(** X8. The mask handed to inpainting is the separator's merged
    backgroundMask, and both are the mask of the first background person in
    detection order: the masks of the other background people do not enter
    it. *)
Theorem inpainting_mask_is_first_background (detectionResult : DetectionResult)
    (targetForegroundCount : Q) (imageWidth imageHeight : R) :
  let r := separateForegroundBackground detectionResult targetForegroundCount in
  generateInpaintingMask (backgroundMasks r) imageWidth imageHeight = backgroundMask r /\
  (forall first others,
     backgroundMasks r = first :: others ->
     generateInpaintingMask (backgroundMasks r) imageWidth imageHeight = mask first /\
     exists before after,
       masks detectionResult = (before ++ first :: after)%list /\
       Forall (fun m => In m (foregroundMasks r)) before).
Proof.
  intros r.
  destruct (masks detectionResult) as [|m0 rest0] eqn:Hm.
  { subst r. rewrite separate_empty by exact Hm. split; [reflexivity | discriminate]. }
  assert (Hne : masks detectionResult <> []) by (rewrite Hm; discriminate).
  rewrite <- Hm. clear Hm m0 rest0.
  subst r. rewrite separate_unfold by exact Hne. cbv zeta.
  cbn [foregroundMasks backgroundMasks backgroundMask].
  split; [reflexivity|]. intros first others Hbg. rewrite Hbg. split; [reflexivity|].
  now apply first_rejected_after_kept in Hbg.
Qed.

Lemma inpainting_mask_is_first_background_witness :
  generateInpaintingMask
    (backgroundMasks (separateForegroundBackground (Examples.scenarioB "m") 1)) 1024 1024
  = "m".
Proof.
  destruct (examples_scenarioB_premises "m")
    as (Hid & Hconf & Hcentred & Hc & Hcorner & Hk).
  assert (HW : (0 < 1024)%R) by lra.
  destruct (scenarioB_partition (Examples.scenarioB "m")
              Examples.centredPerson (Examples.cornerPerson "m")
              HW HW (or_introl eq_refl) Hid Hconf Hcentred Hc Hcorner Hk) as [_ Hbg].
  destruct (inpainting_mask_is_first_background (Examples.scenarioB "m") 1 1024 1024)
    as [_ Hfirst].
  destruct (Hfirst (Examples.cornerPerson "m") [] Hbg) as [Hmask _]. exact Hmask.
Defined.

(** ** Detection adapters: what a detection result looks like *)

Lemma personIdOf_inj (i j : nat) : personIdOf i = personIdOf j -> i = j.
Proof.
  unfold personIdOf. intros H. cbn [append] in H. injection H as H.
  assert (Hu : Some (Nat.to_uint i) = Some (Nat.to_uint j)).
  { rewrite <- !NilEmpty.usu. now rewrite H. }
  injection Hu as Hu. rewrite <- (Unsigned.of_to i), <- (Unsigned.of_to j). now rewrite Hu.
Qed.

Lemma NoDup_personIds (js : list nat) : NoDup js -> NoDup (map personIdOf js).
Proof.
  induction 1 as [|j rest Hnotin Hrest IH]; simpl; constructor; [|exact IH].
  intros Hin. apply in_map_iff in Hin. destruct Hin as (j' & Heq & Hin).
  apply personIdOf_inj in Heq. now subst.
Qed.

Lemma mapi_from_ids (k : nat) (l : list RawSegment) :
  map id (mapi_from segmentToMask k l) = map personIdOf (seq k (List.length l)).
Proof.
  revert k. induction l as [|item rest IH]; intros k; simpl; [reflexivity|].
  now rewrite IH.
Qed.

Lemma mapi_from_nth {A B} (f : A -> nat -> B) (l : list A) :
  forall k n item, nth_error l n = Some item -> In (f item (k + n)%nat) (mapi_from f k l).
Proof.
  induction l as [|a rest IH]; intros k n item Hn; [destruct n; discriminate|].
  destruct n as [|n]; simpl in *.
  - injection Hn as ->. left. f_equal. lia.
  - right. replace (k + S n)%nat with (S k + n)%nat by lia. now apply IH.
Qed.

Lemma mapi_from_Forall {A B} (f : A -> nat -> B) (P : B -> Prop) (l : list A) :
  (forall item index, P (f item index)) -> forall k, Forall P (mapi_from f k l).
Proof.
  intros HP. induction l as [|a rest IH]; intros k; simpl; constructor; auto.
Qed.

Lemma segmentToMask_geometry (item : RawSegment) (index : nat) :
  id (segmentToMask item index) = personIdOf index /\
  centerPoint (segmentToMask item index) = bboxCenter (bbox (segmentToMask item index)) /\
  area (segmentToMask item index)
  = (bw (bbox (segmentToMask item index)) * bh (bbox (segmentToMask item index)))%R.
Proof. repeat split. Qed.

Lemma detectPeopleInImage_returns (env : Services) (imageUrl : string) (w w' : World)
    (detectionResult : DetectionResult) :
  detectPeopleInImage env imageUrl w = (Returns detectionResult, w') ->
  exists output,
    run_sam2 env w imageUrl = Output (Some output) /\
    w' = (w ++ [EvRun SAM2])%list /\
    detectionResult
    = {| masks := filter (fun mask => if Rgt_dec (confidence mask) 0.5 then true else false)
                    (mapi segmentToMask output);
         imageWidth := 1024; imageHeight := 1024 |}.
Proof.
  unfold detectPeopleInImage, try_catch, bind, await_run, throw, ret.
  destruct (run_sam2 env w imageUrl) as [e|[output|]]; try discriminate.
  intros [= <- <-]. exists output. repeat split.
Qed.

(** X9. Every result of the primary adapter [detectPeopleInImage] has masks
    with pairwise-distinct ids, each with confidence above 0.5, a centre
    point that is the centre of its bounding box and an area that is the
    area of its bounding box; it reports a 1024 x 1024 image, holds at most
    one mask per raw segment, and cost exactly one remote call, to SAM-2. *)
Theorem primary_detection_invariants (env : Services) (imageUrl : string) (w w' : World)
    (detectionResult : DetectionResult) :
  detectPeopleInImage env imageUrl w = (Returns detectionResult, w') ->
  w' = (w ++ [EvRun SAM2])%list /\
  imageWidth detectionResult = 1024%R /\ imageHeight detectionResult = 1024%R /\
  NoDup (map id (masks detectionResult)) /\
  Forall (fun p => (confidence p > 0.5)%R /\
                   centerPoint p = bboxCenter (bbox p) /\
                   area p = (bw (bbox p) * bh (bbox p))%R)
         (masks detectionResult) /\
  exists output,
    run_sam2 env w imageUrl = Output (Some output) /\
    (List.length (masks detectionResult) <= List.length output)%nat.
Proof.
  intros Hrun. destruct (detectPeopleInImage_returns _ _ _ _ _ Hrun) as (output & Hout & -> & ->).
  cbn [masks imageWidth imageHeight]. repeat split.
  - apply NoDup_map_filter. unfold mapi. rewrite mapi_from_ids.
    apply NoDup_personIds, seq_NoDup.
  - apply Forall_forall. intros p Hp. apply filter_In in Hp. destruct Hp as [Hin Hconf].
    split; [destruct (Rgt_dec (confidence p) 0.5); [assumption | discriminate]|].
    clear Hconf. revert p Hin. apply Forall_forall. unfold mapi. apply mapi_from_Forall.
    intros item index. split; reflexivity.
  - exists output. split; [exact Hout|].
    eapply Nat.le_trans; [apply filter_length_le|].
    unfold mapi. rewrite <- (length_map id), mapi_from_ids, length_map, length_seq. lia.
Qed.

Lemma primary_detection_invariants_witness :
  NoDup (map id (masks Examples.detectedOne)).
Proof.
  destruct (primary_detection_invariants Examples.primaryServices "img" []
              [EvRun SAM2] Examples.detectedOne (primary_detects_one "img" []))
    as (_ & _ & _ & Hids & _).
  exact Hids.
Defined.

(** X10. For the raw segment at position [index] of the SAM-2 output, the
    primary adapter keeps the mask built from it exactly when its confidence
    -- with a missing or zero confidence replaced by 0.8 -- exceeds 0.5.  So
    a segment reported with confidence 0, or with none, is kept with
    confidence 0.8, while one reported with a non-zero confidence of at most
    0.5 is dropped; and the mask with id "person_<index>", if present, is
    the one built from that segment. *)
Theorem primary_confidence_filter (env : Services) (imageUrl : string) (w w' : World)
    (detectionResult : DetectionResult) (output : list RawSegment)
    (index : nat) (item : RawSegment) :
  detectPeopleInImage env imageUrl w = (Returns detectionResult, w') ->
  run_sam2 env w imageUrl = Output (Some output) ->
  nth_error output index = Some item ->
  let p := segmentToMask item index in
  (In p (masks detectionResult) <-> (confidence p > 0.5)%R) /\
  (seg_confidence item = None \/ seg_confidence item = Some 0%R ->
   confidence p = 0.8%R /\ In p (masks detectionResult)) /\
  (forall c, seg_confidence item = Some c -> c <> 0%R -> (c <= 0.5)%R ->
             ~ In p (masks detectionResult)) /\
  (forall q, In q (masks detectionResult) -> id q = personIdOf index -> q = p).
Proof.
  intros Hrun Hout Hnth p.
  destruct (detectPeopleInImage_returns _ _ _ _ _ Hrun) as (output' & Hout' & -> & ->).
  rewrite Hout in Hout'. injection Hout' as <-. cbn [masks].
  assert (Hraw : In p (mapi segmentToMask output)).
  { unfold mapi. now apply (mapi_from_nth segmentToMask output 0 index item). }
  assert (Hiff : In p (filter (fun mask => if Rgt_dec (confidence mask) 0.5 then true
                                           else false) (mapi segmentToMask output))
                 <-> (confidence p > 0.5)%R).
  { rewrite filter_In. destruct (Rgt_dec (confidence p) 0.5); split; intros; intuition.
    discriminate. }
  split; [exact Hiff|]. split; [|split].
  - intros Hconf.
    assert (Hdefault : confidence p = 0.8%R).
    { subst p. unfold segmentToMask. cbn [confidence].
      destruct Hconf as [-> | ->]; cbn [numberOr]; [reflexivity|].
      destruct (Req_dec_T 0 0); [reflexivity | contradiction]. }
    split; [exact Hdefault|]. apply Hiff. rewrite Hdefault. lra.
  - intros c Hc Hnz Hlow Hin. apply Hiff in Hin.
    subst p. unfold segmentToMask in Hin. cbn [confidence] in Hin. rewrite Hc in Hin.
    cbn [numberOr] in Hin. destruct (Req_dec_T c 0); [contradiction | lra].
  - intros q Hq Hid. apply filter_In in Hq. destruct Hq as [Hq _].
    apply (same_id_same_mask (mapi segmentToMask output)); try assumption.
    unfold mapi. rewrite mapi_from_ids. apply NoDup_personIds, seq_NoDup.
Qed.

Lemma detectPeopleInImage_on_output (env : Services) (imageUrl : string) (w : World)
    (output : list RawSegment) :
  run_sam2 env w imageUrl = Output (Some output) ->
  detectPeopleInImage env imageUrl w
  = (Returns {| masks := filter (fun mask => if Rgt_dec (confidence mask) 0.5 then true
                                             else false)
                           (mapi segmentToMask output);
                imageWidth := 1024; imageHeight := 1024 |},
     (w ++ [EvRun SAM2])%list).
Proof.
  intros Hout. unfold detectPeopleInImage, try_catch, bind, await_run, throw, ret.
  now rewrite Hout.
Qed.

Lemma primary_confidence_filter_witness :
  exists detectionResult w',
    detectPeopleInImage MoreExamples.zeroConfidenceServices "img" []
    = (Returns detectionResult, w') /\
    In (segmentToMask MoreExamples.zeroConfidenceSegment 0) (masks detectionResult) /\
    confidence (segmentToMask MoreExamples.zeroConfidenceSegment 0) = 0.8%R.
Proof.
  pose proof (detectPeopleInImage_on_output MoreExamples.zeroConfidenceServices "img" []
                [MoreExamples.zeroConfidenceSegment] eq_refl) as Hrun.
  destruct (primary_confidence_filter MoreExamples.zeroConfidenceServices "img" [] _ _
              [MoreExamples.zeroConfidenceSegment] 0 MoreExamples.zeroConfidenceSegment
              Hrun eq_refl eq_refl) as (_ & Hzero & _).
  destruct (Hzero (or_intror eq_refl)) as [Hconf Hin].
  eexists; eexists. split; [exact Hrun|]. split; [exact Hin | exact Hconf].
Defined.

Section FallbackChain.

Variable env : Services.

(** What the loop over the boxes adds to the masks collected so far. *)
Lemma refineBoxes_returns (imageUrl : string) (yoloOutput : list RawBox) :
  forall (i : nat) (collected : list PersonMask) (w w' : World) (result : list PersonMask),
    refineBoxes env imageUrl i yoloOutput collected w = (Returns result, w') ->
    exists added indices,
      result = (collected ++ added)%list /\
      map id added = map personIdOf indices /\
      NoDup indices /\
      Forall (fun j => (i <= j)%nat) indices /\
      (List.length added <= List.length yoloOutput)%nat /\
      Forall (fun p => mask p <> "" /\
                       centerPoint p = bboxCenter (bbox p) /\
                       area p = (bw (bbox p) * bh (bbox p))%R) added /\
      w' = (w ++ repeat (EvRun SAM) (List.length yoloOutput))%list.
Proof.
  induction yoloOutput as [|detection rest IH]; intros i collected w w' result.
  - cbn [refineBoxes]. unfold ret. intros [= <- <-]. exists [], [].
    rewrite !app_nil_r. repeat split; constructor.
  - cbn [refineBoxes]. unfold bind at 1. unfold await_run.
    destruct (run_sam env w imageUrl (bboxOr (box_bbox detection) defaultBBox))
      as [e|samOutput]; [discriminate|].
    assert (Hskip :
      refineBoxes env imageUrl (S i) rest collected (w ++ [EvRun SAM])%list
      = (Returns result, w') ->
      exists added indices,
        result = (collected ++ added)%list /\
        map id added = map personIdOf indices /\
        NoDup indices /\
        Forall (fun j => (i <= j)%nat) indices /\
        (List.length added <= List.length (detection :: rest))%nat /\
        Forall (fun p => mask p <> "" /\
                         centerPoint p = bboxCenter (bbox p) /\
                         area p = (bw (bbox p) * bh (bbox p))%R) added /\
        w' = (w ++ repeat (EvRun SAM) (List.length (detection :: rest)))%list).
    { intros Hrest. destruct (IH _ _ _ _ _ Hrest)
        as (added & indices & -> & Hids & Hnd & Hge & Hlen & Hall & ->).
      exists added, indices. repeat split; try assumption.
      - eapply Forall_impl; [|exact Hge]. intros j Hj. simpl in Hj. lia.
      - simpl. lia.
      - simpl. now rewrite <- app_assoc. }
    destruct samOutput as [[[m|]]|]; try exact Hskip.
    destruct (m =? "") eqn:Hm; [exact Hskip|].
    intros Hrest. destruct (IH _ _ _ _ _ Hrest)
      as (added & indices & -> & Hids & Hnd & Hge & Hlen & Hall & ->).
    eexists (_ :: added), (i :: indices). repeat split.
    + rewrite <- app_assoc. reflexivity.
    + simpl. now rewrite Hids.
    + constructor; [|exact Hnd]. intros Hin. rewrite Forall_forall in Hge.
      specialize (Hge i Hin). lia.
    + constructor; [lia|]. eapply Forall_impl; [|exact Hge]. intros j Hj. simpl in Hj. lia.
    + simpl. lia.
    + constructor; [|exact Hall]. cbn [mask centerPoint bbox area]. repeat split.
      intros ->. discriminate.
    + simpl. now rewrite <- app_assoc.
Qed.

(** X11. Every result of the fallback adapter [detectPeopleWithYOLO] came
    from one YOLO call followed by exactly one SAM call per detected box; it
    holds at most one mask per box, the masks have pairwise-distinct ids and
    non-empty mask references, each has its centre point at the centre of
    its bounding box and the area of its bounding box, and the image is
    reported as 1024 x 1024. *)
Theorem fallback_detection_invariants (imageUrl : string) (w w' : World)
    (detectionResult : DetectionResult) :
  detectPeopleWithYOLO env imageUrl w = (Returns detectionResult, w') ->
  exists yoloOutput,
    run_yolo env w imageUrl = Output (Some yoloOutput) /\
    w' = (w ++ EvRun YOLOv8 :: repeat (EvRun SAM) (List.length yoloOutput))%list /\
    (List.length (masks detectionResult) <= List.length yoloOutput)%nat /\
    NoDup (map id (masks detectionResult)) /\
    Forall (fun p => mask p <> "" /\
                     centerPoint p = bboxCenter (bbox p) /\
                     area p = (bw (bbox p) * bh (bbox p))%R)
           (masks detectionResult) /\
    imageWidth detectionResult = 1024%R /\ imageHeight detectionResult = 1024%R.
Proof.
  unfold detectPeopleWithYOLO, try_catch. unfold bind at 1. unfold await_run.
  destruct (run_yolo env w imageUrl) as [e|[yoloOutput|]]; try discriminate.
  unfold bind at 1.
  destruct (refineBoxes env imageUrl 0 yoloOutput [] (w ++ [EvRun YOLOv8])%list)
    as [[result|e] w1] eqn:Hloop; [|discriminate].
  unfold ret. intros [= <- <-]. cbn [masks imageWidth imageHeight].
  destruct (refineBoxes_returns _ _ _ _ _ _ _ Hloop)
    as (added & indices & -> & Hids & Hnd & _ & Hlen & Hall & ->).
  cbn [app]. exists yoloOutput. repeat split; try assumption.
  - now rewrite <- app_assoc.
  - rewrite Hids. now apply NoDup_personIds.
Qed.

(** X12. A refinement call that throws is fatal for the fallback adapter:
    when the SAM call for the first box throws, [detectPeopleWithYOLO]
    throws an Error whose message is "Failed to detect people with YOLO +
    SAM: " followed by the text of what was thrown, and the remaining boxes
    are not refined.  A refinement that resolves without a mask (no output,
    no mask field, or an empty mask) is not fatal: that box is skipped and
    the next one is refined. *)
Theorem fallback_refinement_faults (imageUrl : string) (w : World)
    (box : RawBox) (rest : list RawBox) :
  run_yolo env w imageUrl = Output (Some (box :: rest)) ->
  let w1 := (w ++ [EvRun YOLOv8])%list in
  let reply := run_sam env w1 imageUrl (bboxOr (box_bbox box) defaultBBox) in
  (forall e,
     reply = Throws e ->
     detectPeopleWithYOLO env imageUrl w
     = (Throw (ErrorObj ("Failed to detect people with YOLO + SAM: " ++ errorText e)),
        (w1 ++ [EvRun SAM])%list)) /\
  (reply = Output None \/ reply = Output (Some {| sam_mask := None |})
   \/ reply = Output (Some {| sam_mask := Some "" |}) ->
   refineBoxes env imageUrl 0 (box :: rest) [] w1
   = refineBoxes env imageUrl 1 rest [] (w1 ++ [EvRun SAM])%list).
Proof.
  intros Hyolo w1 reply. split.
  - intros e He. unfold detectPeopleWithYOLO, try_catch. unfold bind at 1.
    unfold await_run. rewrite Hyolo. unfold bind at 1. cbn [refineBoxes].
    unfold bind at 1. unfold await_run. fold w1. fold reply. rewrite He. reflexivity.
  - intros Hreply. cbn [refineBoxes]. unfold bind at 1. unfold await_run. fold reply.
    destruct Hreply as [-> | [-> | ->]]; reflexivity.
Qed.

End FallbackChain.

Lemma fallback_detection_invariants_witness :
  exists yoloOutput,
    run_yolo Examples.fallbackServices [EvRun SAM2] "img" = Output (Some yoloOutput) /\
    (List.length (masks Examples.detectedOne) <= List.length yoloOutput)%nat.
Proof.
  destruct (fallback_detection_invariants Examples.fallbackServices "img" [EvRun SAM2] _
              Examples.detectedOne (fallback_detects_one "img" [EvRun SAM2]))
    as (yoloOutput & Hyolo & _ & Hlen & _).
  exists yoloOutput. split; assumption.
Defined.

Lemma fallback_refinement_faults_witness :
  detectPeopleWithYOLO MoreExamples.refinementThrowsServices "img" []
  = (Throw (ErrorObj "Failed to detect people with YOLO + SAM: SAM unavailable"),
     [EvRun YOLOv8; EvRun SAM]).
Proof.
  destruct (fallback_refinement_faults MoreExamples.refinementThrowsServices "img" []
              _ [] eq_refl) as [Hthrow _].
  exact (Hthrow (ErrorObj "SAM unavailable") eq_refl).
Defined.

(** ** Inpainting: back-ends, selector and prompt *)

Section BackendProperties.

Variable env : Services.

Lemma inpaintWith_cases (s : Service) (label modelUsed imageUrl maskUrl prompt : string)
    (w : World) :
  inpaintWith env s label modelUsed imageUrl maskUrl prompt w
  = match run_inpainting env s w imageUrl maskUrl prompt with
    | Output (Some (resultUrl :: _)) =>
        (Returns {| ir_resultUrl := resultUrl;
                    ir_processingTime :=
                      (Date_now env (w ++ [EvRun s])%list - Date_now env w)%Z;
                    ir_modelUsed := modelUsed |},
         (w ++ [EvRun s])%list)
    | Throws e =>
        (Throw (ErrorObj ("Failed to inpaint with " ++ label ++ ": " ++ errorText e)),
         (w ++ [EvRun s])%list)
    | _ =>
        (Throw (ErrorObj ("Failed to inpaint with " ++ label ++ ": "
                          ++ label ++ " inpainting did not return valid output")),
         (w ++ [EvRun s])%list)
    end.
Proof.
  unfold inpaintWith, try_catch, bind, now, await_run, throw, ret.
  destruct (run_inpainting env s w imageUrl maskUrl prompt) as [e|[[|u rest]|]]; reflexivity.
Qed.

(** X13. An inpainting back-end makes one remote call.  When the call
    resolves to a non-empty array it returns the first element as resultUrl,
    with the back-end's model name and the time the call took; when the call
    throws, or resolves to anything else, it throws an Error whose message
    starts with "Failed to inpaint with <name>: " and continues with the
    text of what was thrown, or with "<name> inpainting did not return valid
    output". *)
Theorem backend_outcome (s : Service) (label modelUsed imageUrl maskUrl prompt : string)
    (w : World) :
  let reply := run_inpainting env s w imageUrl maskUrl prompt in
  let run := inpaintWith env s label modelUsed imageUrl maskUrl prompt w in
  snd run = (w ++ [EvRun s])%list /\
  (forall resultUrl others,
     reply = Output (Some (resultUrl :: others)) ->
     fst run = Returns {| ir_resultUrl := resultUrl;
                          ir_processingTime :=
                            (Date_now env (w ++ [EvRun s])%list - Date_now env w)%Z;
                          ir_modelUsed := modelUsed |}) /\
  (forall e,
     reply = Throws e ->
     fst run = Throw (ErrorObj ("Failed to inpaint with " ++ label ++ ": " ++ errorText e))) /\
  (reply = Output None \/ reply = Output (Some []) ->
   fst run = Throw (ErrorObj ("Failed to inpaint with " ++ label ++ ": "
                              ++ label ++ " inpainting did not return valid output"))).
Proof.
  intros reply run. subst run. rewrite inpaintWith_cases. fold reply.
  split; [destruct reply as [e|[[|u rest]|]]; reflexivity|].
  split; [|split].
  - intros resultUrl others ->. reflexivity.
  - intros e ->. reflexivity.
  - intros [-> | ->]; reflexivity.
Qed.

Lemma attemptOrder_reports (preferredModel : option string) :
  Forall2 (reportsService env) (attemptOrder env preferredModel)
          (attemptedServices preferredModel).
Proof.
  unfold attemptOrder, attemptedServices.
  apply Forall2_app;
    [|unfold models; repeat constructor; eexists; reflexivity].
  destruct preferredModel as [name|]; [|constructor].
  unfold lookupModel, serviceOfName, models. cbn [find fst].
  rewrite (String.eqb_sym name "stability"), (String.eqb_sym name "runwayml"),
    (String.eqb_sym name "flux").
  destruct ("stability" =? name); [repeat constructor; eexists; reflexivity|].
  destruct ("runwayml" =? name); [repeat constructor; eexists; reflexivity|].
  destruct ("flux" =? name); [repeat constructor; eexists; reflexivity|].
  constructor.
Qed.

Lemma attemptedServices_shape (preferredModel : option string) :
  (List.length (attemptedServices preferredModel) <= 4)%nat /\
  Forall (fun s => isInpaintingService s = true) (attemptedServices preferredModel).
Proof.
  unfold attemptedServices, serviceOfName. destruct preferredModel as [name|].
  - destruct (name =? "stability"); [split; [simpl; lia | repeat constructor]|].
    destruct (name =? "runwayml"); [split; [simpl; lia | repeat constructor]|].
    destruct (name =? "flux"); split; simpl; try lia; repeat constructor.
  - split; [simpl; lia | repeat constructor].
Qed.

Lemma firstSuccess_returns (imageUrl maskUrl prompt : string)
    (attempts : list (string * (string -> string -> string -> M InpaintingResult)))
    (services : list Service) :
  Forall2 (reportsService env) attempts services ->
  forall (w w' : World) (r : InpaintingResult),
    firstSuccess imageUrl maskUrl prompt attempts w = (Returns r, w') ->
    exists failed s remaining,
      services = (failed ++ s :: remaining)%list /\
      w' = (w ++ map EvRun (failed ++ [s]))%list /\
      ir_modelUsed r = modelIdOf s /\
      exists others,
        run_inpainting env s (w ++ map EvRun failed)%list imageUrl maskUrl prompt
        = Output (Some (ir_resultUrl r :: others)).
Proof.
  induction 1 as [|model s rest ss Hmodel Hrest IH]; intros w w' r.
  - cbn [firstSuccess]. unfold throw. discriminate.
  - destruct Hmodel as [label Hcalls]. cbn [firstSuccess]. rewrite Hcalls.
    unfold try_catch. rewrite inpaintWith_cases.
    destruct (run_inpainting env s w imageUrl maskUrl prompt) as [e|[[|u others]|]] eqn:Hreply.
    3: { intros [= <- <-]. exists [], s, ss. cbn [app map ir_modelUsed ir_resultUrl].
         rewrite app_nil_r. repeat split. exists others. exact Hreply. }
    all: intros Hlater; destruct (IH _ _ _ Hlater)
           as (failed & s' & remaining & -> & -> & Hid & others' & Hreply');
         exists (s :: failed), s', remaining; cbn [app map];
         rewrite <- app_assoc; repeat split; try assumption;
         exists others'; rewrite <- app_assoc in Hreply'; exact Hreply'.
Qed.

(** X14. Whenever [smartInpainting] returns, the result comes from the last
    service it called: the services called are a prefix of the attempt
    order "preferred (if it names a back-end), stability, runwayml, flux" --
    so at most four calls, all to inpainting services --, the reported
    modelUsed is the model name of the last one called, and resultUrl is the
    first element of that call's output. *)
Theorem smartInpainting_reports_producer (imageUrl maskUrl prompt : string)
    (preferredModel : option string) (w w' : World) (r : InpaintingResult) :
  smartInpainting env imageUrl maskUrl prompt preferredModel w = (Returns r, w') ->
  exists failed s remaining,
    attemptedServices preferredModel = (failed ++ s :: remaining)%list /\
    w' = (w ++ map EvRun (failed ++ [s]))%list /\
    (List.length (failed ++ [s]) <= 4)%nat /\
    Forall (fun s => isInpaintingService s = true) (failed ++ [s])%list /\
    ir_modelUsed r = modelIdOf s /\
    exists others,
      run_inpainting env s (w ++ map EvRun failed)%list imageUrl maskUrl prompt
      = Output (Some (ir_resultUrl r :: others)).
Proof.
  rewrite smartInpainting_refines. intros Hrun.
  destruct (firstSuccess_returns _ _ _ _ _ (attemptOrder_reports preferredModel) _ _ _ Hrun)
    as (failed & s & remaining & Hshape & -> & Hid & Hreply).
  destruct (attemptedServices_shape preferredModel) as [Hlen Hall].
  rewrite Hshape in Hlen, Hall. exists failed, s, remaining.
  split; [exact Hshape|]. split; [reflexivity|]. split; [|split; [|split; assumption]].
  - rewrite length_app in *. simpl in *. lia.
  - apply Forall_app in Hall. destruct Hall as [Hf Hs]. apply Forall_app. split; [exact Hf|].
    inversion Hs; subst. now constructor.
Qed.

End BackendProperties.

Lemma backend_outcome_witness :
  fst (inpaintWithRunwayML MoreExamples.inpaintingServices "img" "mask" "prompt" [])
  = Returns {| ir_resultUrl := "https://result/filled.png";
               ir_processingTime := 1;
               ir_modelUsed := "runwayml/stable-diffusion-inpainting" |}.
Proof.
  destruct (backend_outcome MoreExamples.inpaintingServices RunwayML "RunwayML"
              "runwayml/stable-diffusion-inpainting" "img" "mask" "prompt" [])
    as (_ & Hok & _).
  exact (Hok "https://result/filled.png" [] eq_refl).
Defined.

Lemma smartInpainting_reports_producer_witness :
  exists r,
    smartInpainting MoreExamples.inpaintingServices "img" "mask" "prompt" (Some "flux") []
    = (Returns r, map EvRun [FLUX; StabilityAI; RunwayML]) /\
    ir_modelUsed r = "runwayml/stable-diffusion-inpainting".
Proof.
  destruct (smartInpainting MoreExamples.inpaintingServices "img" "mask" "prompt"
              (Some "flux") []) as [[r|e] w'] eqn:Hrun; [|vm_compute in Hrun; discriminate].
  destruct (smartInpainting_reports_producer MoreExamples.inpaintingServices "img" "mask"
              "prompt" (Some "flux") [] w' r Hrun)
    as (failed & s & remaining & _ & _ & _ & _ & Hid & _).
  exists r. assert (Hw : w' = map EvRun [FLUX; StabilityAI; RunwayML])
    by (vm_compute in Hrun; now injection Hrun).
  subst w'. split; [reflexivity|].
  vm_compute in Hrun. injection Hrun as <-. reflexivity.
Defined.

Lemma string_append_assoc (a b c : string) : ((a ++ b) ++ c = a ++ (b ++ c))%string.
Proof. induction a as [|ch a IH]; simpl; [reflexivity | now rewrite IH]. Qed.

Lemma stringOr_nonempty (value : option string) (fallback : string) :
  fallback <> "" -> stringOr value fallback <> "".
Proof.
  intros Hf. unfold stringOr. destruct value as [v|]; [|exact Hf].
  destruct (v =? "") eqn:Hv; [exact Hf | now apply String.eqb_neq].
Qed.

Lemma generateOptimizedPrompt_pieces (originalPrompt imageContext : option string) :
  generateOptimizedPrompt originalPrompt imageContext
  = stringOr originalPrompt defaultPrompt ++ contextSuffixOf imageContext ++ qualitySuffix.
Proof.
  unfold generateOptimizedPrompt, contextSuffixOf. cbv zeta.
  fold defaultPrompt outdoorSuffix indoorSuffix qualitySuffix.
  destruct imageContext as [context|]; [|reflexivity].
  destruct (context =? "") eqn:Hempty.
  - apply String.eqb_eq in Hempty. subst context. reflexivity.
  - destruct (stringIncludes context "outdoor" || stringIncludes context "nature");
      [now rewrite string_append_assoc|].
    destruct (stringIncludes context "indoor" || stringIncludes context "room");
      [now rewrite string_append_assoc | reflexivity].
Qed.

(** X15. [generateOptimizedPrompt] returns the base prompt -- the caller's
    prompt, or "natural background, seamless, high quality" when that is
    absent or empty --, then at most one context suffix, then always the
    quality suffix.  A context mentioning "outdoor" or "nature" gets the
    outdoor suffix even when it also mentions "indoor" or "room"; no context
    gets none.  The prompt is never empty. *)
Theorem optimizedPrompt_shape (originalPrompt imageContext : option string) :
  let base := stringOr originalPrompt defaultPrompt in
  let middle := contextSuffixOf imageContext in
  generateOptimizedPrompt originalPrompt imageContext = base ++ middle ++ qualitySuffix /\
  (middle = "" \/ middle = outdoorSuffix \/ middle = indoorSuffix) /\
  (forall context,
     imageContext = Some context ->
     stringIncludes context "outdoor" = true \/ stringIncludes context "nature" = true ->
     middle = outdoorSuffix) /\
  (imageContext = None -> middle = "") /\
  (originalPrompt = None \/ originalPrompt = Some "" -> base = defaultPrompt) /\
  (forall custom, originalPrompt = Some custom -> custom <> "" -> base = custom) /\
  generateOptimizedPrompt originalPrompt imageContext <> "".
Proof.
  intros base middle.
  assert (Hbase : base <> "") by (apply stringOr_nonempty; discriminate).
  split; [apply generateOptimizedPrompt_pieces|]. split; [|split; [|split; [|split; [|split]]]].
  - subst middle. unfold contextSuffixOf. destruct imageContext as [context|]; [|now left].
    destruct (_ || _); [right; now left|]. destruct (_ || _); [right; now right | now left].
  - intros context -> Hout. subst middle. unfold contextSuffixOf.
    assert (H : stringIncludes context "outdoor" || stringIncludes context "nature" = true)
      by (apply orb_true_iff; exact Hout).
    now rewrite H.
  - intros ->. reflexivity.
  - intros [-> | ->]; reflexivity.
  - intros custom -> Hc. subst base. unfold stringOr.
    apply String.eqb_neq in Hc. now rewrite Hc.
  - rewrite generateOptimizedPrompt_pieces. fold base.
    destruct base as [|ch rest]; [congruence | simpl; discriminate].
Qed.

Lemma optimizedPrompt_shape_witness :
  generateOptimizedPrompt (Some "a quiet beach") (Some "outdoor scene, indoor pool")
  = "a quiet beach, outdoor, natural lighting, environmental context, professional photography, high resolution, detailed".
Proof.
  destruct (optimizedPrompt_shape (Some "a quiet beach") (Some "outdoor scene, indoor pool"))
    as (Hshape & _ & Hout & _).
  rewrite Hshape, (Hout _ eq_refl (or_introl eq_refl)). reflexivity.
Defined.

(** ** The pipeline, branch by branch *)

Section PipelineBranches.

Variable env : Services.
Variables (imageUrl : string) (options : PersonRemovalOptions).

(** The pipeline as a decision over what its stages produced. *)
Lemma pipeline_unfold (w : World) :
  autoRemoveBackgroundPeople env imageUrl options w
  = match detectionStage env imageUrl (orDefault (fallbackToYOLO options) true) w with
    | (Throw e, w1) =>
        (Returns (failedResult (Date_now env w1 - Date_now env w) (errorText e)), w1)
    | (Returns detectionResult, w1) =>
        let separationResult :=
          separateForegroundBackground detectionResult
            (orDefault (targetForegroundCount options) 1%Q) in
        match masks detectionResult with
        | [] =>
            (Returns (failedResult (Date_now env w1 - Date_now env w)
                        "No people detected in the image"), w1)
        | _ :: _ =>
            match backgroundMasks separationResult with
            | [] =>
                (Returns {| success := true;
                            resultUrl := Some imageUrl;
                            processingTime := (Date_now env w1 - Date_now env w)%Z;
                            details :=
                              {| peopleDetected := lengthZ (masks detectionResult);
                                 foregroundPeople :=
                                   lengthZ (foregroundMasks separationResult);
                                 backgroundPeople := 0;
                                 modelUsed := "SAM-2/YOLO";
                                 inpaintingModel := "none" |};
                            error := None |}, w1)
            | first :: _ =>
                if mask first =? "" then
                  (Returns (failedResult (Date_now env w1 - Date_now env w)
                              "Failed to generate inpainting mask"), w1)
                else
                  match smartInpainting env imageUrl (mask first)
                          (generateOptimizedPrompt (customPrompt options) (Some "outdoor"))
                          (preferredInpaintingModel options) w1 with
                  | (Returns inpaintingResult, w2) =>
                      (Returns {| success := true;
                                  resultUrl := Some (ir_resultUrl inpaintingResult);
                                  processingTime := (Date_now env w2 - Date_now env w)%Z;
                                  details :=
                                    {| peopleDetected := lengthZ (masks detectionResult);
                                       foregroundPeople :=
                                         lengthZ (foregroundMasks separationResult);
                                       backgroundPeople :=
                                         lengthZ (backgroundMasks separationResult);
                                       modelUsed := "SAM-2/YOLO";
                                       inpaintingModel := ir_modelUsed inpaintingResult |};
                                  error := None |}, w2)
                  | (Throw e, w2) =>
                      (Returns (failedResult (Date_now env w2 - Date_now env w)
                                  (errorText e)), w2)
                  end
            end
        end
    end.
Proof.
  unfold autoRemoveBackgroundPeople. unfold bind at 1. unfold now at 1. cbv zeta.
  unfold try_catch at 1. unfold bind at 1.
  destruct (detectionStage env imageUrl (orDefault (fallbackToYOLO options) true) w)
    as [[detectionResult|e] w1]; [|reflexivity].
  destruct (masks detectionResult) as [|m rest] eqn:Hm; [reflexivity|].
  destruct (backgroundMasks _) as [|first others] eqn:Hbg; [reflexivity|].
  cbn [generateInpaintingMask].
  destruct (mask first =? ""); [reflexivity|].
  unfold bind at 1.
  destruct (smartInpainting env imageUrl (mask first) _ _ w1) as [[r|e] w2]; reflexivity.
Qed.

End PipelineBranches.

Lemma separate_counts (detectionResult : DetectionResult) (targetForegroundCount : Q) :
  let r := separateForegroundBackground detectionResult targetForegroundCount in
  lengthZ (masks detectionResult)
  = (lengthZ (foregroundMasks r) + lengthZ (backgroundMasks r))%Z.
Proof.
  intros r. destruct (masks detectionResult) as [|m0 rest0] eqn:Hm.
  - subst r. rewrite separate_empty by exact Hm. reflexivity.
  - assert (Hne : masks detectionResult <> []) by (rewrite Hm; discriminate).
    rewrite <- Hm. subst r. rewrite separate_unfold by exact Hne. cbv zeta.
    cbn [foregroundMasks backgroundMasks]. unfold lengthZ.
    rewrite <- (Permutation_length (filter_split_perm
      (fun mask => includes (foregroundIdsOf detectionResult targetForegroundCount)
                     (id mask)) (masks detectionResult))).
    rewrite length_app. lia.
Qed.

Lemma detectPeopleInImage_world (env : Services) (imageUrl : string) (w : World) :
  snd (detectPeopleInImage env imageUrl w) = (w ++ [EvRun SAM2])%list.
Proof.
  unfold detectPeopleInImage, try_catch, bind, await_run, throw, ret.
  destruct (run_sam2 env w imageUrl) as [e|[output|]]; reflexivity.
Qed.

Section PipelineOutcomes.

Variable env : Services.
Variables (imageUrl : string) (options : PersonRemovalOptions).

(** X16. When the primary detector throws, the error the pipeline reports
    is built from the primary detector's error alone.  Without the fallback
    the result carries that error's message, which starts with "Failed to
    detect people: ", and the only remote call was the one to SAM-2.  With
    the fallback, when the fallback chain throws too, the message is "Both
    SAM-2 and YOLO detection failed: " followed by the primary message; what
    the fallback chain threw is not reported. *)
Theorem detection_failure_report (w w1 : World) (e : Thrown) :
  detectPeopleInImage env imageUrl w = (Throw e, w1) ->
  (exists cause, errorText e = "Failed to detect people: " ++ cause) /\
  w1 = (w ++ [EvRun SAM2])%list /\
  (orDefault (fallbackToYOLO options) true = false ->
   autoRemoveBackgroundPeople env imageUrl options w
   = (Returns (failedResult (Date_now env w1 - Date_now env w) (errorText e)), w1)) /\
  (orDefault (fallbackToYOLO options) true = true ->
   forall e2 w2,
     detectPeopleWithYOLO env imageUrl w1 = (Throw e2, w2) ->
     autoRemoveBackgroundPeople env imageUrl options w
     = (Returns (failedResult (Date_now env w2 - Date_now env w)
                   ("Both SAM-2 and YOLO detection failed: " ++ errorText e)), w2)).
Proof.
  intros Hprimary. split; [|split; [|split]].
  - destruct (detectPeopleInImage_throws _ _ _ _ _ Hprimary) as [cause ->].
    exists cause. reflexivity.
  - pose proof (detectPeopleInImage_world env imageUrl w) as Hw.
    now rewrite Hprimary in Hw.
  - intros Hfb. rewrite pipeline_unfold, Hfb. unfold detectionStage, try_catch.
    rewrite Hprimary. reflexivity.
  - intros Hfb e2 w2 Hyolo. rewrite pipeline_unfold, Hfb.
    rewrite (detectionStage_fallback _ _ _ _ _ Hprimary). unfold try_catch.
    rewrite Hyolo. reflexivity.
Qed.

(** X17. When the primary detector resolves with no mask at all, the
    pipeline does not consult the fallback chain, even with fallbackToYOLO
    set: after the single call to SAM-2 it returns success = false with the
    error "No people detected in the image" and empty details. *)
Theorem nobody_detected (w w1 : World) (detectionResult : DetectionResult) :
  detectPeopleInImage env imageUrl w = (Returns detectionResult, w1) ->
  masks detectionResult = [] ->
  autoRemoveBackgroundPeople env imageUrl options w
  = (Returns (failedResult (Date_now env (w ++ [EvRun SAM2])%list - Date_now env w)
                "No people detected in the image"),
     (w ++ [EvRun SAM2])%list).
Proof.
  intros Hprimary Hnone.
  pose proof (detectPeopleInImage_world env imageUrl w) as Hw.
  rewrite Hprimary in Hw. cbn [snd] in Hw. subst w1.
  rewrite pipeline_unfold. unfold detectionStage, try_catch. rewrite Hprimary.
  cbv zeta. now rewrite Hnone.
Qed.

(** X18. When the first background person (in detection order) has an
    empty mask reference, the pipeline stops before inpainting: it returns
    success = false with the error "Failed to generate inpainting mask", and
    its only remote calls are those of the detection stage. *)
Theorem empty_mask_stops_pipeline (w w1 : World) (detectionResult : DetectionResult)
    (first : PersonMask) (others : list PersonMask) :
  detectionStage env imageUrl (orDefault (fallbackToYOLO options) true) w
  = (Returns detectionResult, w1) ->
  backgroundMasks
    (separateForegroundBackground detectionResult
       (orDefault (targetForegroundCount options) 1%Q)) = first :: others ->
  mask first = "" ->
  autoRemoveBackgroundPeople env imageUrl options w
  = (Returns (failedResult (Date_now env w1 - Date_now env w)
                "Failed to generate inpainting mask"), w1) /\
  exists runs, w1 = (w ++ map EvRun runs)%list /\
               Forall (fun s => isInpaintingService s = false) runs.
Proof.
  intros Hdet Hbg Hmask. split.
  - rewrite pipeline_unfold, Hdet. cbv zeta.
    destruct (masks detectionResult) as [|m rest] eqn:Hm.
    + rewrite separate_empty in Hbg by exact Hm. discriminate.
    + rewrite Hbg, Hmask. reflexivity.
  - destruct (detectionStage_runs env imageUrl
                (orDefault (fallbackToYOLO options) true) w) as (runs & E & F).
    rewrite Hdet in E. exists runs. now split.
Qed.

(** X19. When there is somebody to remove and the first background person
    has a non-empty mask, the pipeline passes that mask and the optimized
    prompt for the context "outdoor" to [smartInpainting].  If that returns,
    the result is a success with the inpainted resultUrl, the model that
    produced it as inpaintingModel, and counts with peopleDetected =
    foregroundPeople + backgroundPeople and backgroundPeople >= 1; if it
    throws, the result is a failure with the thrown message. *)
Theorem inpainting_stage_outcome (w w1 : World) (detectionResult : DetectionResult)
    (first : PersonMask) (others : list PersonMask) :
  detectionStage env imageUrl (orDefault (fallbackToYOLO options) true) w
  = (Returns detectionResult, w1) ->
  backgroundMasks
    (separateForegroundBackground detectionResult
       (orDefault (targetForegroundCount options) 1%Q)) = first :: others ->
  mask first <> "" ->
  let run := smartInpainting env imageUrl (mask first)
               (generateOptimizedPrompt (customPrompt options) (Some "outdoor"))
               (preferredInpaintingModel options) w1 in
  (forall r w2,
     run = (Returns r, w2) ->
     exists result,
       autoRemoveBackgroundPeople env imageUrl options w = (Returns result, w2) /\
       success result = true /\
       resultUrl result = Some (ir_resultUrl r) /\
       inpaintingModel (details result) = ir_modelUsed r /\
       processingTime result = (Date_now env w2 - Date_now env w)%Z /\
       peopleDetected (details result)
       = (foregroundPeople (details result) + backgroundPeople (details result))%Z /\
       (1 <= backgroundPeople (details result))%Z) /\
  (forall e w2,
     run = (Throw e, w2) ->
     autoRemoveBackgroundPeople env imageUrl options w
     = (Returns (failedResult (Date_now env w2 - Date_now env w) (errorText e)), w2)).
Proof.
  intros Hdet Hbg Hmask run. apply String.eqb_neq in Hmask.
  assert (Hm : exists m rest, masks detectionResult = m :: rest).
  { destruct (masks detectionResult) as [|m rest] eqn:Hm; [|eauto].
    rewrite separate_empty in Hbg by exact Hm. discriminate. }
  destruct Hm as (m & rest & Hm).
  pose proof (separate_counts detectionResult
                (orDefault (targetForegroundCount options) 1%Q)) as Hcount.
  cbv zeta in Hcount.
  split.
  - intros r w2 Hrun. rewrite pipeline_unfold, Hdet. cbv zeta.
    rewrite Hm, Hbg, Hmask. fold run. rewrite Hrun. rewrite <- Hm, <- Hbg.
    eexists. split; [reflexivity|]. cbn [success resultUrl details inpaintingModel
      processingTime peopleDetected foregroundPeople backgroundPeople].
    repeat split; [exact Hcount|]. rewrite Hbg. unfold lengthZ. simpl. lia.
  - intros e w2 Hrun. rewrite pipeline_unfold, Hdet. cbv zeta.
    rewrite Hm, Hbg, Hmask. fold run. now rewrite Hrun.
Qed.

End PipelineOutcomes.

Lemma pipeline_result_shape (env : Services) (imageUrl : string)
    (options : PersonRemovalOptions) (w w' : World) (result : PersonRemovalResult) :
  autoRemoveBackgroundPeople env imageUrl options w = (Returns result, w') ->
  (success result = true /\
   error result = None /\
   modelUsed (details result) = "SAM-2/YOLO" /\
   peopleDetected (details result)
   = (foregroundPeople (details result) + backgroundPeople (details result))%Z /\
   (1 <= peopleDetected (details result))%Z /\
   (0 <= foregroundPeople (details result))%Z /\
   ((backgroundPeople (details result) = 0%Z /\
     resultUrl result = Some imageUrl /\
     inpaintingModel (details result) = "none")
    \/
    ((1 <= backgroundPeople (details result))%Z /\
     exists url s, resultUrl result = Some url /\
                   isInpaintingService s = true /\
                   inpaintingModel (details result) = modelIdOf s)))
  \/
  (success result = false /\
   resultUrl result = None /\
   details result = noDetails /\
   exists message, error result = Some message /\ message <> "").
Proof.
  rewrite pipeline_unfold.
  destruct (detectionStage env imageUrl (orDefault (fallbackToYOLO options) true) w)
    as [[detectionResult|e] w1] eqn:Hdet.
  2: { intros [= <- _]. right. repeat split. eexists. split; [reflexivity|].
       exact (detectionStage_throws _ _ _ _ _ _ Hdet). }
  cbv zeta.
  pose proof (separate_counts detectionResult
                (orDefault (targetForegroundCount options) 1%Q)) as Hcount.
  cbv zeta in Hcount.
  destruct (masks detectionResult) as [|m rest] eqn:Hm.
  { intros [= <- _]. right. repeat split. eexists. split; [reflexivity | discriminate]. }
  assert (Hpos : (1 <= lengthZ (m :: rest))%Z) by (unfold lengthZ; simpl; lia).
  rewrite ?Hm in Hcount.
  destruct (backgroundMasks _) as [|first others] eqn:Hbg.
  { intros [= <- _]. left.
    cbn [success error details modelUsed peopleDetected foregroundPeople backgroundPeople
         resultUrl inpaintingModel].
    assert (Hfg : (0 <= lengthZ (foregroundMasks
                     (separateForegroundBackground detectionResult
                        (orDefault (targetForegroundCount options) 1%Q))))%Z)
      by (unfold lengthZ; lia).
    change (lengthZ []) with 0%Z in Hcount.
    split; [reflexivity|]. split; [reflexivity|]. split; [reflexivity|].
    split; [exact Hcount|]. split; [exact Hpos|]. split; [exact Hfg|].
    left. repeat split. }
  destruct (mask first =? "") eqn:Hmask.
  { intros [= <- _]. right. repeat split. eexists. split; [reflexivity | discriminate]. }
  destruct (smartInpainting env imageUrl (mask first) _ _ w1) as [[r|e] w2] eqn:Hsmart.
  - intros [= <- _]. left.
    cbn [success error details modelUsed peopleDetected foregroundPeople backgroundPeople
         resultUrl inpaintingModel].
    assert (Hfg : (0 <= lengthZ (foregroundMasks
                     (separateForegroundBackground detectionResult
                        (orDefault (targetForegroundCount options) 1%Q))))%Z)
      by (unfold lengthZ; lia).
    split; [reflexivity|]. split; [reflexivity|]. split; [reflexivity|].
    split; [exact Hcount|]. split; [exact Hpos|]. split; [exact Hfg|].
    right. split; [unfold lengthZ; simpl; lia|].
      rewrite smartInpainting_refines in Hsmart.
      destruct (firstSuccess_returns env _ _ _ _ _
                  (attemptOrder_reports env (preferredInpaintingModel options)) _ _ _ Hsmart)
        as (failed & s & remaining & Hshape & _ & Hid & _).
      destruct (attemptedServices_shape (preferredInpaintingModel options)) as [_ Hall].
      rewrite Hshape in Hall. apply Forall_app in Hall. destruct Hall as [_ Hall].
      inversion Hall; subst. exists (ir_resultUrl r), s.
      split; [reflexivity|]. split; assumption.
  - apply smartInpainting_throws in Hsmart. subst e.
    intros [= <- _]. right. repeat split. eexists. split; [reflexivity | discriminate].
Qed.

(** X20. Every result of [autoRemoveBackgroundPeople] is of one of two
    shapes.  A success has no error, a resultUrl, modelUsed "SAM-2/YOLO" and
    counts with peopleDetected = foregroundPeople + backgroundPeople >= 1;
    and either nobody was removed -- then resultUrl is the input imageUrl
    and inpaintingModel is "none" -- or somebody was, and inpaintingModel is
    the model name of an inpainting service.  A failure has no resultUrl,
    all counts 0 with modelUsed and inpaintingModel "none" (even when people
    had been detected), and a non-empty error message. *)
Theorem pipeline_result_wellformed (env : Services) (imageUrl : string)
    (options : PersonRemovalOptions) (w w' : World) (result : PersonRemovalResult) :
  autoRemoveBackgroundPeople env imageUrl options w = (Returns result, w') ->
  (success result = true ->
   error result = None /\
   modelUsed (details result) = "SAM-2/YOLO" /\
   peopleDetected (details result)
   = (foregroundPeople (details result) + backgroundPeople (details result))%Z /\
   (1 <= peopleDetected (details result))%Z /\
   ((backgroundPeople (details result) = 0%Z /\
     resultUrl result = Some imageUrl /\
     inpaintingModel (details result) = "none")
    \/
    ((1 <= backgroundPeople (details result))%Z /\
     exists url s, resultUrl result = Some url /\
                   isInpaintingService s = true /\
                   inpaintingModel (details result) = modelIdOf s))) /\
  (success result = false ->
   resultUrl result = None /\
   details result = noDetails /\
   exists message, error result = Some message /\ message <> "").
Proof.
  intros Hrun. destruct (pipeline_result_shape _ _ _ _ _ _ Hrun)
    as [(Hs & He & Hm & Hc & Hp & _ & Hcases)|(Hf & Hu & Hd & Hmsg)].
  - split; [intros _; repeat split; assumption | congruence].
  - split; [congruence | intros _; repeat split; assumption].
Qed.

(** ** Runs of the further example services *)

Lemma separate_zero (detectionResult : DetectionResult) :
  backgroundMasks (separateForegroundBackground detectionResult 0) = masks detectionResult.
Proof.
  destruct (masks detectionResult) as [|m rest] eqn:Hm.
  - rewrite separate_empty by exact Hm. reflexivity.
  - assert (Hne : masks detectionResult <> []) by (rewrite Hm; discriminate).
    rewrite separate_unfold by exact Hne. cbv zeta. cbn [backgroundMasks].
    rewrite foregroundIds_zero by reflexivity. unfold includes. cbn [existsb negb].
    now rewrite filter_all.
Qed.

Lemma inpainting_detects_one (imageUrl : string) (w : World) :
  detectPeopleInImage MoreExamples.inpaintingServices imageUrl w
  = (Returns Examples.detectedOne, (w ++ [EvRun SAM2])%list).
Proof.
  rewrite (detectPeopleInImage_on_output MoreExamples.inpaintingServices imageUrl w _ eq_refl).
  unfold mapi. cbn [mapi_from]. rewrite primary_segment_person.
  cbn [filter]. rewrite detectedPerson_confident. reflexivity.
Qed.

Lemma maskless_detects_one (imageUrl : string) (w : World) :
  detectPeopleInImage MoreExamples.masklessServices imageUrl w
  = (Returns MoreExamples.masklessOne, (w ++ [EvRun SAM2])%list).
Proof.
  rewrite (detectPeopleInImage_on_output MoreExamples.masklessServices imageUrl w _ eq_refl).
  unfold mapi. cbn [mapi_from].
  assert (Hp : segmentToMask {| seg_bbox := Some Examples.centredBox;
                                seg_mask := None;
                                seg_confidence := Some 0.8%R |} 0
               = MoreExamples.masklessPerson).
  { unfold segmentToMask. cbn [seg_confidence]. rewrite numberOr_same. reflexivity. }
  rewrite Hp. cbn [filter confidence MoreExamples.masklessPerson].
  destruct (Rgt_dec 0.8 0.5); [reflexivity | lra].
Qed.

Lemma detection_failure_report_witness :
  autoRemoveBackgroundPeople Examples.offlineServices "img" MoreExamples.noFallback []
  = (Returns (failedResult 1 "Failed to detect people: offline"), [EvRun SAM2]).
Proof.
  destruct (detection_failure_report Examples.offlineServices "img" MoreExamples.noFallback
              [] [EvRun SAM2] (ErrorObj "Failed to detect people: offline") eq_refl)
    as (_ & _ & Hno & _).
  exact (Hno eq_refl).
Defined.

Lemma nobody_detected_witness :
  autoRemoveBackgroundPeople MoreExamples.nobodyServices "img" Examples.noOptions []
  = (Returns (failedResult 1 "No people detected in the image"), [EvRun SAM2]).
Proof.
  exact (nobody_detected MoreExamples.nobodyServices "img" Examples.noOptions
           [] [EvRun SAM2]
           {| masks := []; imageWidth := 1024; imageHeight := 1024 |} eq_refl eq_refl).
Defined.

Lemma empty_mask_stops_pipeline_witness :
  autoRemoveBackgroundPeople MoreExamples.masklessServices "img" MoreExamples.keepNobody []
  = (Returns (failedResult 1 "Failed to generate inpainting mask"), [EvRun SAM2]).
Proof.
  assert (Hdet : detectionStage MoreExamples.masklessServices "img"
                   (orDefault (fallbackToYOLO MoreExamples.keepNobody) true) []
                 = (Returns MoreExamples.masklessOne, [EvRun SAM2])).
  { unfold detectionStage, try_catch. now rewrite maskless_detects_one. }
  destruct (empty_mask_stops_pipeline MoreExamples.masklessServices "img"
              MoreExamples.keepNobody [] [EvRun SAM2] MoreExamples.masklessOne
              MoreExamples.masklessPerson [] Hdet
              (separate_zero MoreExamples.masklessOne) eq_refl) as [Hrun _].
  exact Hrun.
Defined.

Lemma inpainting_stage_outcome_witness :
  exists result,
    autoRemoveBackgroundPeople MoreExamples.inpaintingServices "img"
      MoreExamples.keepNobody []
    = (Returns result, map EvRun [SAM2; StabilityAI; RunwayML]) /\
    success result = true /\
    resultUrl result = Some "https://result/filled.png" /\
    inpaintingModel (details result) = "runwayml/stable-diffusion-inpainting".
Proof.
  assert (Hdet : detectionStage MoreExamples.inpaintingServices "img"
                   (orDefault (fallbackToYOLO MoreExamples.keepNobody) true) []
                 = (Returns Examples.detectedOne, [EvRun SAM2])).
  { unfold detectionStage, try_catch. now rewrite inpainting_detects_one. }
  assert (Hmask : mask Examples.detectedPerson <> "") by discriminate.
  destruct (inpainting_stage_outcome MoreExamples.inpaintingServices "img"
              MoreExamples.keepNobody [] [EvRun SAM2] Examples.detectedOne
              Examples.detectedPerson [] Hdet
              (separate_zero Examples.detectedOne) Hmask) as [Hok _].
  destruct (Hok {| ir_resultUrl := "https://result/filled.png";
                   ir_processingTime := 1;
                   ir_modelUsed := "runwayml/stable-diffusion-inpainting" |}
              (map EvRun [SAM2; StabilityAI; RunwayML]) eq_refl)
    as (result & Hrun & Hs & Hurl & Hmodel & _).
  exists result. repeat split; assumption.
Defined.

Lemma pipeline_result_wellformed_witness :
  exists result w' message,
    autoRemoveBackgroundPeople Examples.offlineServices "img" Examples.noOptions []
    = (Returns result, w') /\
    details result = noDetails /\ error result = Some message /\ message <> "".
Proof.
  pose proof (eq_refl : autoRemoveBackgroundPeople Examples.offlineServices "img"
                          Examples.noOptions []
                        = (Returns (failedResult 2
                             "Both SAM-2 and YOLO detection failed: Failed to detect people: offline"),
                           [EvRun SAM2; EvRun YOLOv8])) as Hrun.
  destruct (pipeline_result_wellformed _ _ _ _ _ _ Hrun) as [_ Hfail].
  destruct (Hfail eq_refl) as (_ & Hd & message & Hm & Hne).
  eexists; eexists; exists message. split; [exact Hrun|]. repeat split; assumption.
Defined.

(** ** The retry wrapper: what it returns *)

Section RetryOutcomes.

Variable pipeline : string -> PersonRemovalOptions -> M PersonRemovalResult.
Variables (imageUrl : string) (options : PersonRemovalOptions).

Lemma retryLoop_returns (maxRetries : Q) (remaining : nat) :
  forall (attempt : Z) (w : World),
    Z.of_nat remaining = Z.max 0 (Qfloor maxRetries - attempt + 1) ->
    exists result w',
      retryLoop pipeline imageUrl options maxRetries remaining attempt w
      = (Returns result, w') /\
      (remaining = O -> result = maxRetriesExceeded /\ w' = w) /\
      (result = maxRetriesExceeded \/
       exists w0, result = lastAttemptResult (fst (pipeline imageUrl options w0))) /\
      (remaining <> O -> (maxRetries == inject_Z (Qfloor maxRetries))%Q ->
       exists w0, result = lastAttemptResult (fst (pipeline imageUrl options w0))).
Proof.
  induction remaining as [|remaining' IH]; intros attempt w Hinv.
  - exists maxRetriesExceeded, w. repeat split; [now left | congruence].
  - pose proof (retry_guard _ _ _ Hinv) as [Hle Hinv'].
    rewrite retryLoop_step, retryIteration_run. cbv zeta.
    destruct (iterationStops _ maxRetries attempt) eqn:Hstop.
    + eexists; eexists. split; [reflexivity|]. split; [discriminate|].
      split; [right|intros _ _]; eexists; reflexivity.
    + destruct (IH (attempt + 1)%Z
                  (snd (pipeline imageUrl options
                          (w ++ [EvAttempt attempt maxRetries])%list)
                   ++ [EvWait (backoffDelay attempt)])%list Hinv')
        as (result & w' & Hloop & _ & Hany & Hlast).
      exists result, w'. split; [exact Hloop|]. split; [discriminate|].
      split; [exact Hany|]. intros _ Hint. apply Hlast; [|exact Hint].
      intros ->. exact (iteration_goes_on _ _ _ O Hstop Hinv eq_refl Hint).
Qed.


(** X22. A successful first attempt ends the wrapper at once: for
    maxRetries >= 1, when the pipeline returns a success on attempt 1, the
    wrapper returns that very result and leaves the world as the pipeline
    left it -- no wait, no second attempt. *)
Theorem retry_stops_on_success (w w1 : World) (result : PersonRemovalResult) :
  let N := orDefault (maxRetries options) 2%Q in
  (1 <= N)%Q ->
  pipeline imageUrl options (w ++ [EvAttempt 1 N])%list = (Returns result, w1) ->
  success result = true ->
  autoRemoveBackgroundPeopleWithRetry pipeline imageUrl options w = (Returns result, w1).
Proof.
  intros N HN Hrun Hs. unfold autoRemoveBackgroundPeopleWithRetry. cbv zeta. fold N.
  assert (Hfloor : (1 <= Qfloor N)%Z)
    by (rewrite <- (Qfloor_Z 1); now apply Qfloor_resp_le).
  destruct (Z.to_nat (Qfloor N)) as [|remaining'] eqn:Hrem; [lia|].
  rewrite retryLoop_step, retryIteration_run. cbv zeta. rewrite Hrun.
  cbn [fst snd iterationStops lastAttemptResult]. rewrite Hs. reflexivity.
Qed.

End RetryOutcomes.

(** X23. The backoff delay after a failed attempt k >= 1 is between 1000
    and 5000 ms and never decreases from one attempt to the next: 1000,
    2000 and 4000 ms after attempts 1, 2 and 3, and 5000 ms after every
    later attempt. *)
Theorem backoffDelay_profile (attempt : Z) :
  (1 <= attempt)%Z ->
  (1000 <= backoffDelay attempt <= 5000)%Z /\
  (backoffDelay attempt <= backoffDelay (attempt + 1))%Z /\
  (attempt <= 3 -> backoffDelay attempt = 1000 * 2 ^ (attempt - 1))%Z /\
  (4 <= attempt -> backoffDelay attempt = 5000)%Z.
Proof.
  intros Hpos. unfold backoffDelay.
  assert (Hpow : (2 ^ 0 <= 2 ^ (attempt - 1))%Z) by (apply Z.pow_le_mono_r; lia).
  rewrite Z.pow_0_r in Hpow.
  assert (Hstep : (2 ^ (attempt + 1 - 1) = 2 * 2 ^ (attempt - 1))%Z).
  { replace (attempt + 1 - 1)%Z with (Z.succ (attempt - 1)) by lia.
    apply Z.pow_succ_r. lia. }
  rewrite Hstep. repeat split; try lia.
  - intros Hsmall.
    assert (Hcases : attempt = 1%Z \/ attempt = 2%Z \/ attempt = 3%Z) by lia.
    destruct Hcases as [-> | [-> | ->]]; reflexivity.
  - intros Hbig.
    assert (H8 : (2 ^ 3 <= 2 ^ (attempt - 1))%Z) by (apply Z.pow_le_mono_r; lia).
    change (2 ^ 3)%Z with 8%Z in H8. lia.
Qed.

Lemma backoffDelay_profile_witness :
  backoffDelay 7 = 5000%Z.
Proof.
  assert (Hpos : (1 <= 7)%Z) by lia.
  destruct (backoffDelay_profile 7 Hpos) as (_ & _ & _ & Hbig).
  apply Hbig. lia.
Defined.

Lemma pipeline_returns (env : Services) (imageUrl : string)
    (options : PersonRemovalOptions) (w : World) :
  exists result w',
    autoRemoveBackgroundPeople env imageUrl options w = (Returns result, w').
Proof.
  rewrite pipeline_unfold.
  destruct (detectionStage env imageUrl _ w) as [[d|e] w1]; [|eauto].
  cbv zeta. destruct (masks d); [eauto|].
  destruct (backgroundMasks _) as [|first others]; [eauto|].
  destruct (mask first =? ""); [eauto|].
  destruct (smartInpainting env imageUrl _ _ _ w1) as [[r|e] w2]; eauto.
Qed.

Lemma retry_never_throws_parts (env : Services) (imageUrl : string)
    (options : PersonRemovalOptions) (w : World) :
  exists result w',
    autoRemoveBackgroundPeopleWithRetry (autoRemoveBackgroundPeople env) imageUrl options w
    = (Returns result, w') /\
    (result = maxRetriesExceeded \/
     exists w0 r0 w0',
       autoRemoveBackgroundPeople env imageUrl options w0 = (Returns r0, w0') /\
       result = r0).
Proof.
  unfold autoRemoveBackgroundPeopleWithRetry. cbv zeta.
  set (N := orDefault (maxRetries options) 2%Q).
  destruct (retryLoop_returns (autoRemoveBackgroundPeople env) imageUrl options N
              (Z.to_nat (Qfloor N)) 1%Z w ltac:(lia))
    as (result & w' & Hloop & _ & Hany & _).
  exists result, w'. split; [exact Hloop|].
  destruct Hany as [-> | [w0 ->]]; [now left | right].
  destruct (pipeline_returns env imageUrl options w0) as (r0 & w0' & Hpipe).
  exists w0, r0, w0'. split; [exact Hpipe|]. now rewrite Hpipe.
Qed.

(** X24. The exported wrapper on the module's own pipeline always returns a
    result, and a result with success = false always carries a non-empty
    error message: the message of the last attempt, or "Max retries
    exceeded" when the loop ran out of attempts (as it does for maxRetries
    <= 0).  A result with success = true carries a resultUrl and no
    error. *)
Theorem removeWithRetry_result (env : Services) (imageUrl : string)
    (options : PersonRemovalOptions) (w : World) :
  exists result w',
    removeWithRetry env imageUrl options w = (Returns result, w') /\
    (success result = false ->
     resultUrl result = None /\ details result = noDetails /\
     exists message, error result = Some message /\ message <> "") /\
    (success result = true ->
     error result = None /\ exists url, resultUrl result = Some url).
Proof.
  unfold removeWithRetry.
  destruct (retry_never_throws_parts env imageUrl options w)
    as (result & w' & Hrun & Horigin).
  exists result, w'. split; [exact Hrun|].
  destruct Horigin as [-> | (w0 & r0 & w0' & Hpipe & ->)].
  - split; [intros _; repeat split; eexists; split; [reflexivity | discriminate]
           | discriminate].
  - destruct (pipeline_result_shape _ _ _ _ _ _ Hpipe)
      as [(Hs & He & _ & _ & _ & _ & Hcases)|(Hf & Hu & Hd & Hmsg)].
    + split; [congruence|]. intros _. split; [exact He|].
      destruct Hcases as [(_ & Hurl & _)|(_ & url & s & Hurl & _)]; eauto.
    + split; [intros _; repeat split; assumption | congruence].
Qed.


Lemma retry_stops_on_success_witness :
  exists result,
    removeWithRetry Examples.primaryServices "img" Examples.noOptions []
    = (Returns result, [EvAttempt 1 2; EvRun SAM2]) /\
    success result = true.
Proof.
  assert (Hdet : detectionStage Examples.primaryServices "img"
                   (orDefault (fallbackToYOLO Examples.noOptions) true) [EvAttempt 1 2]
                 = (Returns Examples.detectedOne, [EvAttempt 1 2; EvRun SAM2])).
  { unfold detectionStage, try_catch. now rewrite primary_detects_one. }
  assert (Hbg : backgroundMasks
                  (separateForegroundBackground Examples.detectedOne
                     (orDefault (targetForegroundCount Examples.noOptions) 1%Q)) = []).
  { apply (separate_single Examples.detectedOne Examples.detectedPerson);
      [reflexivity | unfold Qle; simpl; lia]. }
  pose proof (pipeline_no_background Examples.primaryServices "img" Examples.noOptions
                [EvAttempt 1 2] [EvAttempt 1 2; EvRun SAM2] Examples.detectedOne
                Hdet ltac:(discriminate) Hbg) as Hrun.
  assert (HN : (1 <= orDefault (maxRetries Examples.noOptions) 2)%Q)
    by (unfold Qle; simpl; lia).
  eexists. split.
  - exact (retry_stops_on_success (autoRemoveBackgroundPeople Examples.primaryServices)
             "img" Examples.noOptions [] _ _ HN Hrun eq_refl).
  - reflexivity.
Defined.

Lemma removeWithRetry_result_witness :
  exists result w' message,
    removeWithRetry Examples.offlineServices "img" (Examples.withMaxRetries 3) []
    = (Returns result, w') /\
    error result = Some message /\ message <> "".
Proof.
  destruct (removeWithRetry_result Examples.offlineServices "img"
              (Examples.withMaxRetries 3) [])
    as (result & w' & Hrun & Hfail & _).
  assert (Hs : success result = false).
  { vm_compute in Hrun. injection Hrun as <- _. reflexivity. }
  destruct (Hfail Hs) as (_ & _ & message & Hm & Hne).
  exists result, w', message. auto.
Defined.

(** ** The retry wrapper: how often the pipeline runs *)

Lemma detectsOnceFirst_bind {A B} (m : M A) (k : A -> M B) :
  detectsOnceFirst m -> (forall a, onlyRuns notPrimaryDetector (k a)) ->
  detectsOnceFirst (bind m k).
Proof.
  intros Hm Hk w. unfold bind. destruct (Hm w) as (r1 & E1 & F1).
  destruct (m w) as [[a|e] w1]; simpl in E1; subst w1.
  - destruct (Hk a (w ++ EvRun SAM2 :: map EvRun r1)%list) as (r2 & E2 & F2).
    exists (r1 ++ r2)%list. rewrite E2, map_app, <- app_assoc. split; [reflexivity|].
    apply Forall_app. now split.
  - exists r1. now split.
Qed.

Lemma detectsOnceFirst_try_catch {A} (m : M A) (handler : Thrown -> M A) :
  detectsOnceFirst m -> (forall e, onlyRuns notPrimaryDetector (handler e)) ->
  detectsOnceFirst (try_catch m handler).
Proof.
  intros Hm Hh w. unfold try_catch. destruct (Hm w) as (r1 & E1 & F1).
  destruct (m w) as [[a|e] w1]; simpl in E1; subst w1.
  - exists r1. now split.
  - destruct (Hh e (w ++ EvRun SAM2 :: map EvRun r1)%list) as (r2 & E2 & F2).
    exists (r1 ++ r2)%list. rewrite E2, map_app, <- app_assoc. split; [reflexivity|].
    apply Forall_app. now split.
Qed.

Section AfterDetection.

Variable env : Services.

Lemma detectsOnceFirst_after_now {A} (k : Z -> M A) :
  (forall startTime, detectsOnceFirst (k startTime)) ->
  detectsOnceFirst (bind (now env) k).
Proof. intros Hk w. unfold bind, now. exact (Hk _ w). Qed.

Lemma detectPeopleInImage_once (imageUrl : string) :
  detectsOnceFirst (detectPeopleInImage env imageUrl).
Proof.
  intros w. exists []. split; [apply detectPeopleInImage_world | constructor].
Qed.

Lemma refineBoxes_after (imageUrl : string) (yoloOutput : list RawBox) :
  forall i masks, onlyRuns notPrimaryDetector (refineBoxes env imageUrl i yoloOutput masks).
Proof.
  induction yoloOutput as [|detection rest IH]; intros i masks; simpl.
  - runs_step.
  - repeat runs_step. destruct a as [[[m|]]|]; try apply IH.
    destruct (m =? ""); apply IH.
Qed.

Lemma detectPeopleWithYOLO_after (imageUrl : string) :
  onlyRuns notPrimaryDetector (detectPeopleWithYOLO env imageUrl).
Proof.
  unfold detectPeopleWithYOLO. repeat runs_step.
  destruct a; [|runs_step]. runs_step; [apply refineBoxes_after | runs_step].
Qed.

Lemma detectionStage_once (imageUrl : string) (fallbackToYOLO : bool) :
  detectsOnceFirst (detectionStage env imageUrl fallbackToYOLO).
Proof.
  unfold detectionStage. apply detectsOnceFirst_try_catch;
    [apply detectPeopleInImage_once | intros e].
  destruct fallbackToYOLO; [|runs_step].
  runs_step; [apply detectPeopleWithYOLO_after | runs_step].
Qed.

Lemma inpaintWith_after (s : Service) (label modelUsed imageUrl maskUrl prompt : string) :
  notPrimaryDetector s ->
  onlyRuns notPrimaryDetector (inpaintWith env s label modelUsed imageUrl maskUrl prompt).
Proof.
  intros Hs. unfold inpaintWith. runs_step; [|runs_step]. runs_step; [runs_step|].
  runs_step; [apply onlyRuns_await_run; exact Hs|].
  destruct a0 as [[|resultUrl rest]|]; repeat runs_step.
Qed.

Lemma tryPreferred_after (imageUrl maskUrl prompt : string) (preferredModel : option string) :
  onlyRuns notPrimaryDetector (tryPreferred env imageUrl maskUrl prompt preferredModel).
Proof.
  unfold tryPreferred. destruct preferredModel as [name|]; [|runs_step].
  destruct (name =? ""); [runs_step|].
  runs_step; [|runs_step].
  repeat match goal with
         | |- onlyRuns _ (if ?b then _ else _) => destruct b
         end;
    try (runs_step; [apply inpaintWith_after; reflexivity | runs_step]); runs_step.
Qed.

Lemma tryModels_after (imageUrl maskUrl prompt : string)
    (ms : list (string * (string -> string -> string -> M InpaintingResult))) :
  Forall (fun model => forall i m p, onlyRuns notPrimaryDetector (snd model i m p)) ms ->
  onlyRuns notPrimaryDetector (tryModels imageUrl maskUrl prompt ms).
Proof.
  induction 1 as [|model rest Hmodel Hrest IH]; simpl.
  - runs_step.
  - runs_step.
    + runs_step; [|runs_step]. runs_step; [apply Hmodel | runs_step].
    + destruct a; [runs_step | exact IH].
Qed.

Lemma smartInpainting_after (imageUrl maskUrl prompt : string)
    (preferredModel : option string) :
  onlyRuns notPrimaryDetector (smartInpainting env imageUrl maskUrl prompt preferredModel).
Proof.
  unfold smartInpainting. runs_step; [apply tryPreferred_after|].
  destruct a; [runs_step|]. runs_step.
  - apply tryModels_after. unfold models.
    repeat constructor; intros; apply inpaintWith_after; reflexivity.
  - destruct a; runs_step.
Qed.

(** Every invocation of the pipeline calls the primary detector once, as
    its first remote call. *)
Lemma autoRemoveBackgroundPeople_once (imageUrl : string) (options : PersonRemovalOptions) :
  detectsOnceFirst (autoRemoveBackgroundPeople env imageUrl options).
Proof.
  unfold autoRemoveBackgroundPeople. apply detectsOnceFirst_after_now. intros startTime.
  cbv zeta. apply detectsOnceFirst_try_catch; [|intros e; repeat runs_step].
  apply detectsOnceFirst_bind; [apply detectionStage_once | intros d].
  destruct (masks d); [repeat runs_step|].
  destruct (backgroundMasks _); [repeat runs_step|].
  destruct (_ =? ""); [runs_step|].
  runs_step; [apply smartInpainting_after|].
  simpl. repeat runs_step.
Qed.

End AfterDetection.

Lemma primaryDetections_app (a b : list Event) :
  primaryDetections (a ++ b) = (primaryDetections a + primaryDetections b)%nat.
Proof. unfold primaryDetections. now rewrite filter_app, length_app. Qed.

Lemma primaryDetections_after (runs : list Service) :
  Forall notPrimaryDetector runs -> primaryDetections (map EvRun runs) = O.
Proof.
  unfold primaryDetections. induction 1 as [|s rest Hs _ IH]; [reflexivity|].
  cbn [map filter isPrimaryDetection]. now rewrite Hs.
Qed.

Lemma detectsOnceFirst_count {A} (m : M A) (w : World) :
  detectsOnceFirst m -> primaryDetections (snd (m w)) = S (primaryDetections w).
Proof.
  intros Hm. destruct (Hm w) as (runs & -> & Hruns).
  change (EvRun SAM2 :: map EvRun runs) with ([EvRun SAM2] ++ map EvRun runs)%list.
  rewrite !primaryDetections_app, (primaryDetections_after _ Hruns).
  unfold primaryDetections at 2. simpl. lia.
Qed.

Lemma detectsOnceFirst_attempts {A} (m : M A) (w : World) :
  detectsOnceFirst m -> attemptCount (snd (m w)) = attemptCount w.
Proof.
  intros Hm. destruct (Hm w) as (runs & -> & _).
  change (EvRun SAM2 :: map EvRun runs) with (map EvRun (SAM2 :: runs)).
  rewrite attemptCount_app, attemptCount_runs. lia.
Qed.

Section InvocationCount.

Variable pipeline : string -> PersonRemovalOptions -> M PersonRemovalResult.
Variables (imageUrl : string) (options : PersonRemovalOptions).
Hypothesis pipeline_detects : forall i o, detectsOnceFirst (pipeline i o).

Lemma worldAfterFailures_detections (maxRetries : Q) (w : World) (failures : nat) :
  primaryDetections (worldAfterFailures pipeline imageUrl options maxRetries w failures)
  = (primaryDetections w + failures)%nat.
Proof.
  induction failures as [|earlier IH]; cbn [worldAfterFailures]; [lia|].
  cbv zeta. rewrite primaryDetections_app.
  rewrite (detectsOnceFirst_count _ _ (pipeline_detects imageUrl options)).
  rewrite primaryDetections_app, IH. unfold primaryDetections at 2 3. simpl. lia.
Qed.

Lemma all_fail_detections (N : Z) (w : World) :
  (orDefault (maxRetries options) 2 == inject_Z N)%Q ->
  (1 <= N)%Z ->
  (forall k, (k < Z.to_nat N)%nat ->
     attemptFails
       (fst (pipeline imageUrl options
               (invocationWorld pipeline imageUrl options
                  (orDefault (maxRetries options) 2%Q) w k)))) ->
  primaryDetections (snd (autoRemoveBackgroundPeopleWithRetry pipeline imageUrl options w))
  = (primaryDetections w + Z.to_nat N)%nat.
Proof.
  intros HN Hpos Hfail. rewrite (wrapper_all_fail pipeline imageUrl options N w HN Hpos Hfail).
  cbn [snd]. rewrite (detectsOnceFirst_count _ _ (pipeline_detects imageUrl options)).
  unfold invocationWorld. rewrite primaryDetections_app, worldAfterFailures_detections.
  unfold primaryDetections at 2. simpl. lia.
Qed.

Lemma worldAfterFailures_attempts (maxRetries : Q) (w : World) (failures : nat) :
  attemptCount (worldAfterFailures pipeline imageUrl options maxRetries w failures)
  = (attemptCount w + failures)%nat.
Proof.
  induction failures as [|earlier IH]; cbn [worldAfterFailures]; [lia|].
  cbv zeta. rewrite attemptCount_app.
  rewrite (detectsOnceFirst_attempts _ _ (pipeline_detects imageUrl options)).
  rewrite attemptCount_app, IH. unfold attemptCount at 2 3. simpl. lia.
Qed.

Lemma all_fail_attempts (N : Z) (w : World) :
  (orDefault (maxRetries options) 2 == inject_Z N)%Q ->
  (1 <= N)%Z ->
  (forall k, (k < Z.to_nat N)%nat ->
     attemptFails
       (fst (pipeline imageUrl options
               (invocationWorld pipeline imageUrl options
                  (orDefault (maxRetries options) 2%Q) w k)))) ->
  attemptCount (snd (autoRemoveBackgroundPeopleWithRetry pipeline imageUrl options w))
  = (attemptCount w + Z.to_nat N)%nat.
Proof.
  intros HN Hpos Hfail. rewrite (wrapper_all_fail pipeline imageUrl options N w HN Hpos Hfail).
  cbn [snd]. rewrite (detectsOnceFirst_attempts _ _ (pipeline_detects imageUrl options)).
  unfold invocationWorld. rewrite attemptCount_app, worldAfterFailures_attempts.
  unfold attemptCount at 2. simpl. lia.
Qed.

End InvocationCount.

(** X32. Every invocation of the pipeline of this module calls the primary
    detector SAM-2 exactly once, as its first remote call; so when, for an
    integer maxRetries = N >= 1, none of the N attempts succeeds, the wrapper
    on this pipeline adds exactly N calls of SAM-2 to the trace -- the
    pipeline ran N times -- and exactly N attempt lines. *)
Theorem removeWithRetry_invocations (env : Services) (imageUrl : string)
    (options : PersonRemovalOptions) (N : Z) (w : World) :
  (orDefault (maxRetries options) 2 == inject_Z N)%Q ->
  (1 <= N)%Z ->
  (forall k, (k < Z.to_nat N)%nat ->
     attemptFails
       (fst (autoRemoveBackgroundPeople env imageUrl options
               (invocationWorld (autoRemoveBackgroundPeople env) imageUrl options
                  (orDefault (maxRetries options) 2%Q) w k)))) ->
  (forall w0,
     primaryDetections (snd (autoRemoveBackgroundPeople env imageUrl options w0))
     = S (primaryDetections w0)) /\
  primaryDetections (snd (removeWithRetry env imageUrl options w))
  = (primaryDetections w + Z.to_nat N)%nat /\
  attemptCount (snd (removeWithRetry env imageUrl options w))
  = (attemptCount w + Z.to_nat N)%nat.
Proof.
  intros HN Hpos Hfail. split; [|split].
  - intros w0. apply detectsOnceFirst_count, autoRemoveBackgroundPeople_once.
  - unfold removeWithRetry. apply all_fail_detections; try assumption.
    intros i o. apply autoRemoveBackgroundPeople_once.
  - unfold removeWithRetry. apply all_fail_attempts; try assumption.
    intros i o. apply autoRemoveBackgroundPeople_once.
Qed.

Lemma removeWithRetry_invocations_witness :
  primaryDetections
    (snd (removeWithRetry Examples.offlineServices "img" (Examples.withMaxRetries 3) []))
  = 3%nat.
Proof.
  assert (Hpos : (1 <= 3)%Z) by lia.
  destruct (removeWithRetry_invocations Examples.offlineServices "img"
              (Examples.withMaxRetries 3) 3%Z [] (Qeq_refl 3) Hpos
              (fun k _ => offline_pipeline_fails "img" (Examples.withMaxRetries 3) _))
    as (_ & Hcount & _).
  exact Hcount.
Defined.

(** ** Progress lookup *)

(** X25. The progress reported for a stage grows with the stage's position
    in the pipeline: it is 25% times the position (counted from 1), so it is
    strictly larger for a later stage, it lies between 25 and 100, and it is
    100 exactly for [completed]; no two stages share a message. *)
Theorem progress_follows_stages (s t : Stages.Stage) :
  Stages.progress (Stages.getProcessingProgress s) = (25 * (Stages.stageIndex s + 1))%Z /\
  ((Stages.stageIndex s < Stages.stageIndex t)%Z <->
   (Stages.progress (Stages.getProcessingProgress s)
    < Stages.progress (Stages.getProcessingProgress t))%Z) /\
  (25 <= Stages.progress (Stages.getProcessingProgress s) <= 100)%Z /\
  (Stages.progress (Stages.getProcessingProgress s) = 100%Z <-> s = Stages.completed) /\
  (Stages.message (Stages.getProcessingProgress s)
   = Stages.message (Stages.getProcessingProgress t) -> s = t).
Proof.
  destruct s, t; cbn; repeat split; intros; try lia; try reflexivity; try discriminate.
Qed.

(** ** Image generation *)

Lemma filterBoolean_shape (items : list (option string)) :
  Forall (fun url => url <> "" /\ In (Some url) items) (filterBoolean items) /\
  (List.length (filterBoolean items) <= List.length items)%nat.
Proof.
  induction items as [|[url|] rest [IHall IHlen]]; simpl.
  - split; [constructor | lia].
  - destruct (url =? "") eqn:Hurl.
    + split; [|lia]. eapply Forall_impl; [|exact IHall]. intros u [Hu Hin]. tauto.
    + split; [|simpl; lia]. constructor.
      * split; [now apply String.eqb_neq | now left].
      * eapply Forall_impl; [|exact IHall]. intros u [Hu Hin]. tauto.
  - split; [|lia]. eapply Forall_impl; [|exact IHall]. intros u [Hu Hin]. tauto.
Qed.

Lemma Forall2_In_left {A B} (P : A -> B -> Prop) (l : list A) (l' : list B) (a : A) :
  Forall2 P l l' -> In a l -> exists b, In b l' /\ P a b.
Proof.
  induction 1 as [|x y l l' Hxy _ IH]; intros Hin; [contradiction|].
  destruct Hin as [<- | Hin].
  - exists y. split; [now left | exact Hxy].
  - destruct (IH Hin) as (b & Hb & Hab). exists b. split; [now right | exact Hab].
Qed.

Lemma Forall2_In_right {A B} (P : A -> B -> Prop) (l : list A) (l' : list B) (b : B) :
  Forall2 P l l' -> In b l' -> exists a, In a l /\ P a b.
Proof.
  induction 1 as [|x y l l' Hxy _ IH]; intros Hin; [contradiction|].
  destruct Hin as [<- | Hin].
  - exists x. split; [now left | exact Hxy].
  - destruct (IH Hin) as (a & Ha & Hab). exists a. split; [now right | exact Hab].
Qed.

Lemma mapImageUrls_returns (output : list RawImage) (urls : list (option string)) :
  mapImageUrls output = Returns urls ->
  Forall2 (fun item url => imageUrlOf item = Returns url) output urls.
Proof.
  revert urls. induction output as [|item rest IH]; intros urls; cbn [mapImageUrls].
  - intros [= <-]. constructor.
  - destruct (imageUrlOf item) as [url|e] eqn:Hitem; [|discriminate].
    destruct (mapImageUrls rest) as [urls'|e]; [|discriminate].
    intros [= <-]. constructor; [exact Hitem | now apply IH].
Qed.

Lemma mapImageUrls_throws (output : list RawImage) (e : Thrown) :
  mapImageUrls output = Throw e -> In (ImageFile (Throw e)) output.
Proof.
  induction output as [|item rest IH]; cbn [mapImageUrls]; [discriminate|].
  destruct (imageUrlOf item) as [url|e'] eqn:Hitem.
  - destruct (mapImageUrls rest) as [urls'|e']; [discriminate|].
    intros [= <-]. right. now apply IH.
  - intros [= <-]. left. destruct item as [url|called|]; try discriminate.
    cbn [imageUrlOf] in Hitem. now subst called.
Qed.

(** X26. [generateImageWithReplicate] either returns URLs or throws an Error
    whose message starts with "Failed to generate image with Replicate: ".
    It throws exactly when the remote call throws, its output is not a
    non-empty array, or the [url()] method of an element of the output
    throws.  Every URL it returns is a non-empty value taken from an element
    of the output, and there are at most as many as elements; the returned
    list can be empty although the output was not, when no element yields a
    URL. *)
Theorem generateImage_outcome (run : string -> R -> Reply (list RawImage))
    (prompt : string) (guidance : option R) :
  let reply := run prompt (orDefault guidance 3.5%R) in
  (forall urls,
     generateImageWithReplicate run prompt guidance = Returns urls ->
     exists output,
       reply = Output (Some output) /\ output <> [] /\
       (forall thrown, ~ In (ImageFile (Throw thrown)) output) /\
       Forall (fun url => url <> "" /\
                          exists item, In item output /\ imageUrlOf item = Returns (Some url))
              urls /\
       (List.length urls <= List.length output)%nat) /\
  (forall e,
     generateImageWithReplicate run prompt guidance = Throw e ->
     (exists cause, e = ErrorObj ("Failed to generate image with Replicate: " ++ cause)) /\
     ((exists thrown, reply = Throws thrown) \/ reply = Output None \/
      reply = Output (Some []) \/
      (exists output thrown,
         reply = Output (Some output) /\ In (ImageFile (Throw thrown)) output))) /\
  (reply = Output (Some [ImageOther; ImageString ""]) ->
   generateImageWithReplicate run prompt guidance = Returns []).
Proof.
  intros reply. unfold generateImageWithReplicate. cbv zeta. fold reply.
  split; [|split].
  - intros urls. destruct reply as [thrown|[[|item rest]|]]; try discriminate.
    destruct (mapImageUrls (item :: rest)) as [found|e] eqn:Hmap; [|discriminate].
    intros [= <-]. exists (item :: rest).
    pose proof (mapImageUrls_returns _ _ Hmap) as Hall2.
    destruct (filterBoolean_shape found) as [Hall Hlen].
    split; [reflexivity|]. split; [discriminate|]. split; [|split].
    + intros thrown Hin.
      destruct (Forall2_In_left _ _ _ _ Hall2 Hin) as (url & _ & Hurl). discriminate.
    + eapply Forall_impl; [|exact Hall]. intros url [Hne Hin]. split; [exact Hne|].
      destruct (Forall2_In_right _ _ _ _ Hall2 Hin) as (it & Hit & Hurl).
      exists it. now split.
    + rewrite (Forall2_length Hall2). exact Hlen.
  - intros e. destruct reply as [thrown|[[|item rest]|]]; try discriminate.
    + intros [= <-]. split; [eexists; reflexivity|]. left. eexists. reflexivity.
    + intros [= <-]. split; [eexists; reflexivity|]. right. right. now left.
    + destruct (mapImageUrls (item :: rest)) as [found|e'] eqn:Hmap; [discriminate|].
      intros [= <-]. split; [eexists; reflexivity|]. right. right. right.
      exists (item :: rest), e'. split; [reflexivity | now apply mapImageUrls_throws].
    + intros [= <-]. split; [eexists; reflexivity|]. right. now left.
  - intros ->. reflexivity.
Qed.

Lemma generateImage_outcome_witness :
  generateImageWithReplicate (fun _ _ => Output (Some [ImageOther; ImageString ""]))
    "a lake" None = Returns [].
Proof.
  destruct (generateImage_outcome (fun _ _ => Output (Some [ImageOther; ImageString ""]))
              "a lake" None) as (_ & _ & Hempty).
  exact (Hempty eq_refl).
Defined.

(** ** The HTTP handler *)

Section HandlerProperties.

Variable Response : Type.
Variable respErr : string -> Response.
Variable respData : Route.RemovalPayload -> Response.
Variable gateway : Route.Gateway.
Variable env : Services.

Lemma POST_unfold (w : World) :
  Route.POST Response respErr respData gateway env w
  = match Route.currentUser gateway w with
    | Throw e => (Throw e, w)
    | Returns None => (Returns (respErr "no auth"), w)
    | Returns (Some user) =>
        match Route.emailAddresses user with
        | None | Some [] => (Returns (respErr "no auth"), w)
        | Some (first :: _) =>
            match Route.handleRequest Response respErr respData gateway env user first w with
            | (Returns response, w') => (Returns response, w')
            | (Throw e, w') => (Returns (caughtResponse respErr e), w')
            end
        end
    end.
Proof.
  unfold Route.POST, bind, Route.await, try_catch, ret.
  destruct (Route.currentUser gateway w) as [[user|]|e]; try reflexivity.
  destruct (Route.emailAddresses user) as [[|first others]|]; try reflexivity.
  destruct (Route.handleRequest Response respErr respData gateway env user first w) as [[response|[m|r]] w']; reflexivity.
Qed.

(** The handler's [try] block, gate by gate. *)
Lemma handleRequest_unfold (user : Route.ClerkUser) (first : Route.EmailAddress)
    (w : World) :
  Route.handleRequest Response respErr respData gateway env user first w
  = match Route.getUserCredits gateway w (Route.emailAddress first) with
    | Throw e => (Throw e, w)
    | Returns None => (Returns (respErr "credits not enough"), w)
    | Returns (Some credits) =>
        if (Route.left_credits credits <? 1)%Z
        then (Returns (respErr "credits not enough"), w)
        else
          match Route.saveUser gateway w
                  {| Route.email := Route.emailAddress first;
                     Route.nickname := stringOr (Route.firstName user) "";
                     Route.avatar_url := Route.imageUrl user |} with
          | Throw e => (Throw e, w)
          | Returns _ =>
              match Route.req_json gateway w with
              | Throw e => (Throw e, w)
              | Returns body =>
                  match Route.image_data body with
                  | None => (Returns (respErr "no image data provided"), w)
                  | Some image_data =>
                      if image_data =? ""
                      then (Returns (respErr "no image data provided"), w)
                      else if negb (prefix "data:image/" image_data)
                      then (Returns (respErr "invalid image data format"), w)
                      else if match Route.file_size body with
                              | Some size =>
                                  negb (size =? 0)%Z && (size >? Route.maxFileSize)%Z
                              | None => false
                              end
                      then (Returns (respErr "file too large, maximum size is 10MB"), w)
                      else
                        match removeWithRetry env image_data Route.handlerOptions w with
                        | (Returns result, w') =>
                            (Returns (responseFor respErr respData result), w')
                        | (Throw e, w') => (Throw e, w')
                        end
                  end
              end
          end
    end.
Proof.
  unfold Route.handleRequest, bind, Route.await, ret. cbv zeta.
  destruct (Route.getUserCredits gateway w (Route.emailAddress first)) as [[credits|]|e];
    try reflexivity.
  destruct (Route.left_credits credits <? 1)%Z; [reflexivity|].
  destruct (Route.saveUser gateway w _) as [[]|e]; [|reflexivity].
  destruct (Route.req_json gateway w) as [body|e]; [|reflexivity].
  destruct (Route.image_data body) as [image_data|]; [|reflexivity].
  destruct (image_data =? ""); [reflexivity|].
  destruct (negb (prefix "data:image/" image_data)); [reflexivity|].
  destruct (match Route.file_size body with Some _ => _ | None => _ end); [reflexivity|].
  destruct (removeWithRetry env image_data Route.handlerOptions w) as [[result|e] w'];
    [|reflexivity].
  unfold responseFor. destruct (success result); reflexivity.
Qed.


(** X28. The handler answers by itself whenever authentication answers: if
    [currentUser] resolves, the handler returns a response and does not
    throw, whatever the credit store, the user store, the request body and
    the removal services do; an Error thrown inside is answered with its own
    message and any other thrown value with "internal server error".  Only
    a throw of [currentUser], which is awaited outside the [try], escapes. *)
Theorem POST_always_responds (w : World) :
  (forall user,
     Route.currentUser gateway w = Returns user ->
     exists response w', Route.POST Response respErr respData gateway env w = (Returns response, w')) /\
  (forall e, Route.currentUser gateway w = Throw e -> Route.POST Response respErr respData gateway env w = (Throw e, w)) /\
  (forall user first others e,
     Route.currentUser gateway w = Returns (Some user) ->
     Route.emailAddresses user = Some (first :: others) ->
     Route.getUserCredits gateway w (Route.emailAddress first) = Throw e ->
     Route.POST Response respErr respData gateway env w = (Returns (caughtResponse respErr e), w)).
Proof.
  split; [|split].
  - intros user Huser. rewrite POST_unfold, Huser.
    destruct user as [user|]; [|eauto].
    destruct (Route.emailAddresses user) as [[|first others]|]; eauto.
    rewrite handleRequest_unfold.
    destruct (Route.getUserCredits gateway w (Route.emailAddress first)) as [[credits|]|e];
      eauto.
    destruct (Route.left_credits credits <? 1)%Z; eauto.
    destruct (Route.saveUser gateway w _) as [[]|e]; eauto.
    destruct (Route.req_json gateway w) as [body|e]; eauto.
    destruct (Route.image_data body) as [image_data|]; eauto.
    destruct (image_data =? ""); eauto.
    destruct (negb (prefix "data:image/" image_data)); eauto.
    destruct (match Route.file_size body with Some _ => _ | None => _ end); eauto.
    destruct (retry_never_throws_parts env image_data Route.handlerOptions w)
      as (result & w' & Hrun & _).
    unfold removeWithRetry. rewrite Hrun. eauto.
  - intros e Huser. now rewrite POST_unfold, Huser.
  - intros user first others e Huser Hmail Hcredits.
    now rewrite POST_unfold, Huser, Hmail, handleRequest_unfold, Hcredits.
Qed.


Lemma handler_schedule (count : nat) :
  (count <= 2)%nat -> count <> O ->
  attemptsSchedule 2 1 count = [EvAttempt 1 2] \/
  attemptsSchedule 2 1 count = [EvAttempt 1 2; EvWait 1000; EvAttempt 2 2].
Proof.
  intros Hle Hne. destruct count as [|[|[|count]]]; [congruence | now left | now right | lia].
Qed.

(** X30. For an admitted request the handler runs the retry wrapper on the
    image data with targetForegroundCount 1, the YOLO fallback and
    maxRetries 2, and answers with its result: the success payload (result
    URL, processing time, details) for a success, and the result's own
    non-empty error message for a failure.  The run makes one attempt, or
    two attempts separated by one wait of 1000 ms. *)
Theorem POST_admitted_response (w : World) (image_data : string) :
  admittedRequest gateway w image_data ->
  exists result events,
    removeWithRetry env image_data Route.handlerOptions w
    = (Returns result, (w ++ events)%list) /\
    Route.POST Response respErr respData gateway env w
    = (Returns (responseFor respErr respData result), (w ++ events)%list) /\
    (wrapperEvents events = [EvAttempt 1 2] \/
     wrapperEvents events = [EvAttempt 1 2; EvWait 1000; EvAttempt 2 2]) /\
    (success result = true ->
     responseFor respErr respData result
     = respData {| Route.result_url := resultUrl result;
                   Route.processing_time := processingTime result;
                   Route.payload_details := details result;
                   Route.payload_message := "Background people removed successfully" |}) /\
    (success result = false ->
     exists message, error result = Some message /\ message <> "" /\
                     responseFor respErr respData result = respErr message).
Proof.
  intros (user & first & others & credits & body & Huser & Hmail & Hcredits & Hleft
          & Hsave & Hbody & Hdata & Hprefix & Hsize).
  destruct (retry_never_throws_parts env image_data Route.handlerOptions w)
    as (result & w' & Hrun & Horigin).
  destruct (retryLoop_schedule (autoRemoveBackgroundPeople env) image_data
              Route.handlerOptions (autoRemoveBackgroundPeople_runs env) 2%Q 2%nat 1%Z w
              eq_refl) as (events & count & trailing & Hevents & Hsched & Hcount & Hpos & Htrail).
  assert (Hnone : trailing = []).
  { destruct Htrail as [-> | (_ & _ & Hfrac)]; [reflexivity|].
    exfalso. apply Hfrac. reflexivity. }
  subst trailing. rewrite app_nil_r in Hsched.
  assert (Hw' : w' = (w ++ events)%list).
  { unfold autoRemoveBackgroundPeopleWithRetry in Hrun. cbv zeta in Hrun.
    cbn [orDefault maxRetries Route.handlerOptions] in Hrun.
    change (Z.to_nat (Qfloor 2)) with 2%nat in Hrun. rewrite Hrun in Hevents.
    exact Hevents. }
  subst w'. exists result, events. split; [exact Hrun|]. split; [|split; [|split]].
  - rewrite POST_unfold, Huser, Hmail, handleRequest_unfold, Hcredits.
    apply Z.ltb_ge in Hleft. rewrite Hleft, Hsave, Hbody, Hdata, Hprefix.
    assert (Hne : (image_data =? "") = false).
    { destruct image_data; [discriminate Hprefix | reflexivity]. }
    rewrite Hne. cbn [negb].
    assert (Hok : match Route.file_size body with
                  | Some size => negb (size =? 0)%Z && (size >? Route.maxFileSize)%Z
                  | None => false
                  end = false).
    { destruct (Route.file_size body) as [size|]; [|reflexivity].
      destruct Hsize as [-> | Hle]; [reflexivity|].
      apply andb_false_iff. right. rewrite Z.gtb_ltb. now apply Z.ltb_ge. }
    rewrite Hok. unfold removeWithRetry. now rewrite Hrun.
  - rewrite Hsched. apply handler_schedule; [exact Hcount | now apply Hpos].
  - intros Hs. unfold responseFor. now rewrite Hs.
  - intros Hs. unfold responseFor. rewrite Hs.
    assert (Hmsg : exists message, error result = Some message /\ message <> "").
    { destruct Horigin as [-> | (w0 & r0 & w0' & Hpipe & ->)].
      - eexists. split; [reflexivity | discriminate].
      - destruct (pipeline_result_shape _ _ _ _ _ _ Hpipe)
          as [(Hok & _)|(_ & _ & _ & Hmsg)]; [congruence | exact Hmsg]. }
    destruct Hmsg as (message & Hm & Hne). exists message.
    split; [exact Hm|]. split; [exact Hne|]. rewrite Hm. unfold stringOr.
    apply String.eqb_neq in Hne. now rewrite Hne.
Qed.

End HandlerProperties.

Lemma memberPosting_admitted (w : World) :
  admittedRequest MoreExamples.memberPosting w "data:image/png;base64,AAAA".
Proof.
  exists MoreExamples.member, {| Route.emailAddress := "ann@example.org" |}, [],
    {| Route.left_credits := 3 |},
    {| Route.image_data := Some "data:image/png;base64,AAAA";
       Route.file_name := Some "a.png";
       Route.file_size := Some 1024%Z |}.
  repeat split; try reflexivity.
  - simpl. lia.
  - right. unfold Route.maxFileSize. lia.
Qed.


Lemma POST_always_responds_witness :
  exists response w',
    Route.POST MoreExamples.SimpleResponse inl inr MoreExamples.memberPosting
      Examples.offlineServices [] = (Returns response, w').
Proof.
  destruct (POST_always_responds MoreExamples.SimpleResponse inl inr
              MoreExamples.memberPosting Examples.offlineServices []) as [Hanswers _].
  exact (Hanswers (Some MoreExamples.member) eq_refl).
Defined.


Lemma POST_admitted_response_witness :
  exists message events,
    Route.POST MoreExamples.SimpleResponse inl inr MoreExamples.memberPosting
      Examples.offlineServices [] = (Returns (inl message), events) /\
    message <> "".
Proof.
  destruct (POST_admitted_response MoreExamples.SimpleResponse inl inr
              MoreExamples.memberPosting Examples.offlineServices []
              "data:image/png;base64,AAAA" (memberPosting_admitted []))
    as (result & events & Hrun & Hpost & _ & _ & Hfail).
  assert (Hs : success result = false).
  { vm_compute in Hrun. injection Hrun as <- _. reflexivity. }
  destruct (Hfail Hs) as (message & _ & Hne & Hresp).
  exists message, ([] ++ events)%list. rewrite Hpost, Hresp. split; [reflexivity | exact Hne].
Defined.
